(** * EFlexMultiAgentCooperationV4: a shallow embedding

    Source: gym_eflex_agent/envs/EFlexMultiAgentCooperationV4.py

    Conventions of the embedding
    - Python floats (and the ints mixed with them) are idealised as exact
      rationals [Q]; a value assigned from a literal or copied from a field
      is the same term, so such facts are stated with Leibniz equality, and
      computed values are compared with [==].
    - Tick counters ([current_step], [currentStep], [startStep]) and the
      production counter are integers [Z].
    - A Python exception (IndexError, ValueError, ZeroDivisionError,
      OverflowError) is the result [None]; the state left behind by a call
      that raised is not modelled.
    - Lists indexed by position use stdpp's lookup [l !! i] and update
      [<[i:=x]> l]; every index written by the source is in range, which is
      proved where it matters.
    - The random source set by [seed], the [name], the unused [type] field
      and the trace strings of [info] play no part in any transition and are
      left out. *)

From Stdlib Require Import ZArith QArith Qabs Qminmax Lia Lqa Sorted.
From stdpp Require Import base option list.

Open Scope Z_scope.
Open Scope Q_scope.

(** ** Numeric helpers *)

Definition Qgtb (x y : Q) : bool := negb (Qle_bool x y).
Definition Qltb (x y : Q) : bool := negb (Qle_bool y x).

(** [np.sum] over a sequence of floats, accumulated from the left.  (A
    list that holds Python ints only is added in int64 instead: see
    [np_sum_int64] at the end of the definitions.) *)
Definition np_sum (l : list Q) : Q := fold_left Qplus l 0.

(** [np.mean]: the sum divided by the number of entries.  (On an empty
    list numpy yields nan where this quotient is 0; nothing below rests on
    that case.) *)
Definition np_mean (l : list Q) : Q := np_sum l / inject_Z (Z.of_nat (length l)).

(** Python's true division: raises ZeroDivisionError on a zero divisor. *)
Definition py_div (x y : Q) : option Q :=
  if Qeq_bool y 0 then None else Some (x / y).

Definition MAX_PRODUCTION_STEP : Z := 20.

(** ** Time-series generators *)

(** The loop shared by [TOUGenerator.step] and [LoadProfile.step]:
    [for i, limit in enumerate(steps): if tick > limit: cur = f(values[i]);
    continue else: break].  [f] is the expression assigned from
    [values[i]]. *)
Fixpoint scan (f : Q → Q) (tick : Z) (steps : list Z) (values : list Q)
    (i : nat) (cur : Q) : option Q :=
  match steps with
  | [] => Some cur
  | limit :: rest =>
      if (limit <? tick)%Z
      then x ← values !! i; scan f tick rest values (S i) (f x)
      else Some cur
  end.

Module TOUGenerator.

Record t := mk {
  steps : list Z;
  values : list Q;
  current_step : Z;
  current_tou_value : Q
}.

(** [__init__]: [values[0]] raises on an empty list. *)
Definition init (steps : list Z) (values : list Q) : option t :=
  v0 ← values !! 0%nat; Some (mk steps values 0 v0).

Definition step (g : t) : option (t * Q) :=
  let tick := (current_step g + 1)%Z in
  v ← scan (λ x, x) tick (steps g) (values g) 0 (current_tou_value g);
  Some (mk (steps g) (values g) tick v, v).

(** [reset] is [pass]. *)
Definition reset (g : t) : t := g.

End TOUGenerator.

Module LoadProfile.

Record t := mk {
  steps : list Z;
  values : list Q;
  tolerance_factor : Q;
  current_step : Z;
  current_max_load : Q
}.

Definition scaled (tol : Q) (x : Q) : Q := x * (1 + tol).

Definition init (steps : list Z) (values : list Q) (tol : Q) : option t :=
  v0 ← values !! 0%nat; Some (mk steps values tol 0 (scaled tol v0)).

Definition step (p : t) : option (t * Q) :=
  let tick := (current_step p + 1)%Z in
  v ← scan (scaled (tolerance_factor p)) tick (steps p) (values p) 0
        (current_max_load p);
  Some (mk (steps p) (values p) (tolerance_factor p) tick v, v).

Definition reset (p : t) : t := p.

End LoadProfile.

(** The two generators seen through one interface. *)
Inductive TimeSeries :=
  | Price (g : TOUGenerator.t)
  | LoadLimit (p : LoadProfile.t).

Definition ts_steps (ts : TimeSeries) : list Z :=
  match ts with
  | Price g => TOUGenerator.steps g
  | LoadLimit p => LoadProfile.steps p
  end.

(** The value a breakpoint stands for: [values[i]] for the price,
    [values[i] * (1 + tolerance_factor)] for the load limit. *)
Definition ts_values (ts : TimeSeries) : list Q :=
  match ts with
  | Price g => TOUGenerator.values g
  | LoadLimit p =>
      LoadProfile.scaled (LoadProfile.tolerance_factor p) <$> LoadProfile.values p
  end.

Definition ts_tick (ts : TimeSeries) : Z :=
  match ts with
  | Price g => TOUGenerator.current_step g
  | LoadLimit p => LoadProfile.current_step p
  end.

Definition ts_value (ts : TimeSeries) : Q :=
  match ts with
  | Price g => TOUGenerator.current_tou_value g
  | LoadLimit p => LoadProfile.current_max_load p
  end.

Definition ts_step (ts : TimeSeries) : option (TimeSeries * Q) :=
  match ts with
  | Price g => '(g', v) ← TOUGenerator.step g; Some (Price g', v)
  | LoadLimit p => '(p', v) ← LoadProfile.step p; Some (LoadLimit p', v)
  end.

(** [n] consecutive calls of [step]. *)
Fixpoint ts_run (n : nat) (ts : TimeSeries) : option TimeSeries :=
  match n with
  | O => Some ts
  | S k => '(ts', _) ← ts_step ts; ts_run k ts'
  end.

(** The reading of the specification: the value paired with the first
    breakpoint strictly greater than the tick counter. *)
Fixpoint spec_first_breakpoint_above (tick : Z) (steps : list Z) (values : list Q)
    : option Q :=
  match steps, values with
  | limit :: steps', x :: values' =>
      if (tick <? limit)%Z then Some x
      else spec_first_breakpoint_above tick steps' values'
  | _, _ => None
  end.

(** ** Production devices *)

Module EFLEXAgentState.
Inductive t :=
  | Aborted | Stopped | PowerOff | LoadChange | StandBy | StartedUp
  | Idle | Execute | Completed | Held | Suspended.

Definition value (s : t) : nat :=
  match s with
  | Aborted => 1 | Stopped => 0 | PowerOff => 2 | LoadChange => 3
  | StandBy => 4 | StartedUp => 5 | Idle => 6 | Execute => 7
  | Completed => 8 | Held => 9 | Suspended => 10
  end.

Definition all : list t :=
  [Aborted; Stopped; PowerOff; LoadChange; StandBy; StartedUp;
   Idle; Execute; Completed; Held; Suspended].

Definition eqb (x y : t) : bool := Nat.eqb (value x) (value y).
End EFLEXAgentState.

Module EFLEXAgentTransition.
Inductive t :=
  | SC | Abort | Clear | Reset | Stop | ChangeLoad | Hold | PowerOn
  | PowerOff | Standby | Start | Suspend | UnHold | Unsuspend.

Definition value (a : t) : Z :=
  match a with
  | SC => 0 | Abort => 1 | Clear => 2 | Reset => 3 | Stop => 4
  | ChangeLoad => 5 | Hold => 6 | PowerOn => 7 | PowerOff => 8
  | Standby => 9 | Start => 10 | Suspend => 11 | UnHold => 12
  | Unsuspend => 13
  end%Z.

Definition all : list t :=
  [SC; Abort; Clear; Reset; Stop; ChangeLoad; Hold; PowerOn;
   PowerOff; Standby; Start; Suspend; UnHold; Unsuspend].

(** [EFLEXAgentTransition(action)]: lookup by value, ValueError when no
    member has that value. *)
Definition of_value (action : Z) : option t :=
  match action with
  | 0 => Some SC | 1 => Some Abort | 2 => Some Clear | 3 => Some Reset
  | 4 => Some Stop | 5 => Some ChangeLoad | 6 => Some Hold
  | 7 => Some PowerOn | 8 => Some PowerOff | 9 => Some Standby
  | 10 => Some Start | 11 => Some Suspend | 12 => Some UnHold
  | 13 => Some Unsuspend | _ => None
  end%Z.
End EFLEXAgentTransition.

Module EFlexAgent.
Import EFLEXAgentState.
Module T := EFLEXAgentTransition.

(** The three subclasses differ only in [current_power]. *)
Inductive kind := PConstant | PLinear | PLogistic.

Record t := mk {
  p_min : Q;
  p_max : Q;
  p_slope : Q;
  current_state : EFLEXAgentState.t;
  current_reward : Q;
  max_allowed_power : Q;
  startStep : Z;
  currentStep : Z;
  production_count : Z
}.

(** [len(EFLEXAgentState) + 2] *)
Definition obs_len : nat := length EFLEXAgentState.all + 2.

Definition set_state (a : t) (s : EFLEXAgentState.t) (r : Q) : t :=
  mk (p_min a) (p_max a) (p_slope a) s r (max_allowed_power a)
     (startStep a) (currentStep a) (production_count a).

(** [self.startStep = self.currentStep] *)
Definition restart (a : t) : t :=
  mk (p_min a) (p_max a) (p_slope a) (current_state a) (current_reward a)
     (max_allowed_power a) (currentStep a) (currentStep a) (production_count a).

Definition count_production (a : t) : t :=
  mk (p_min a) (p_max a) (p_slope a) (current_state a) (current_reward a)
     (max_allowed_power a) (startStep a) (currentStep a) (production_count a + 1).

Definition tick (a : t) : t :=
  mk (p_min a) (p_max a) (p_slope a) (current_state a) (current_reward a)
     (max_allowed_power a) (startStep a) (currentStep a + 1) (production_count a).

Definition set_reward (a : t) (r : Q) : t :=
  set_state a (current_state a) r.

Definition _take_action (a : t) (action : T.t) : t :=
  match current_state a with
  | Aborted =>
      let a := restart a in
      match action with
      | T.Clear => set_state a Stopped 1.0
      | _ => set_state a Aborted 0.0
      end
  | Stopped =>
      let a := restart a in
      match action with
      | T.Abort => set_state a Aborted (-0.1)
      | T.Reset => set_state a Idle 0.1
      | _ => set_state a Stopped 0.0
      end
  | Idle =>
      match action with
      | T.Abort => set_state a Aborted (-0.1)
      | T.Start => set_state (restart a) Execute 1.0
      | T.PowerOff => set_state a PowerOff 0.0
      | T.Standby => set_state a StandBy 0.0
      | T.Stop => set_state a Stopped 0.0
      | T.ChangeLoad => set_state a Idle 0.1
      | _ => set_state a Idle 0.0
      end
  | PowerOff =>
      let a := restart a in
      match action with
      | T.Abort => set_state a Aborted (-0.1)
      | T.PowerOn => set_state a StartedUp 0.0
      | T.Stop => set_state a Stopped 0.0
      | _ => set_state a PowerOff 0.0
      end
  | StandBy =>
      let a := restart a in
      match action with
      | T.Abort => set_state a Aborted (-0.1)
      | T.PowerOn => set_state a StartedUp 0.1
      | T.Stop => set_state a Stopped 0.0
      | _ => set_state a StandBy 0.0
      end
  | StartedUp =>
      match action with
      | T.Abort => set_state a Aborted (-0.1)
      | T.Reset => set_state a Idle 0.3
      | T.Stop => set_state a Stopped 0.0
      | _ => set_state a StartedUp 0.0
      end
  | Execute =>
      match action with
      | T.Abort => set_state a Aborted (-0.1)
      | T.SC => count_production (set_state a Completed 1.0)
      | T.Hold => set_state a Held 0.0
      | T.Suspend => set_state a Suspended 0.0
      | T.Stop => set_state a Stopped 0.0
      | T.ChangeLoad => set_state a Execute 0.0
      | _ => set_state a Execute 0.0
      end
  | Completed =>
      match action with
      | T.Abort => set_state a Aborted (-0.1)
      | T.SC => set_state a Idle 1.0
      | T.Stop => set_state a Stopped 0.0
      | _ => set_state a Completed 0.0
      end
  | Held =>
      match action with
      | T.Abort => set_state a Aborted (-0.1)
      | T.UnHold => set_state a Execute 0.1
      | T.Suspend => set_state a Suspended 0.0
      | T.Stop => set_state a Stopped 0.0
      | T.ChangeLoad => set_state a Held 0.0
      | _ => set_state a Held 0.0
      end
  | Suspended =>
      match action with
      | T.Abort => set_state a Aborted (-0.1)
      | T.Unsuspend => set_state a Execute 0.1
      | T.Hold => set_state a Held 0.0
      | T.Stop => set_state a Stopped 0.0
      | T.ChangeLoad => set_state a Suspended 0.0
      | _ => set_state a Suspended 0.0
      end
  (* no branch of the if/elif chain tests for LoadChange *)
  | LoadChange => a
  end.

Section Power.
(** [math.exp], which raises OverflowError on large arguments. *)
Variable math_exp : Q → option Q.

(** [sigmoid(x, k, l) = l / (1 + math.exp(- l * x))] *)
Definition sigmoid (x k l : Q) : option Q :=
  e ← math_exp (- l * x); py_div l (1 + e).

Definition current_power (k : kind) (a : t) : option Q :=
  match current_state a with
  | Aborted | Stopped => Some 0.0
  | Execute | Completed =>
      match k with
      | PConstant => Some (p_max a)
      | PLinear =>
          let delta := inject_Z (currentStep a - startStep a) in
          let c_power := p_min a + delta * p_slope a in
          Some (if Qgtb c_power (p_max a) then p_max a else c_power)
      | PLogistic =>
          let delta := inject_Z (currentStep a - startStep a) in
          s ← sigmoid delta (p_slope a) (p_max a);
          let c_power := p_min a + s in
          Some (if Qgtb c_power (p_max a) then p_max a else c_power)
      end
  | _ => Some (p_min a)
  end.

Definition _get_obs (k : kind) (a : t) : option (list Q) :=
  let obs := replicate obs_len 0.0 in
  let obs := <[value (current_state a) := 1.0]> obs in
  p ← current_power k a;
  x ← py_div p (max_allowed_power a);
  Some (<[(obs_len - 1)%nat := x]> obs).

Definition _get_done (a : t) : bool :=
  EFLEXAgentState.eqb (current_state a) Aborted
  || (MAX_PRODUCTION_STEP <=? production_count a)%Z.

Definition _get_reward (a : t) : Q := current_reward a.

Definition step (k : kind) (a : t) (action : Z) : option (t * list Q * Q * bool) :=
  act_enum ← T.of_value action;
  let a := _take_action a act_enum in
  let reward := _get_reward a in
  ob ← _get_obs k a;
  let episode_over := _get_done a in
  Some (tick a, ob, reward, episode_over).

Definition reset (k : kind) (a : t) : option (t * list Q) :=
  let a := mk (p_min a) (p_max a) (p_slope a) Stopped 0.0 (max_allowed_power a) 0 0 0 in
  ob ← _get_obs k a; Some (a, ob).

(** [__init__]: the fields are set, [reset] is called, then the step
    counters and the production counter are set again. *)
Definition init (k : kind) (p_min p_max p_slope max_allowed_power : Q) : option t :=
  '(a, _) ← reset k (mk p_min p_max p_slope Stopped 0.0 max_allowed_power 0 0 0);
  Some (mk p_min p_max p_slope (current_state a) (current_reward a)
           max_allowed_power 0 0 0).
End Power.

End EFlexAgent.

(** ** Energy storage *)

Module EFLEXEnergyStorageAgentState.
Inductive t := Aborted | Stopped | Charging | Discharging.

Definition value (s : t) : nat :=
  match s with
  | Aborted => 1 | Stopped => 0 | Charging => 2 | Discharging => 3
  end.

Definition all : list t := [Aborted; Stopped; Charging; Discharging].

Definition eqb (x y : t) : bool := Nat.eqb (value x) (value y).
End EFLEXEnergyStorageAgentState.

Module EFLEXEnergyStorageAgentTransition.
Inductive t := SC | Abort | Clear | Charge | Stop | Discharge.

Definition value (a : t) : Z :=
  match a with
  | SC => 0 | Abort => 1 | Clear => 2 | Charge => 3 | Stop => 4
  | Discharge => 5
  end%Z.

Definition all : list t := [SC; Abort; Clear; Charge; Stop; Discharge].

Definition of_value (action : Z) : option t :=
  match action with
  | 0 => Some SC | 1 => Some Abort | 2 => Some Clear | 3 => Some Charge
  | 4 => Some Stop | 5 => Some Discharge | _ => None
  end%Z.
End EFLEXEnergyStorageAgentTransition.

Module EFlexEnergyStorageAgent.
Import EFLEXEnergyStorageAgentState.
Module T := EFLEXEnergyStorageAgentTransition.

Record t := mk {
  p_min : Q;
  p_max : Q;
  p_slope : Q;
  current_state : EFLEXEnergyStorageAgentState.t;
  current_reward : Q;
  max_allowed_power : Q;
  startStep : Z;
  currentStep : Z;
  charging_level : Q
}.

Definition obs_len : nat := length EFLEXEnergyStorageAgentState.all + 2.

Definition set_state (a : t) (s : EFLEXEnergyStorageAgentState.t) (r : Q) : t :=
  mk (p_min a) (p_max a) (p_slope a) s r (max_allowed_power a)
     (startStep a) (currentStep a) (charging_level a).

Definition restart (a : t) : t :=
  mk (p_min a) (p_max a) (p_slope a) (current_state a) (current_reward a)
     (max_allowed_power a) (currentStep a) (currentStep a) (charging_level a).

Definition set_level (a : t) (level : Q) : t :=
  mk (p_min a) (p_max a) (p_slope a) (current_state a) (current_reward a)
     (max_allowed_power a) (startStep a) (currentStep a) level.

Definition tick (a : t) : t :=
  mk (p_min a) (p_max a) (p_slope a) (current_state a) (current_reward a)
     (max_allowed_power a) (startStep a) (currentStep a + 1) (charging_level a).

(** [0.5 * (1 - ((p_max - charging_level) ** 2 / (p_max ** 2)))] *)
Definition efficiency (a : t) : option Q :=
  q ← py_div ((p_max a - charging_level a) ^ 2) (p_max a ^ 2);
  Some (0.5 * (1 - q)).

(** The tail of the [Charging] branch. *)
Definition charge (a : t) : t :=
  let a := set_level a (charging_level a + p_slope a) in
  if Qgtb (charging_level a) (p_max a) then set_level a (p_max a) else a.

(** The tail of the [Discharging] branch. *)
Definition discharge (a : t) : t :=
  let a := set_level a (charging_level a - p_slope a) in
  if Qltb (charging_level a) (p_min a) then set_level a (p_min a) else a.

Definition _take_action (a : t) (action : T.t) : option t :=
  match current_state a with
  | Aborted =>
      let a := restart a in
      match action with
      | T.Clear => Some (set_state a Stopped 1.0)
      | _ => Some (set_state a Aborted 0.0)
      end
  | Stopped =>
      let a := restart a in
      match action with
      | T.Abort => Some (set_state a Aborted (-0.1))
      | T.Charge => Some (set_state a Charging 0.1)
      | T.Discharge => Some (set_state a Discharging 0.1)
      | _ => Some (set_state a Stopped 0.0)
      end
  | Charging =>
      a ← match action with
          | T.Abort => Some (set_state a Aborted (-0.1))
          | T.Stop => Some (set_state a Stopped 0.0)
          | T.Discharge => val ← efficiency a; Some (set_state a Discharging val)
          | _ => val ← efficiency a; Some (set_state a Charging val)
          end;
      Some (charge a)
  | Discharging =>
      a ← match action with
          | T.Abort => Some (set_state a Aborted (-0.1))
          | T.Stop => Some (set_state a Stopped 0.0)
          | T.Charge => val ← efficiency a; Some (set_state a Charging val)
          | _ => val ← efficiency a; Some (set_state a Discharging val)
          end;
      Some (discharge a)
  end.

Definition current_power (a : t) : Q :=
  match current_state a with
  | Aborted | Stopped => 0.0
  | Charging =>
      if Qltb (charging_level a) (p_max a)
      then (p_max a - p_min a) / 2 else 0.0
  | Discharging =>
      if Qgtb (charging_level a) (p_min a)
      then - (p_max a - p_min a) / 2 else 0.0
  end.

Definition _get_obs (a : t) : option (list Q) :=
  let obs := replicate obs_len 0.0 in
  let obs := <[value (current_state a) := 1.0]> obs in
  x ← py_div (current_power a) (max_allowed_power a);
  Some (<[(obs_len - 1)%nat := x]> obs).

Definition _get_done (a : t) : bool :=
  EFLEXEnergyStorageAgentState.eqb (current_state a) Aborted.

Definition _get_reward (a : t) : Q := current_reward a.

Definition step (a : t) (action : Z) : option (t * list Q * Q * bool) :=
  act_enum ← T.of_value action;
  a ← _take_action a act_enum;
  let reward := _get_reward a in
  ob ← _get_obs a;
  let episode_over := _get_done a in
  Some (tick a, ob, reward, episode_over).

(** [charging_level] is not assigned by [reset]. *)
Definition reset (a : t) : option (t * list Q) :=
  let a := mk (p_min a) (p_max a) (p_slope a) Stopped 0.0 (max_allowed_power a)
              0 0 (charging_level a) in
  ob ← _get_obs a; Some (a, ob).

(** [__init__] calls [reset] before [charging_level] exists; the
    observation of a stopped device does not read it. *)
Definition init (p_min p_max p_slope max_allowed_power : Q) : option t :=
  '(a, _) ← reset (mk p_min p_max p_slope Stopped 0.0 max_allowed_power 0 0 0);
  Some (mk p_min p_max p_slope (current_state a) (current_reward a)
           max_allowed_power 0 0 0).

(** Steps in sequence; the reward and the charging level after each. *)
Fixpoint run (a : t) (actions : list Z) : option (t * list (Q * Q)) :=
  match actions with
  | [] => Some (a, [])
  | action :: actions' =>
      '(a, _, reward, _) ← step a action;
      '(a', trace) ← run a actions';
      Some (a', (reward, charging_level a) :: trace)
  end.

End EFlexEnergyStorageAgent.

(** ** Generator *)

Module EFLEXEnergyGeneratorAgentState.
Inductive t := Aborted | Stopped | Generating.

Definition value (s : t) : nat :=
  match s with Aborted => 1 | Stopped => 0 | Generating => 2 end.

Definition all : list t := [Aborted; Stopped; Generating].

Definition eqb (x y : t) : bool := Nat.eqb (value x) (value y).
End EFLEXEnergyGeneratorAgentState.

Module EFLEXEnergyGeneratorAgentTransition.
Inductive t := SC | Abort | Clear | Generate | Stop.

Definition value (a : t) : Z :=
  match a with
  | SC => 0 | Abort => 1 | Clear => 2 | Generate => 3 | Stop => 4
  end%Z.

Definition all : list t := [SC; Abort; Clear; Generate; Stop].

Definition of_value (action : Z) : option t :=
  match action with
  | 0 => Some SC | 1 => Some Abort | 2 => Some Clear | 3 => Some Generate
  | 4 => Some Stop | _ => None
  end%Z.
End EFLEXEnergyGeneratorAgentTransition.

Module EFLEXEnergyGeneratorAgent.
Import EFLEXEnergyGeneratorAgentState.
Module T := EFLEXEnergyGeneratorAgentTransition.

Record t := mk {
  p_min : Q;
  p_max : Q;
  p_slope : Q;
  current_state : EFLEXEnergyGeneratorAgentState.t;
  current_reward : Q;
  max_allowed_power : Q;
  startStep : Z;
  currentStep : Z;
  last_power : Q
}.

Definition obs_len : nat := length EFLEXEnergyGeneratorAgentState.all + 2.

Definition set_state (a : t) (s : EFLEXEnergyGeneratorAgentState.t) (r : Q) : t :=
  mk (p_min a) (p_max a) (p_slope a) s r (max_allowed_power a)
     (startStep a) (currentStep a) (last_power a).

Definition restart (a : t) : t :=
  mk (p_min a) (p_max a) (p_slope a) (current_state a) (current_reward a)
     (max_allowed_power a) (currentStep a) (currentStep a) (last_power a).

Definition current_power (a : t) : Q :=
  match current_state a with
  | Aborted | Stopped => 0.0
  | Generating =>
      let c_power := last_power a + p_slope a in
      if Qgtb c_power (p_max a) then - p_max a else - c_power
  end.

Definition _take_action (a : t) (action : T.t) : option t :=
  match current_state a with
  | Aborted =>
      let a := restart a in
      match action with
      | T.Clear => Some (set_state a Stopped 1.0)
      | _ => Some (set_state a Aborted 0.0)
      end
  | Stopped =>
      let a := restart a in
      match action with
      | T.Abort => Some (set_state a Aborted (-0.1))
      | T.Generate => Some (set_state a Generating 0.1)
      | _ => Some (set_state a Stopped 0.0)
      end
  | Generating =>
      match action with
      | T.Abort => Some (set_state a Aborted (-0.1))
      | T.Stop => Some (set_state a Stopped 0.0)
      | _ =>
          (* the state is assigned before [current_power] is read *)
          q ← py_div (current_power a) (p_max a);
          Some (set_state a Generating (0.2 * Qabs q))
      end
  end.

Definition _get_obs (a : t) : option (list Q) :=
  let obs := replicate obs_len 0.0 in
  let obs := <[value (current_state a) := 1.0]> obs in
  x ← py_div (current_power a) (max_allowed_power a);
  Some (<[(obs_len - 1)%nat := x]> obs).

Definition _get_done (a : t) : bool :=
  EFLEXEnergyGeneratorAgentState.eqb (current_state a) Aborted.

Definition _get_reward (a : t) : Q := current_reward a.

(** After the observation: [currentStep] advances and [last_power]
    becomes [abs(current_power)]. *)
Definition tick (a : t) : t :=
  mk (p_min a) (p_max a) (p_slope a) (current_state a) (current_reward a)
     (max_allowed_power a) (startStep a) (currentStep a + 1)
     (Qabs (current_power a)).

Definition step (a : t) (action : Z) : option (t * list Q * Q * bool) :=
  act_enum ← T.of_value action;
  a ← _take_action a act_enum;
  let reward := _get_reward a in
  ob ← _get_obs a;
  let episode_over := _get_done a in
  Some (tick a, ob, reward, episode_over).

(** [last_power] is not assigned by [reset]. *)
Definition reset (a : t) : option (t * list Q) :=
  let a := mk (p_min a) (p_max a) (p_slope a) Stopped 0.0 (max_allowed_power a)
              0 0 (last_power a) in
  ob ← _get_obs a; Some (a, ob).

Definition init (p_min p_max p_slope max_allowed_power : Q) : option t :=
  '(a, _) ← reset (mk p_min p_max p_slope Stopped 0.0 max_allowed_power 0 0 0);
  Some (mk p_min p_max p_slope (current_state a) (current_reward a)
           max_allowed_power 0 0 0).

End EFLEXEnergyGeneratorAgent.

(** ** Main grid *)

Module EFLEXEnergyMainGridAgentState.
Inductive t := Aborted | Stopped | Buying | Selling.

Definition value (s : t) : nat :=
  match s with Aborted => 0 | Stopped => 1 | Buying => 2 | Selling => 4 end.

Definition all : list t := [Aborted; Stopped; Buying; Selling].

Definition eqb (x y : t) : bool := Nat.eqb (value x) (value y).
End EFLEXEnergyMainGridAgentState.

Module EFLEXEnergyMainGridAgentTransition.
Inductive t := SC | Abort | Clear | Stop | Buy | Sell.

Definition value (a : t) : Z :=
  match a with
  | SC => 0 | Abort => 1 | Clear => 2 | Stop => 3 | Buy => 4 | Sell => 5
  end%Z.

Definition all : list t := [SC; Abort; Clear; Stop; Buy; Sell].

Definition of_value (action : Z) : option t :=
  match action with
  | 0 => Some SC | 1 => Some Abort | 2 => Some Clear | 3 => Some Stop
  | 4 => Some Buy | 5 => Some Sell | _ => None
  end%Z.
End EFLEXEnergyMainGridAgentTransition.

Module EFLEXEnergyMainGridAgent.
Import EFLEXEnergyMainGridAgentState.
Module T := EFLEXEnergyMainGridAgentTransition.

Record t := mk {
  p_min : Q;
  p_max : Q;
  p_slope : Q;
  current_state : EFLEXEnergyMainGridAgentState.t;
  current_reward : Q;
  max_allowed_power : Q;
  startStep : Z;
  currentStep : Z;
  last_power : Q
}.

Definition obs_len : nat := length EFLEXEnergyMainGridAgentState.all + 2.

Definition set_state (a : t) (s : EFLEXEnergyMainGridAgentState.t) (r : Q) : t :=
  mk (p_min a) (p_max a) (p_slope a) s r (max_allowed_power a)
     (startStep a) (currentStep a) (last_power a).

Definition restart (a : t) : t :=
  mk (p_min a) (p_max a) (p_slope a) (current_state a) (current_reward a)
     (max_allowed_power a) (currentStep a) (currentStep a) (last_power a).

Definition _take_action (a : t) (action : T.t) : t :=
  match current_state a with
  | Aborted =>
      let a := restart a in
      match action with
      | T.Clear => a (* pass *)
      | _ => set_state a Aborted 0.0
      end
  | Stopped =>
      let a := restart a in
      match action with
      | T.Abort => set_state a Aborted (-0.1)
      | T.Buy => set_state a Buying 0.01
      | T.Sell => set_state a Selling 0.01
      | _ => set_state a Stopped 0.0
      end
  | Buying =>
      match action with
      | T.Abort => set_state a Aborted (-0.1)
      | T.Stop => set_state a Stopped (-0.01)
      | T.Sell => set_state a Selling 0.0
      | _ => set_state a Buying (-0.01)
      end
  | Selling =>
      match action with
      | T.Abort => set_state a Aborted (-0.1)
      | T.Stop => set_state a Stopped (-0.01)
      | T.Buy => set_state a Buying 0.0
      | _ => set_state a Selling 0.01
      end
  end.

Definition current_power (a : t) : Q :=
  match current_state a with
  | Aborted | Stopped => 0.0
  | Buying => - p_max a
  | Selling => p_max a
  end.

Definition _get_obs (a : t) : option (list Q) :=
  let obs := replicate obs_len 0.0 in
  let obs := <[value (current_state a) := 1.0]> obs in
  x ← py_div (current_power a) (max_allowed_power a);
  Some (<[(obs_len - 1)%nat := x]> obs).

Definition _get_done (a : t) : bool :=
  EFLEXEnergyMainGridAgentState.eqb (current_state a) Aborted.

Definition _get_reward (a : t) : Q := current_reward a.

(** After the observation: [currentStep] advances and [last_power]
    becomes [current_power]. *)
Definition tick (a : t) : t :=
  mk (p_min a) (p_max a) (p_slope a) (current_state a) (current_reward a)
     (max_allowed_power a) (startStep a) (currentStep a + 1) (current_power a).

Definition step (a : t) (action : Z) : option (t * list Q * Q * bool) :=
  act_enum ← T.of_value action;
  let a := _take_action a act_enum in
  let reward := _get_reward a in
  ob ← _get_obs a;
  let episode_over := _get_done a in
  Some (tick a, ob, reward, episode_over).

(** [last_power] is not assigned by [reset]. *)
Definition reset (a : t) : option (t * list Q) :=
  let a := mk (p_min a) (p_max a) (p_slope a) Stopped 0.0 (max_allowed_power a)
              0 0 (last_power a) in
  ob ← _get_obs a; Some (a, ob).

Definition init (p_min p_max p_slope max_allowed_power : Q) : option t :=
  '(a, _) ← reset (mk p_min p_max p_slope Stopped 0.0 max_allowed_power 0 0 0);
  Some (mk p_min p_max p_slope (current_state a) (current_reward a)
           max_allowed_power 0 0 0).

(** Steps in sequence; the reward and the power after each. *)
Fixpoint run (a : t) (actions : list Z) : option (t * list (Q * Q)) :=
  match actions with
  | [] => Some (a, [])
  | action :: actions' =>
      '(a, _, reward, _) ← step a action;
      '(a', trace) ← run a actions';
      Some (a', (reward, current_power a) :: trace)
  end.

End EFLEXEnergyMainGridAgent.

(** ** Devices and the coordinator *)

(** An agent object of one of the classes the configuration can name. *)
Inductive Device :=
  | Producer (k : EFlexAgent.kind) (a : EFlexAgent.t)
  | Storage (a : EFlexEnergyStorageAgent.t)
  | Generator (a : EFLEXEnergyGeneratorAgent.t)
  | MainGrid (a : EFLEXEnergyMainGridAgent.t).

(** The observation layout of a device, read off its class. *)
Definition device_states (d : Device) : nat :=
  match d with
  | Producer _ _ => length EFLEXAgentState.all
  | Storage _ => length EFLEXEnergyStorageAgentState.all
  | Generator _ => length EFLEXEnergyGeneratorAgentState.all
  | MainGrid _ => length EFLEXEnergyMainGridAgentState.all
  end.

(** [current_state.value] *)
Definition device_ordinal (d : Device) : nat :=
  match d with
  | Producer _ a => EFLEXAgentState.value (EFlexAgent.current_state a)
  | Storage a => EFLEXEnergyStorageAgentState.value (EFlexEnergyStorageAgent.current_state a)
  | Generator a => EFLEXEnergyGeneratorAgentState.value (EFLEXEnergyGeneratorAgent.current_state a)
  | MainGrid a => EFLEXEnergyMainGridAgentState.value (EFLEXEnergyMainGridAgent.current_state a)
  end.

Definition device_max_allowed_power (d : Device) : Q :=
  match d with
  | Producer _ a => EFlexAgent.max_allowed_power a
  | Storage a => EFlexEnergyStorageAgent.max_allowed_power a
  | Generator a => EFLEXEnergyGeneratorAgent.max_allowed_power a
  | MainGrid a => EFLEXEnergyMainGridAgent.max_allowed_power a
  end.

Definition device_power (math_exp : Q → option Q) (d : Device) : option Q :=
  match d with
  | Producer k a => EFlexAgent.current_power math_exp k a
  | Storage a => Some (EFlexEnergyStorageAgent.current_power a)
  | Generator a => Some (EFLEXEnergyGeneratorAgent.current_power a)
  | MainGrid a => Some (EFLEXEnergyMainGridAgent.current_power a)
  end.

Definition device_obs (math_exp : Q → option Q) (d : Device) : option (list Q) :=
  match d with
  | Producer k a => EFlexAgent._get_obs math_exp k a
  | Storage a => EFlexEnergyStorageAgent._get_obs a
  | Generator a => EFLEXEnergyGeneratorAgent._get_obs a
  | MainGrid a => EFLEXEnergyMainGridAgent._get_obs a
  end.

(** The main grid in [Selling], the one state whose ordinal is not below
    the number of states. *)
Definition grid_selling (d : Device) : bool :=
  match d with
  | MainGrid a =>
      EFLEXEnergyMainGridAgentState.eqb (EFLEXEnergyMainGridAgent.current_state a)
        EFLEXEnergyMainGridAgentState.Selling
  | _ => false
  end.

(** A production device whose count has reached the cap. *)
Definition device_at_cap (d : Device) : bool :=
  match d with
  | Producer _ a => (MAX_PRODUCTION_STEP <=? EFlexAgent.production_count a)%Z
  | _ => false
  end.

Module Coordinator.
Section WithExp.
Variable math_exp : Q → option Q.

Record t := mk {
  agents : list Device;
  shared_reward : bool;
  max_allowed_power : Q;
  energy_cost_budget : Q;
  current_system_power : Q;
  global_reward : Q;
  current_winner : list nat;
  tou_generator : TOUGenerator.t;
  load_profile : LoadProfile.t
}.

(** [self.n] is assigned [len(self.agents)] by [configure], the only
    place that changes [self.agents]. *)
Definition n (c : t) : nat := length (agents c).

(** What one round of the loop over the agents yields for agent [i]. *)
Record AgentTick := mkTick {
  tick_agent : Device;
  tick_ob : list Q;
  tick_reward : Q;
  tick_done : bool;
  tick_power : Q;
  tick_produced : bool;
  tick_winner : bool
}.

Definition agent_tick (d : Device) (action : Z) : option AgentTick :=
  match d with
  | Producer k a =>
      let last_agent_state := EFLEXAgentState.value (EFlexAgent.current_state a) in
      '(a, _ob, _state_reward, _eo) ← EFlexAgent.step math_exp k a action;
      pw ← EFlexAgent.current_power math_exp k a;
      let produced :=
        Nat.eqb (EFLEXAgentState.value (EFlexAgent.current_state a))
                (EFLEXAgentState.value EFLEXAgentState.Completed)
        && Nat.eqb last_agent_state
                (EFLEXAgentState.value EFLEXAgentState.Execute) in
      let _production_reward := if produced then 1.0 else 0.0 in
      let blended := 0.5 * _state_reward + 0.5 * _production_reward in
      let a := EFlexAgent.set_reward a blended in
      Some (mkTick (Producer k a) _ob blended _eo pw produced
              (MAX_PRODUCTION_STEP <=? EFlexAgent.production_count a)%Z)
  | Storage a =>
      '(a, _ob, _state_reward, _eo) ← EFlexEnergyStorageAgent.step a action;
      Some (mkTick (Storage a) _ob _state_reward _eo
              (EFlexEnergyStorageAgent.current_power a) false false)
  | Generator a =>
      '(a, _ob, _state_reward, _eo) ← EFLEXEnergyGeneratorAgent.step a action;
      Some (mkTick (Generator a) _ob _state_reward _eo
              (EFLEXEnergyGeneratorAgent.current_power a) false false)
  | MainGrid a =>
      '(a, _ob, _state_reward, _eo) ← EFLEXEnergyMainGridAgent.step a action;
      Some (mkTick (MainGrid a) _ob _state_reward _eo
              (EFLEXEnergyMainGridAgent.current_power a) false false)
  end.

(** The lists the loop appends to, the production count and the winners. *)
Record Loop := mkLoop {
  loop_agents : list Device;
  obs_n : list (list Q);
  reward_n : list Q;
  done_n : list bool;
  current_power_n : list Q;
  production : Z;
  winners : list nat
}.

Definition loop_start (current_winner : list nat) : Loop :=
  mkLoop [] [] [] [] [] 0 current_winner.

Definition loop_push (l : Loop) (i : nat) (r : AgentTick) : Loop :=
  mkLoop (loop_agents l ++ [tick_agent r])
         (obs_n l ++ [tick_ob r])
         (reward_n l ++ [tick_reward r])
         (done_n l ++ [tick_done r])
         (current_power_n l ++ [tick_power r])
         (if tick_produced r then production l + 1 else production l)
         (if tick_winner r then winners l ++ [i] else winners l).

(** [for i, agent in enumerate(self.agents)], from index [i] on. *)
Fixpoint agents_loop (i : nat) (rest : list Device) (action : list Z) (l : Loop)
    : option Loop :=
  match rest with
  | [] => Some l
  | d :: rest' =>
      a ← action !! i;
      r ← agent_tick d a;
      agents_loop (S i) rest' action (loop_push l i r)
  end.

(** The per-agent results of the loop, in order. *)
Fixpoint agent_ticks (i : nat) (rest : list Device) (action : list Z)
    : option (list AgentTick) :=
  match rest with
  | [] => Some []
  | d :: rest' =>
      a ← action !! i;
      r ← agent_tick d a;
      rs ← agent_ticks (S i) rest' action;
      Some (r :: rs)
  end.

(** The indices the loop appends to the winners, in order. *)
Fixpoint new_winners (i : nat) (rs : list AgentTick) : list nat :=
  match rs with
  | [] => []
  | r :: rs' => (if tick_winner r then [i] else []) ++ new_winners (S i) rs'
  end.

Fixpoint count_produced (rs : list AgentTick) : Z :=
  match rs with
  | [] => 0
  | r :: rs' => ((if tick_produced r then 1 else 0) + count_produced rs')%Z
  end.

(** The loop's lists after the results [rs] of the agents from index
    [i] on have been appended. *)
Definition loop_extend (l : Loop) (i : nat) (rs : list AgentTick) : Loop :=
  mkLoop (loop_agents l ++ (tick_agent <$> rs))
         (obs_n l ++ (tick_ob <$> rs))
         (reward_n l ++ (tick_reward <$> rs))
         (done_n l ++ (tick_done <$> rs))
         (current_power_n l ++ (tick_power <$> rs))
         (production l + count_produced rs)
         (winners l ++ new_winners i rs).

Record Info := mkInfo {
  info_current_energy_price : Q;
  info_max_load_pofile : Q;
  info_current_system_power : Q;
  info_energy_cost_budget : Q;
  info_production : Z
}.

Record StepResult := mkResult {
  res_obs_n : list (list Q);
  res_reward_n : list Q;
  res_done : bool;
  res_info : Info
}.

(** [reward_n] as it stands when the budget is checked: the agents' own
    rewards, or [[reward] * self.n] in shared mode. *)
Definition rewards_before_budget (c : t) (reward_n : list Q) : list Q :=
  let reward := np_sum reward_n in
  if shared_reward c then replicate (n c) reward else reward_n.

(** [np.sum(np.array(done_n, dtype=np.bool)) > 0] *)
Definition done_before_budget (l : Loop) : bool := existsb (λ b, b) (done_n l).

Definition over_budget (c : t) (l : Loop) (current_energy_price : Q) : bool :=
  Qgtb (np_sum (current_power_n l) * current_energy_price) (energy_cost_budget c).

Definition step (c : t) (action : list Z) : option (t * StepResult) :=
  '(tou, current_energy_price) ← TOUGenerator.step (tou_generator c);
  '(lp, max_load_pofile) ← LoadProfile.step (load_profile c);
  l ← agents_loop 0 (agents c) action (loop_start (current_winner c));
  let reward_n := rewards_before_budget c (reward_n l) in
  let done := done_before_budget l in
  let current_system_power := np_sum (current_power_n l) in
  let over := over_budget c l current_energy_price in
  let reward_n := if over then (λ r, r - 0.5) <$> reward_n else reward_n in
  let done := if over then true else done in
  let global_reward := np_mean reward_n in
  Some (mk (loop_agents l) (shared_reward c) (max_allowed_power c)
           (energy_cost_budget c) current_system_power global_reward
           (winners l) tou lp,
        mkResult (obs_n l) reward_n done
          (mkInfo current_energy_price max_load_pofile current_system_power
                  (energy_cost_budget c) (production l))).

Definition device_reset (d : Device) : option (Device * list Q) :=
  match d with
  | Producer k a => '(a, ob) ← EFlexAgent.reset math_exp k a; Some (Producer k a, ob)
  | Storage a => '(a, ob) ← EFlexEnergyStorageAgent.reset a; Some (Storage a, ob)
  | Generator a => '(a, ob) ← EFLEXEnergyGeneratorAgent.reset a; Some (Generator a, ob)
  | MainGrid a => '(a, ob) ← EFLEXEnergyMainGridAgent.reset a; Some (MainGrid a, ob)
  end.

Fixpoint agents_reset (ds : list Device) : option (list Device * list (list Q)) :=
  match ds with
  | [] => Some ([], [])
  | d :: ds' =>
      '(d, ob) ← device_reset d;
      '(ds', obs) ← agents_reset ds';
      Some (d :: ds', ob :: obs)
  end.

Definition reset (c : t) : option (t * list (list Q)) :=
  '(ds, obs_n) ← agents_reset (agents c);
  Some (mk ds (shared_reward c) (max_allowed_power c) (energy_cost_budget c)
           0.0 0.0 []
           (TOUGenerator.reset (tou_generator c))
           (LoadProfile.reset (load_profile c)),
        obs_n).

(** The invariant of an episode that has not reported done: no winner is
    recorded and no production device is at the cap. *)
Definition no_winner_yet (c : t) : Prop :=
  current_winner c = []
  ∧ ∀ i d, agents c !! i = Some d → device_at_cap d = false.

(** Ticks in sequence, one action vector each; the results are kept in
    order. *)
Fixpoint run (c : t) (actions : list (list Z)) : option (t * list StepResult) :=
  match actions with
  | [] => Some (c, [])
  | action :: actions' =>
      '(c, r) ← step c action;
      '(c, rs) ← run c actions';
      Some (c, r :: rs)
  end.
End WithExp.
End Coordinator.

(** ** Concrete devices and coordinators used in the examples *)

(** A price series with breakpoints 0, 10, 20. *)
Definition price_0_10_20 : TimeSeries :=
  Price (TOUGenerator.mk [0; 10; 20]%Z [1; 2; 3] 0 1).

(** A load-limit series with a tolerance of one half. *)
Definition load_5_10 : TimeSeries :=
  LoadLimit (LoadProfile.mk [5; 10]%Z [100; 200] 0.5 0 (100 * (1 + 0.5))).

(** Any function can stand for [math.exp] in the concrete runs: the
    devices used in them never reach the logistic curve. *)
Definition exp_any : Q → option Q := λ _, Some 1.

(** A fresh constant-power producer. *)
Definition producer_fresh : EFlexAgent.t :=
  EFlexAgent.mk 2 10 1 EFLEXAgentState.Stopped 0.0 100 0 0 0.

(** A storage device that is charging at level 90, one step from full. *)
Definition storage_charging_90 : EFlexEnergyStorageAgent.t :=
  EFlexEnergyStorageAgent.mk 0 100 25 EFLEXEnergyStorageAgentState.Charging 0.0 100 0 3 90.

(** A fresh storage device with [p_min = 0], [p_max = 100], [p_slope = 25]. *)
Definition storage_fresh : EFlexEnergyStorageAgent.t :=
  EFlexEnergyStorageAgent.mk 0 100 25 EFLEXEnergyStorageAgentState.Stopped 0.0 100 0 0 0.

(** A fresh generator with [p_max = 50] and [p_slope = 10]. *)
Definition generator_fresh : EFLEXEnergyGeneratorAgent.t :=
  EFLEXEnergyGeneratorAgent.mk 0 50 10 EFLEXEnergyGeneratorAgentState.Stopped 0.0 100 0 0 0.

(** A fresh main grid with [p_max = 30]. *)
Definition grid_fresh : EFLEXEnergyMainGridAgent.t :=
  EFLEXEnergyMainGridAgent.mk 0 30 0 EFLEXEnergyMainGridAgentState.Stopped 0.0 100 0 0 0.

(** The fresh grid after Sell. *)
Definition grid_selling_30 : EFLEXEnergyMainGridAgent.t :=
  EFLEXEnergyMainGridAgent.mk 0 30 0 EFLEXEnergyMainGridAgentState.Selling 0.01 100 0 1 30.

(** The fresh grid after Abort. *)
Definition grid_aborted : EFLEXEnergyMainGridAgent.t :=
  EFLEXEnergyMainGridAgent.mk 0 30 0 EFLEXEnergyMainGridAgentState.Aborted (-0.1) 100 0 1 0.0.

(** Two grid connections selling 30 each, a budget of 50 and a price of
    1.0. *)
Definition coordinator_over_budget : Coordinator.t :=
  Coordinator.mk [MainGrid grid_selling_30; MainGrid grid_selling_30] false 100 50 0.0 0.0 []
    (TOUGenerator.mk [0%Z] [1.0] 0 1.0)
    (LoadProfile.mk [0%Z] [100] 0 0 (100 * (1 + 0))).

(** Three devices whose own rewards in one tick are 1.0, -0.1 and 0.1: a
    storage unit cleared from Aborted, a grid connection aborted from
    Stopped, a storage unit switched to Charging. *)
Definition coordinator_shared : Coordinator.t :=
  Coordinator.mk
    [Storage (EFlexEnergyStorageAgent.mk 0 100 25 EFLEXEnergyStorageAgentState.Aborted
                (-0.1) 100 0 1 0);
     MainGrid grid_fresh;
     Storage storage_fresh]
    true 100 1000 0.0 0.0 []
    (TOUGenerator.mk [0%Z] [1.0] 0 1.0)
    (LoadProfile.mk [0%Z] [100] 0 0 (100 * (1 + 0))).

(** One constant-power producer under a generous budget. *)
Definition coordinator_one_producer : Coordinator.t :=
  Coordinator.mk [Producer EFlexAgent.PConstant producer_fresh] false 100 1000 0.0 0.0 []
    (TOUGenerator.mk [0%Z] [1.0] 0 1.0)
    (LoadProfile.mk [0%Z] [100] 0 0 (100 * (1 + 0))).

(** Reset, then twenty rounds of Start, SC, SC: the twentieth Execute to
    Completed transition happens at tick 60. *)
Definition production_rounds : list (list Z) :=
  [3%Z] :: concat (replicate 20 [[10%Z]; [0%Z]; [0%Z]]).

(** ** Views of a device shared by all classes *)

(** [_get_done] of the device's class. *)
Definition device_done (d : Device) : bool :=
  match d with
  | Producer _ a => EFlexAgent._get_done a
  | Storage a => EFlexEnergyStorageAgent._get_done a
  | Generator a => EFLEXEnergyGeneratorAgent._get_done a
  | MainGrid a => EFLEXEnergyMainGridAgent._get_done a
  end.

(** The device is Stopped or Aborted. *)
Definition device_off (d : Device) : bool :=
  match d with
  | Producer _ a =>
      match EFlexAgent.current_state a with
      | EFLEXAgentState.Aborted | EFLEXAgentState.Stopped => true
      | _ => false
      end
  | Storage a =>
      match EFlexEnergyStorageAgent.current_state a with
      | EFLEXEnergyStorageAgentState.Aborted | EFLEXEnergyStorageAgentState.Stopped => true
      | _ => false
      end
  | Generator a =>
      match EFLEXEnergyGeneratorAgent.current_state a with
      | EFLEXEnergyGeneratorAgentState.Aborted | EFLEXEnergyGeneratorAgentState.Stopped => true
      | _ => false
      end
  | MainGrid a =>
      match EFLEXEnergyMainGridAgent.current_state a with
      | EFLEXEnergyMainGridAgentState.Aborted | EFLEXEnergyMainGridAgentState.Stopped => true
      | _ => false
      end
  end.

(** The ordinal of the state every [reset] assigns. *)
Definition device_stopped_ordinal (d : Device) : nat :=
  match d with
  | Producer _ _ => EFLEXAgentState.value EFLEXAgentState.Stopped
  | Storage _ => EFLEXEnergyStorageAgentState.value EFLEXEnergyStorageAgentState.Stopped
  | Generator _ => EFLEXEnergyGeneratorAgentState.value EFLEXEnergyGeneratorAgentState.Stopped
  | MainGrid _ => EFLEXEnergyMainGridAgentState.value EFLEXEnergyMainGridAgentState.Stopped
  end.

(** The size of the action alphabet: [len] of the class's transition enum. *)
Definition device_actions (d : Device) : Z :=
  match d with
  | Producer _ _ => Z.of_nat (length EFLEXAgentTransition.all)
  | Storage _ => Z.of_nat (length EFLEXEnergyStorageAgentTransition.all)
  | Generator _ => Z.of_nat (length EFLEXEnergyGeneratorAgentTransition.all)
  | MainGrid _ => Z.of_nat (length EFLEXEnergyMainGridAgentTransition.all)
  end.

(** The class an agent object was built from. *)
Inductive DeviceClass :=
  | EFlexAgentPConstant | EFlexAgentPLinear | EFlexAgentPLogistic
  | StorageClass | GeneratorClass | MainGridClass.

Definition device_class (d : Device) : DeviceClass :=
  match d with
  | Producer EFlexAgent.PConstant _ => EFlexAgentPConstant
  | Producer EFlexAgent.PLinear _ => EFlexAgentPLinear
  | Producer EFlexAgent.PLogistic _ => EFlexAgentPLogistic
  | Storage _ => StorageClass
  | Generator _ => GeneratorClass
  | MainGrid _ => MainGridClass
  end.

(** The values read from the configuration: [p_min], [p_max], [p_slope],
    [max_allowed_power]. *)
Definition device_params (d : Device) : Q * Q * Q * Q :=
  match d with
  | Producer _ a =>
      (EFlexAgent.p_min a, EFlexAgent.p_max a, EFlexAgent.p_slope a,
       EFlexAgent.max_allowed_power a)
  | Storage a =>
      (EFlexEnergyStorageAgent.p_min a, EFlexEnergyStorageAgent.p_max a,
       EFlexEnergyStorageAgent.p_slope a, EFlexEnergyStorageAgent.max_allowed_power a)
  | Generator a =>
      (EFLEXEnergyGeneratorAgent.p_min a, EFLEXEnergyGeneratorAgent.p_max a,
       EFLEXEnergyGeneratorAgent.p_slope a, EFLEXEnergyGeneratorAgent.max_allowed_power a)
  | MainGrid a =>
      (EFLEXEnergyMainGridAgent.p_min a, EFLEXEnergyMainGridAgent.p_max a,
       EFLEXEnergyMainGridAgent.p_slope a, EFLEXEnergyMainGridAgent.max_allowed_power a)
  end.

(** [production_count] where the agent has the attribute, 0 elsewhere. *)
Definition device_production_count (d : Device) : Z :=
  match d with
  | Producer _ a => EFlexAgent.production_count a
  | _ => 0%Z
  end.

Definition total_production (ds : list Device) : Z :=
  foldr (λ d acc, (device_production_count d + acc)%Z) 0%Z ds.

(** Steps of a production device in sequence; the reward of each. *)
Fixpoint producer_run (math_exp : Q → option Q) (k : EFlexAgent.kind)
    (a : EFlexAgent.t) (actions : list Z) : option (EFlexAgent.t * list Q) :=
  match actions with
  | [] => Some (a, [])
  | action :: actions' =>
      '(a, _, reward, _) ← EFlexAgent.step math_exp k a action;
      '(a', rewards) ← producer_run math_exp k a actions';
      Some (a', reward :: rewards)
  end.

(** Steps of a generator in sequence; the reward of each. *)
Fixpoint generator_run (a : EFLEXEnergyGeneratorAgent.t) (actions : list Z)
    : option (EFLEXEnergyGeneratorAgent.t * list Q) :=
  match actions with
  | [] => Some (a, [])
  | action :: actions' =>
      '(a, _, reward, _) ← EFLEXEnergyGeneratorAgent.step a action;
      '(a', rewards) ← generator_run a actions';
      Some (a', reward :: rewards)
  end.

(** A price series whose second breakpoint has no value. *)
Definition price_short_values : TimeSeries :=
  Price (TOUGenerator.mk [0; 10]%Z [1] 0 1).

(** ** Sums of integer powers

    A list of powers that holds Python ints only becomes an int64 array, and
    [np.sum] then adds with wrap-around; the sum [np_sum] above is the one
    of a float array. *)
Definition int64_wrap (z : Z) : Z := ((z + 2 ^ 63) mod 2 ^ 64 - 2 ^ 63)%Z.

Definition np_sum_int64 (l : list Z) : Z :=
  fold_left (λ acc x, int64_wrap (acc + x)) l 0%Z.

(** A number within the range of an int64. *)
Definition in_int64 (x : Q) : Prop :=
  inject_Z (- 2 ^ 63) <= x ∧ x < inject_Z (2 ^ 63).

(** * Theorems *)

(** ** Time-series generators *)

Section ScanFacts.
Variable f : Q → Q.
Variable tick : Z.

(** The scan never fails when every breakpoint has a value. *)
Lemma scan_total (steps : list Z) (values : list Q) (i : nat) (cur : Q) :
  (i + length steps ≤ length values)%nat →
  is_Some (scan f tick steps values i cur).
Proof.
  revert i cur. induction steps as [|limit rest IH]; intros i cur Hlen; simpl.
  - by eexists.
  - destruct (limit <? tick)%Z; [|by eexists].
    simpl in Hlen.
    destruct (lookup_lt_is_Some_2 values i) as [x Hx]; [lia|].
    rewrite Hx. simpl. apply IH. lia.
Qed.

(** What the scan selects: the value of breakpoint [k] when the
    breakpoints up to [k] are all below the tick and breakpoint [k+1] is
    not; the value it started from when the first breakpoint is not below
    the tick. *)
Lemma scan_selects (steps : list Z) (values : list Q) (i : nat) (cur v : Q) :
  scan f tick steps values i cur = Some v →
  (∀ k x,
      (∀ j l, (j ≤ k)%nat → steps !! j = Some l → (l < tick)%Z) →
      (k < length steps)%nat →
      (∀ l, steps !! S k = Some l → (tick ≤ l)%Z) →
      values !! (i + k)%nat = Some x → v = f x)
  ∧ ((∀ l, steps !! 0%nat = Some l → (tick ≤ l)%Z) → v = cur).
Proof.
  revert i cur. induction steps as [|limit rest IH]; intros i cur Hscan; simpl in Hscan.
  - split; [|congruence]. intros k x _ Hk. simpl in Hk. lia.
  - destruct (Z.ltb_spec limit tick) as [Hlt|Hge].
    + destruct (values !! i) as [x0|] eqn:Hx0; [|discriminate]. simpl in Hscan.
      destruct (IH _ _ Hscan) as [IHsel IHkeep]. split.
      * intros [|k] x Hbelow Hk Hnext Hx.
        -- rewrite Nat.add_0_r in Hx. rewrite Hx0 in Hx. injection Hx as <-.
           apply IHkeep. intros l Hl. by apply Hnext.
        -- apply (IHsel k x).
           ++ intros j l Hj Hl. apply (Hbelow (S j) l); [lia|done].
           ++ simpl in Hk. lia.
           ++ intros l Hl. by apply Hnext.
           ++ by replace (S i + k)%nat with (i + S k)%nat by lia.
      * intros Hfirst. specialize (Hfirst limit eq_refl). lia.
    + injection Hscan as <-. split; [|done].
      intros k x Hbelow _ _ _. specialize (Hbelow 0%nat limit). simpl in Hbelow.
      specialize (Hbelow ltac:(lia) eq_refl). lia.
Qed.
End ScanFacts.

(** In an ascending list every earlier breakpoint is at most a later one. *)
Lemma sorted_lookup_le (steps : list Z) (j k : nat) (a b : Z) :
  Sorted Z.le steps → (j ≤ k)%nat →
  steps !! j = Some a → steps !! k = Some b → (a ≤ b)%Z.
Proof.
  intros Hs. apply Sorted_StronglySorted in Hs; [|intros x y z; lia].
  revert j k a b. induction Hs as [|c rest Hrest IH Hall]; intros j k a b Hjk Hj Hk.
  - done.
  - destruct j as [|j], k as [|k]; simpl in *.
    + injection Hj as <-. injection Hk as <-. lia.
    + injection Hj as <-. rewrite Forall_forall in Hall.
      apply Hall. by eapply list_elem_of_lookup_2.
    + lia.
    + eapply (IH j k); [lia|done..].
Qed.

Lemma ts_step_inv (ts ts' : TimeSeries) (v : Q) :
  ts_step ts = Some (ts', v) →
  ts_tick ts' = (ts_tick ts + 1)%Z ∧ ts_value ts' = v ∧
  ts_steps ts' = ts_steps ts ∧ ts_values ts' = ts_values ts ∧
  ∃ f values,
    ts_values ts = f <$> values ∧
    scan f (ts_tick ts + 1) (ts_steps ts) values 0 (ts_value ts) = Some v.
Proof.
  destruct ts as [g|p]; simpl; intros H.
  - unfold TOUGenerator.step in H.
    destruct (scan _ _ _ _ _ _) as [w|] eqn:Hscan; [|discriminate].
    simpl in H. injection H as <- <-. simpl. repeat split; try done.
    exists (λ x, x), (TOUGenerator.values g). by rewrite list_fmap_id.
  - unfold LoadProfile.step in H.
    destruct (scan _ _ _ _ _ _) as [w|] eqn:Hscan; [|discriminate].
    simpl in H. injection H as <- <-. simpl. repeat split; try done.
    by exists (LoadProfile.scaled (LoadProfile.tolerance_factor p)), (LoadProfile.values p).
Qed.

Lemma ts_step_total (ts : TimeSeries) :
  length (ts_values ts) = length (ts_steps ts) →
  ∃ ts' v, ts_step ts = Some (ts', v).
Proof.
  destruct ts as [g|p]; simpl; intros Hlen.
  - unfold TOUGenerator.step.
    destruct (scan_total (λ x, x) (TOUGenerator.current_step g + 1)
                (TOUGenerator.steps g) (TOUGenerator.values g) 0
                (TOUGenerator.current_tou_value g)) as [v Hv]; [lia|].
    rewrite Hv. simpl. by eexists _, _.
  - rewrite length_fmap in Hlen. unfold LoadProfile.step.
    destruct (scan_total (LoadProfile.scaled (LoadProfile.tolerance_factor p))
                (LoadProfile.current_step p + 1)
                (LoadProfile.steps p) (LoadProfile.values p) 0
                (LoadProfile.current_max_load p)) as [v Hv]; [lia|].
    rewrite Hv. simpl. by eexists _, _.
Qed.

Lemma ts_run_total (n : nat) (ts : TimeSeries) :
  length (ts_values ts) = length (ts_steps ts) →
  ∃ ts', ts_run n ts = Some ts' ∧ ts_tick ts' = (ts_tick ts + Z.of_nat n)%Z ∧
         ts_steps ts' = ts_steps ts ∧ ts_values ts' = ts_values ts.
Proof.
  revert ts. induction n as [|n IH]; intros ts Hlen.
  - exists ts. simpl. repeat split; try done. lia.
  - destruct (ts_step_total ts Hlen) as (ts1 & v & Hstep).
    destruct (ts_step_inv _ _ _ Hstep) as (Htick & _ & Hsteps & Hvals & _).
    destruct (IH ts1) as (ts2 & Hrun & Htick2 & Hsteps2 & Hvals2); [congruence|].
    exists ts2. simpl. rewrite Hstep. simpl. repeat split; try congruence. lia.
Qed.

(** C4 (amended). After any number of earlier calls, a call of [step] on a
    generator with ascending breakpoints and one value per breakpoint
    returns, advances the tick counter by exactly one, and leaves as current
    value the value of the last breakpoint strictly below the new tick
    counter (the greatest one, the next breakpoint being at or above the
    tick); when no breakpoint is below the tick the previous value is kept.
    A breakpoint equal to the tick counter does not trigger its value, and
    once the final breakpoint is below the tick its value is the current
    one at every later call. *)
Theorem timeseries_step_selects_last_breakpoint_below (ts : TimeSeries) (n : nat) :
  Sorted Z.le (ts_steps ts) →
  length (ts_values ts) = length (ts_steps ts) →
  ∃ ts1 ts2 v,
    ts_run n ts = Some ts1 ∧ ts_tick ts1 = (ts_tick ts + Z.of_nat n)%Z ∧
    ts_step ts1 = Some (ts2, v) ∧
    ts_tick ts2 = (ts_tick ts1 + 1)%Z ∧ ts_value ts2 = v ∧
    (∀ i l x, ts_steps ts !! i = Some l → ts_values ts !! i = Some x →
        (l < ts_tick ts2)%Z →
        (∀ l', ts_steps ts !! S i = Some l' → (ts_tick ts2 ≤ l')%Z) → v = x) ∧
    ((∀ l, ts_steps ts !! 0%nat = Some l → (ts_tick ts2 ≤ l)%Z) → v = ts_value ts1) ∧
    (∀ i l x, ts_steps ts !! i = Some l → ts_values ts !! i = Some x →
        (l < ts_tick ts2)%Z → ts_steps ts !! S i = Some (ts_tick ts2) → v = x) ∧
    (ts_steps ts !! 0%nat = Some (ts_tick ts2) → v = ts_value ts1) ∧
    (∀ l x, last (ts_steps ts) = Some l → last (ts_values ts) = Some x →
        (l < ts_tick ts2)%Z → v = x).
Proof.
  intros Hsorted Hlen.
  destruct (ts_run_total n ts Hlen) as (ts1 & Hrun & Htick1 & Hsteps1 & Hvals1).
  destruct (ts_step_total ts1) as (ts2 & v & Hstep); [congruence|].
  destruct (ts_step_inv _ _ _ Hstep) as (Htick2 & Hval2 & _ & _ & f & values & Hmap & Hscan).
  rewrite Hsteps1 in Hscan. rewrite Hvals1 in Hmap. rewrite <- Htick2 in Hscan.
  destruct (scan_selects _ _ _ _ _ _ _ Hscan) as [Hsel Hkeep].
  assert (Hmain : ∀ i l x, ts_steps ts !! i = Some l → ts_values ts !! i = Some x →
            (l < ts_tick ts2)%Z →
            (∀ l', ts_steps ts !! S i = Some l' → (ts_tick ts2 ≤ l')%Z) → v = x).
  { intros i l x Hl Hx Hlt Hnext.
    rewrite Hmap, list_lookup_fmap in Hx.
    destruct (values !! i) as [x0|] eqn:Hx0; [|discriminate].
    simpl in Hx. injection Hx as <-.
    apply (Hsel i x0); try done.
    - intros j l' Hj Hl'. pose proof (sorted_lookup_le _ _ _ _ _ Hsorted Hj Hl' Hl). lia.
    - by eapply lookup_lt_Some. }
  exists ts1, ts2, v. repeat split; try done.
  - intros i l x Hl Hx Hlt Htie. apply (Hmain i l x); try done.
    intros l' Hl'. rewrite Htie in Hl'. injection Hl' as <-. lia.
  - intros Htie. apply Hkeep. intros l Hl. rewrite Htie in Hl. injection Hl as <-. lia.
  - intros l x Hl Hx Hlt. rewrite last_lookup in Hl. rewrite last_lookup, Hlen in Hx.
    apply (Hmain _ l x Hl Hx Hlt).
    intros l' Hl'. apply lookup_lt_Some in Hl', Hl. lia.
Qed.

Example price_0_10_20_is_fresh :
  TOUGenerator.init [0; 10; 20]%Z [1; 2; 3] = Some (TOUGenerator.mk [0; 10; 20]%Z [1; 2; 3] 0 1).
Proof. reflexivity. Qed.

Example load_5_10_is_fresh :
  LoadProfile.init [5; 10]%Z [100; 200] 0.5
  = Some (LoadProfile.mk [5; 10]%Z [100; 200] 0.5 0 (100 * (1 + 0.5))).
Proof. reflexivity. Qed.

(** The value at ticks 1, 10, 11, 20, 21 and 30 of the price series. *)
Example price_trace :
  (ts_value <$> ts_run 1 price_0_10_20, ts_value <$> ts_run 10 price_0_10_20,
   ts_value <$> ts_run 11 price_0_10_20, ts_value <$> ts_run 20 price_0_10_20,
   ts_value <$> ts_run 21 price_0_10_20, ts_value <$> ts_run 30 price_0_10_20)
  = (Some 1, Some 1, Some 2, Some 2, Some 3, Some 3).
Proof. reflexivity. Qed.

Lemma timeseries_step_selects_witness :
  ∃ ts1 ts2 v,
    ts_run 10 price_0_10_20 = Some ts1 ∧ ts_tick ts1 = 10%Z ∧
    ts_step ts1 = Some (ts2, v) ∧ ts_tick ts2 = 11%Z ∧ v = 2.
Proof.
  assert (Hs : Sorted Z.le (ts_steps price_0_10_20)).
  { simpl. repeat constructor; lia. }
  assert (Hl : length (ts_values price_0_10_20) = length (ts_steps price_0_10_20)).
  { reflexivity. }
  destruct (timeseries_step_selects_last_breakpoint_below price_0_10_20 10 Hs Hl)
    as (ts1 & ts2 & v & Hrun & Ht1 & Hstep & Ht2 & _ & Hsel & _).
  exists ts1, ts2, v. repeat split; try done.
  - rewrite Ht2, Ht1. reflexivity.
  - apply (Hsel 1%nat 10%Z 2); try reflexivity.
    + rewrite Ht2, Ht1. simpl. lia.
    + intros l' Hl'. rewrite Ht2, Ht1. simpl in *. injection Hl' as <-. lia.
Defined.

(** C4 as the specification words it fails: at tick 1 the first breakpoint
    strictly greater than the tick is 10, whose value is 2, while [step]
    returns 1, the value of breakpoint 0. *)
Lemma timeseries_first_breakpoint_above_counterexample :
  ∃ ts' v,
    ts_step price_0_10_20 = Some (ts', v) ∧ ts_tick ts' = 1%Z ∧
    spec_first_breakpoint_above (ts_tick ts') (ts_steps ts') (ts_values ts') = Some 2 ∧
    v = 1 ∧ ¬ (v == 2).
Proof.
  eexists _, _. split; [reflexivity|]. repeat split. intros H. discriminate H.
Qed.

(** ** Division *)

Lemma py_div_Some (x y : Q) : ¬ y == 0 → py_div x y = Some (x / y).
Proof.
  intros Hy. unfold py_div. destruct (Qeq_bool y 0) eqn:E; [|done].
  apply Qeq_bool_iff in E. contradiction.
Qed.

Lemma py_div_inv (x y z : Q) : py_div x y = Some z → ¬ y == 0 ∧ z = x / y.
Proof.
  unfold py_div. destruct (Qeq_bool y 0) eqn:E; [discriminate|].
  intros [= <-]. split; [|done]. intros Hy. apply Qeq_bool_iff in Hy. congruence.
Qed.

Lemma Qgtb_lt (x y : Q) : Qgtb x y = true ↔ y < x.
Proof.
  unfold Qgtb. rewrite negb_true_iff. split.
  - intros H. apply Qnot_le_lt. intros Hle. apply Qle_bool_iff in Hle. congruence.
  - intros H. destruct (Qle_bool x y) eqn:E; [|done].
    apply Qle_bool_iff in E. exfalso. by apply (Qlt_not_le y x).
Qed.

Lemma Qgtb_le (x y : Q) : Qgtb x y = false ↔ x <= y.
Proof.
  unfold Qgtb. rewrite negb_false_iff. apply Qle_bool_iff.
Qed.

Lemma Qltb_lt (x y : Q) : Qltb x y = true ↔ x < y.
Proof. apply Qgtb_lt. Qed.

Lemma Qltb_le (x y : Q) : Qltb x y = false ↔ y <= x.
Proof. apply Qgtb_le. Qed.

(** ** Production devices *)

Section ProductionFacts.
Import EFLEXAgentState.
Import EFlexAgent.
Variable math_exp : Q → option Q.

Lemma transition_of_value (act : T.t) : T.of_value (T.value act) = Some act.
Proof. by destruct act. Qed.

Lemma take_action_max_allowed_power (a : t) (act : T.t) :
  max_allowed_power (_take_action a act) = max_allowed_power a.
Proof. unfold _take_action. by destruct (current_state a), act. Qed.

Lemma take_action_production_count (a : t) (act : T.t) :
  production_count (_take_action a act)
  = if eqb (current_state a) Execute && Z.eqb (T.value act) (T.value T.SC)
    then (production_count a + 1)%Z else production_count a.
Proof. unfold _take_action. by destruct (current_state a), act. Qed.

(** [step] in terms of the transition function. *)
Lemma production_step_Some (k : kind) (a : t) (action : Z) (act : T.t) (p : Q) :
  T.of_value action = Some act →
  current_power math_exp k (_take_action a act) = Some p →
  ¬ max_allowed_power a == 0 →
  ∃ ob, step math_exp k a action
        = Some (tick (_take_action a act), ob,
                current_reward (_take_action a act),
                _get_done (_take_action a act)).
Proof.
  intros Hact Hp Hmax. unfold step, _get_obs. rewrite Hact. simpl. rewrite Hp. simpl.
  rewrite take_action_max_allowed_power, py_div_Some by done. simpl. by eexists.
Qed.

Lemma production_step_inv (k : kind) (a a' : t) (action : Z) (ob : list Q) (r : Q) (d : bool) :
  step math_exp k a action = Some (a', ob, r, d) →
  ∃ act, T.of_value action = Some act ∧ a' = tick (_take_action a act) ∧
         _get_obs math_exp k (_take_action a act) = Some ob ∧
         r = current_reward (_take_action a act) ∧
         d = _get_done (_take_action a act).
Proof.
  unfold step. destruct (T.of_value action) as [act|]; [|discriminate]. simpl.
  destruct (_get_obs _ _ _) as [ob'|] eqn:Hob; [|discriminate]. simpl.
  intros [= <- <- <- <-]. by exists act.
Qed.

Lemma power_when_off (k : kind) (a : t) :
  current_state a = Aborted ∨ current_state a = Stopped →
  current_power math_exp k a = Some 0.0.
Proof. unfold current_power. by intros [-> | ->]. Qed.
End ProductionFacts.

(** C3 (amended). For a production device in any state other than Aborted
    and LoadChange, Abort moves it to Aborted with reward -0.1; from
    Aborted, Clear moves it to Stopped with reward 1.0 and every other
    action leaves it Aborted.  LoadChange has no entry in the table: there
    every action leaves the device as it is, and no action taken in another
    state enters LoadChange. *)
Theorem production_abort_clear_table
    (math_exp : Q → option Q) (k : EFlexAgent.kind) (a : EFlexAgent.t) :
  ¬ EFlexAgent.max_allowed_power a == 0 →
  (EFlexAgent.current_state a ≠ EFLEXAgentState.Aborted →
   EFlexAgent.current_state a ≠ EFLEXAgentState.LoadChange →
   ∃ a' ob,
     EFlexAgent.step math_exp k a (EFLEXAgentTransition.value EFLEXAgentTransition.Abort)
     = Some (a', ob, -0.1, true)
     ∧ EFlexAgent.current_state a' = EFLEXAgentState.Aborted)
  ∧ (EFlexAgent.current_state a = EFLEXAgentState.Aborted →
     (∃ a' ob d,
        EFlexAgent.step math_exp k a (EFLEXAgentTransition.value EFLEXAgentTransition.Clear)
        = Some (a', ob, 1.0, d)
        ∧ EFlexAgent.current_state a' = EFLEXAgentState.Stopped)
     ∧ (∀ act, act ≠ EFLEXAgentTransition.Clear →
        ∃ a' ob r d,
          EFlexAgent.step math_exp k a (EFLEXAgentTransition.value act)
          = Some (a', ob, r, d)
          ∧ EFlexAgent.current_state a' = EFLEXAgentState.Aborted))
  ∧ (EFlexAgent.current_state a = EFLEXAgentState.LoadChange →
     ∀ act, EFlexAgent._take_action a act = a)
  ∧ (EFlexAgent.current_state a ≠ EFLEXAgentState.LoadChange →
     ∀ act, EFlexAgent.current_state (EFlexAgent._take_action a act)
            ≠ EFLEXAgentState.LoadChange).
Proof.
  intros Hmax. split; [|split; [|split]].
  - intros Hna Hnl.
    assert (Hst : EFlexAgent.current_state (EFlexAgent._take_action a EFLEXAgentTransition.Abort)
                  = EFLEXAgentState.Aborted
                  ∧ EFlexAgent.current_reward (EFlexAgent._take_action a EFLEXAgentTransition.Abort)
                    = -0.1).
    { unfold EFlexAgent._take_action. by destruct (EFlexAgent.current_state a). }
    destruct Hst as [Hst Hrw].
    destruct (production_step_Some math_exp k a _ EFLEXAgentTransition.Abort 0.0
                (transition_of_value _)) as [ob Hstep]; [|done|].
    { apply power_when_off. by left. }
    rewrite Hrw in Hstep. unfold EFlexAgent._get_done in Hstep. rewrite Hst in Hstep.
    simpl in Hstep. by eexists _, ob.
  - intros Hab. split.
    2: { intros act Hact.
      assert (Hst : EFlexAgent.current_state (EFlexAgent._take_action a act)
                    = EFLEXAgentState.Aborted).
      { unfold EFlexAgent._take_action. rewrite Hab. by destruct act. }
      destruct (production_step_Some math_exp k a _ act 0.0
                  (transition_of_value _)) as [ob Hstep]; [|done|].
      { apply power_when_off. by left. }
      by eexists _, ob, _, _. }
    assert (Hst : EFlexAgent.current_state (EFlexAgent._take_action a EFLEXAgentTransition.Clear)
                  = EFLEXAgentState.Stopped
                  ∧ EFlexAgent.current_reward (EFlexAgent._take_action a EFLEXAgentTransition.Clear)
                    = 1.0).
    { unfold EFlexAgent._take_action. by rewrite Hab. }
    destruct Hst as [Hst Hrw].
    destruct (production_step_Some math_exp k a _ EFLEXAgentTransition.Clear 0.0
                (transition_of_value _)) as [ob Hstep]; [|done|].
    { apply power_when_off. by right. }
    rewrite Hrw in Hstep. by eexists _, ob, _.
  - intros Hlc act. unfold EFlexAgent._take_action. by rewrite Hlc.
  - intros Hnl act. unfold EFlexAgent._take_action.
    by destruct (EFlexAgent.current_state a), act.
Qed.

Example producer_fresh_is_init :
  EFlexAgent.init exp_any EFlexAgent.PConstant 2 10 1 100 = Some producer_fresh.
Proof. reflexivity. Qed.

Lemma production_abort_clear_table_witness :
  ∃ a' ob,
    EFlexAgent.step exp_any EFlexAgent.PConstant producer_fresh 1 = Some (a', ob, -0.1, true)
    ∧ EFlexAgent.current_state a' = EFLEXAgentState.Aborted.
Proof.
  assert (Hmax : ¬ EFlexAgent.max_allowed_power producer_fresh == 0) by done.
  destruct (production_abort_clear_table exp_any EFlexAgent.PConstant producer_fresh Hmax)
    as [Habort _].
  apply Habort; discriminate.
Defined.

(** C3 as stated fails on LoadChange: Abort leaves the device in
    LoadChange, with the reward it had. *)
Lemma production_abort_from_LoadChange_counterexample :
  let a := EFlexAgent.mk 2 10 1 EFLEXAgentState.LoadChange 0.0 100 0 0 0 in
  ∃ a' ob,
    EFlexAgent.step exp_any EFlexAgent.PConstant a
      (EFLEXAgentTransition.value EFLEXAgentTransition.Abort)
    = Some (a', ob, 0.0, false)
    ∧ EFlexAgent.current_state a' = EFLEXAgentState.LoadChange
    ∧ EFlexAgent.current_state a' ≠ EFLEXAgentState.Aborted.
Proof.
  eexists _, _. split; [reflexivity|]. split; [reflexivity|discriminate].
Qed.

(** ** Energy storage *)

Section StorageFacts.
Import EFLEXEnergyStorageAgentState.
Import EFlexEnergyStorageAgent.

Lemma storage_transition_of_value (act : T.t) : T.of_value (T.value act) = Some act.
Proof. by destruct act. Qed.

Lemma efficiency_Some (a : t) : ¬ p_max a == 0 → is_Some (efficiency a).
Proof.
  intros Hp. unfold efficiency. rewrite py_div_Some; [by eexists|].
  simpl. intros H. apply Qmult_integral in H. tauto.
Qed.

Lemma storage_take_action_Some (a : t) (act : T.t) :
  ¬ p_max a == 0 → is_Some (_take_action a act).
Proof.
  intros Hp. destruct (efficiency_Some a Hp) as [v Hv].
  unfold _take_action. destruct (current_state a), act; simpl; rewrite ?Hv; by eexists.
Qed.

(** The fields a transition never touches. *)
Lemma storage_take_action_params (a a' : t) (act : T.t) :
  _take_action a act = Some a' →
  p_min a' = p_min a ∧ p_max a' = p_max a ∧ p_slope a' = p_slope a ∧
  max_allowed_power a' = max_allowed_power a.
Proof.
  unfold _take_action, charge, discharge.
  destruct (current_state a), act; simpl;
    try (destruct (efficiency a); simpl); try discriminate;
    intros [= <-]; simpl;
    try (destruct (Qgtb _ _)); try (destruct (Qltb _ _)); done.
Qed.

(** The charging level after a transition, by the state before it. *)
Lemma storage_take_action_level (a a' : t) (act : T.t) :
  _take_action a act = Some a' →
  charging_level a' =
    match current_state a with
    | Charging => charging_level (charge a)
    | Discharging => charging_level (discharge a)
    | _ => charging_level a
    end.
Proof.
  unfold _take_action, charge, discharge.
  destruct (current_state a), act; simpl;
    try (destruct (efficiency a); simpl); try discriminate;
    intros [= <-]; simpl;
    try (destruct (Qgtb _ _)); try (destruct (Qltb _ _)); done.
Qed.

Lemma charge_level_min (a : t) :
  charging_level (charge a) == Qmin (charging_level a + p_slope a) (p_max a).
Proof.
  unfold charge. simpl.
  destruct (Qgtb (charging_level a + p_slope a) (p_max a)) eqn:E; simpl.
  - apply Qgtb_lt in E. symmetry. apply Q.min_r. by apply Qlt_le_weak.
  - apply Qgtb_le in E. symmetry. by apply Q.min_l.
Qed.

Lemma discharge_level_max (a : t) :
  charging_level (discharge a) == Qmax (charging_level a - p_slope a) (p_min a).
Proof.
  unfold discharge. simpl.
  destruct (Qltb (charging_level a - p_slope a) (p_min a)) eqn:E; simpl.
  - apply Qltb_lt in E. symmetry. apply Q.max_r. by apply Qlt_le_weak.
  - apply Qltb_le in E. symmetry. by apply Q.max_l.
Qed.

Lemma storage_step_inv (a a' : t) (action : Z) (ob : list Q) (r : Q) (d : bool) :
  step a action = Some (a', ob, r, d) →
  ∃ act a1, T.of_value action = Some act ∧ _take_action a act = Some a1 ∧
            a' = tick a1 ∧ _get_obs a1 = Some ob ∧
            r = current_reward a1 ∧ d = _get_done a1.
Proof.
  unfold step. destruct (T.of_value action) as [act|]; [|discriminate]. simpl.
  destruct (_take_action a act) as [a1|] eqn:Ha1; [|discriminate]. simpl.
  destruct (_get_obs a1) as [ob'|] eqn:Hob; [|discriminate]. simpl.
  intros [= Ha' Hob' Hr Hd]. subst. by exists act, a1.
Qed.

Lemma storage_step_Some (a a1 : t) (action : Z) (act : T.t) :
  T.of_value action = Some act →
  _take_action a act = Some a1 →
  ¬ max_allowed_power a == 0 →
  ∃ ob, step a action = Some (tick a1, ob, current_reward a1, _get_done a1).
Proof.
  intros Hact Ha1 Hmax. unfold step, _get_obs. rewrite Hact. simpl. rewrite Ha1. simpl.
  destruct (storage_take_action_params _ _ _ Ha1) as (_ & _ & _ & ->).
  rewrite py_div_Some by done. simpl. by eexists.
Qed.
End StorageFacts.

(** C10. A step of the storage device that starts in Charging leaves
    [charging_level] at the smaller of [charging_level + p_slope] and
    [p_max], one that starts in Discharging at the larger of
    [charging_level - p_slope] and [p_min], whatever the action; a step from
    Aborted or Stopped leaves it unchanged.  The step returns for every
    action of the alphabet when [p_max] and [max_allowed_power] are not
    zero. *)
Theorem storage_level_follows_pre_state (a : EFlexEnergyStorageAgent.t) (action : Z) :
  (∀ a' ob r d,
      EFlexEnergyStorageAgent.step a action = Some (a', ob, r, d) →
      match EFlexEnergyStorageAgent.current_state a with
      | EFLEXEnergyStorageAgentState.Charging =>
          EFlexEnergyStorageAgent.charging_level a'
          == Qmin (EFlexEnergyStorageAgent.charging_level a + EFlexEnergyStorageAgent.p_slope a)
                  (EFlexEnergyStorageAgent.p_max a)
      | EFLEXEnergyStorageAgentState.Discharging =>
          EFlexEnergyStorageAgent.charging_level a'
          == Qmax (EFlexEnergyStorageAgent.charging_level a - EFlexEnergyStorageAgent.p_slope a)
                  (EFlexEnergyStorageAgent.p_min a)
      | _ => EFlexEnergyStorageAgent.charging_level a'
             = EFlexEnergyStorageAgent.charging_level a
      end)
  ∧ (is_Some (EFLEXEnergyStorageAgentTransition.of_value action) →
     ¬ EFlexEnergyStorageAgent.p_max a == 0 →
     ¬ EFlexEnergyStorageAgent.max_allowed_power a == 0 →
     is_Some (EFlexEnergyStorageAgent.step a action)).
Proof.
  split.
  - intros a' ob r d Hstep.
    destruct (storage_step_inv _ _ _ _ _ _ Hstep) as (act & a1 & _ & Ha1 & -> & _).
    pose proof (storage_take_action_level _ _ _ Ha1) as Hlevel. simpl.
    destruct (EFlexEnergyStorageAgent.current_state a); rewrite Hlevel; try done.
    + apply charge_level_min.
    + apply discharge_level_max.
  - intros [act Hact] Hp Hmax.
    destruct (storage_take_action_Some a act Hp) as [a1 Ha1].
    destruct (storage_step_Some a a1 action act Hact Ha1 Hmax) as [ob Hstep].
    by eexists.
Qed.

(** Stop leaves Charging, and the level still rises and is clamped. *)
Lemma storage_level_follows_pre_state_witness :
  ∃ a' ob r d,
    EFlexEnergyStorageAgent.step storage_charging_90 4 = Some (a', ob, r, d)
    ∧ EFlexEnergyStorageAgent.current_state a' = EFLEXEnergyStorageAgentState.Stopped
    ∧ EFlexEnergyStorageAgent.charging_level a' == 100.
Proof.
  destruct (storage_level_follows_pre_state storage_charging_90 4) as [Hlevel _].
  eexists _, _, _, _. split; [reflexivity|]. split; [reflexivity|].
  etransitivity; [eapply Hlevel; reflexivity|]. reflexivity.
Defined.

Example storage_fresh_is_init :
  EFlexEnergyStorageAgent.init 0 100 25 100 = Some storage_fresh.
Proof. reflexivity. Qed.

Section StorageCharge.
Import EFLEXEnergyStorageAgentState.
Import EFlexEnergyStorageAgent.

Lemma storage_run_cons (a a1 a' : t) (action : Z) (actions : list Z)
    (ob : list Q) (r : Q) (d : bool) (trace : list (Q * Q)) :
  step a action = Some (a1, ob, r, d) →
  run a1 actions = Some (a', trace) →
  run a (action :: actions) = Some (a', (r, charging_level a1) :: trace).
Proof.
  intros Hstep Hrun. cbn [run]. rewrite Hstep. cbn [mbind option_bind].
  rewrite Hrun. reflexivity.
Qed.

Lemma charge_keeps (a : t) :
  current_state (charge a) = current_state a
  ∧ current_reward (charge a) = current_reward a.
Proof. unfold charge. by destruct (Qgtb _ _). Qed.

(** Charge taken in Stopped: the fixed reward 0.1, the level untouched. *)
Lemma storage_step_charge_stopped (a : t) :
  current_state a = Stopped →
  ¬ max_allowed_power a == 0 →
  ∃ ob, step a 3 = Some (tick (set_state (restart a) Charging 0.1), ob, 0.1, false).
Proof.
  intros Hst Hmax.
  destruct (storage_step_Some a (set_state (restart a) Charging 0.1) 3 T.Charge)
    as [ob Hstep]; try done.
  { unfold _take_action. by rewrite Hst. }
  by exists ob.
Qed.

(** Charge taken in Charging: the quadratic reward at the level before
    the increment, then the increment. *)
Lemma storage_step_charge_charging (a : t) :
  current_state a = Charging →
  ¬ p_max a == 0 →
  ¬ max_allowed_power a == 0 →
  let val := 0.5 * (1 - ((p_max a - charging_level a) ^ 2 / p_max a ^ 2)) in
  ∃ ob, step a 3 = Some (tick (charge (set_state a Charging val)), ob, val, false).
Proof.
  intros Hst Hp Hmax val.
  assert (Heff : efficiency a = Some val).
  { unfold efficiency. rewrite py_div_Some; [done|].
    intros H. apply Qmult_integral in H. tauto. }
  destruct (storage_step_Some a (charge (set_state a Charging val)) 3 T.Charge)
    as [ob Hstep]; try done.
  { unfold _take_action. rewrite Hst, Heff. reflexivity. }
  destruct (charge_keeps (set_state a Charging val)) as [Hs Hr].
  unfold _get_done in Hstep. rewrite Hr, Hs in Hstep. by exists ob.
Qed.
End StorageCharge.

(** C5 (amended). From Stopped with [charging_level = 0], [p_min = 0],
    [p_max = 100], [p_slope = 25], four Charge actions return the rewards
    0.1, 0, 0.21875, 0.375 and leave the charging level at 0, 25, 50, 75:
    the step that switches into Charging has the fixed reward 0.1 and does
    not change the level; the three steps taken in Charging have the
    quadratic reward at the level before the increment (0, 25, 50). *)
Theorem storage_four_charges_from_stopped (a : EFlexEnergyStorageAgent.t) :
  EFlexEnergyStorageAgent.p_min a = 0 →
  EFlexEnergyStorageAgent.p_max a = 100 →
  EFlexEnergyStorageAgent.p_slope a = 25 →
  EFlexEnergyStorageAgent.charging_level a = 0 →
  EFlexEnergyStorageAgent.current_state a = EFLEXEnergyStorageAgentState.Stopped →
  ¬ EFlexEnergyStorageAgent.max_allowed_power a == 0 →
  ∃ a' r1 r2 r3 r4 l1 l2 l3 l4,
    EFlexEnergyStorageAgent.run a [3; 3; 3; 3]%Z
    = Some (a', [(r1, l1); (r2, l2); (r3, l3); (r4, l4)])
    ∧ EFlexEnergyStorageAgent.current_state a' = EFLEXEnergyStorageAgentState.Charging
    ∧ r1 = 0.1 ∧ r2 == 0 ∧ r3 == 0.21875 ∧ r4 == 0.375
    ∧ r2 == 0.5 * (1 - ((100 - 0) ^ 2 / 100 ^ 2))
    ∧ r3 == 0.5 * (1 - ((100 - 25) ^ 2 / 100 ^ 2))
    ∧ r4 == 0.5 * (1 - ((100 - 50) ^ 2 / 100 ^ 2))
    ∧ l1 == 0 ∧ l2 == 25 ∧ l3 == 50 ∧ l4 == 75.
Proof.
  destruct a as [pmin pmax pslope st rw maxp ss cs cl].
  cbn [EFlexEnergyStorageAgent.p_min EFlexEnergyStorageAgent.p_max
       EFlexEnergyStorageAgent.p_slope EFlexEnergyStorageAgent.charging_level
       EFlexEnergyStorageAgent.current_state EFlexEnergyStorageAgent.max_allowed_power].
  intros -> -> -> -> -> Hmax.
  set (a0 := EFlexEnergyStorageAgent.mk 0 100 25 EFLEXEnergyStorageAgentState.Stopped
               rw maxp ss cs 0).
  destruct (storage_step_charge_stopped a0 eq_refl Hmax) as [ob1 Hs1].
  set (a1 := EFlexEnergyStorageAgent.tick _) in Hs1.
  destruct (storage_step_charge_charging a1) as [ob2 Hs2];
    [reflexivity|discriminate|exact Hmax|].
  set (r2 := 0.5 * _) in Hs2.
  set (a2 := EFlexEnergyStorageAgent.tick _) in Hs2.
  destruct (storage_step_charge_charging a2) as [ob3 Hs3];
    [reflexivity|discriminate|exact Hmax|].
  set (r3 := 0.5 * _) in Hs3.
  set (a3 := EFlexEnergyStorageAgent.tick _) in Hs3.
  destruct (storage_step_charge_charging a3) as [ob4 Hs4];
    [reflexivity|discriminate|exact Hmax|].
  set (r4 := 0.5 * _) in Hs4.
  set (a4 := EFlexEnergyStorageAgent.tick _) in Hs4.
  exists a4, 0.1, r2, r3, r4.
  exists (EFlexEnergyStorageAgent.charging_level a1),
         (EFlexEnergyStorageAgent.charging_level a2),
         (EFlexEnergyStorageAgent.charging_level a3),
         (EFlexEnergyStorageAgent.charging_level a4).
  split.
  { eapply storage_run_cons; [exact Hs1|].
    eapply storage_run_cons; [exact Hs2|].
    eapply storage_run_cons; [exact Hs3|].
    eapply storage_run_cons; [exact Hs4|]. reflexivity. }
  split; [reflexivity|]. split; [reflexivity|].
  repeat split; vm_compute; reflexivity.
Qed.

Lemma storage_four_charges_from_stopped_witness :
  ∃ a' r1 r2 r3 r4 l1 l2 l3 l4,
    EFlexEnergyStorageAgent.run storage_fresh [3; 3; 3; 3]%Z
    = Some (a', [(r1, l1); (r2, l2); (r3, l3); (r4, l4)])
    ∧ r1 = 0.1 ∧ r4 == 0.375 ∧ l4 == 75.
Proof.
  destruct (storage_four_charges_from_stopped storage_fresh
              eq_refl eq_refl eq_refl eq_refl eq_refl)
    as (a' & r1 & r2 & r3 & r4 & l1 & l2 & l3 & l4 & Hrun & _ & H1 & _ & _ & H4 & _ & _ & _ & _ & _ & _ & Hl4).
  { discriminate. }
  by exists a', r1, r2, r3, r4, l1, l2, l3, l4.
Defined.

(** C5 as stated fails: after the first Charge the level is 0, not 25, and
    the reward is 0.1, not 0.375; after the fourth the level is 75, not
    100, and the reward is 0.375, not 0.5. *)
Lemma storage_four_charges_counterexample :
  ∃ a' r1 r2 r3 r4 l1 l2 l3 l4,
    EFlexEnergyStorageAgent.run storage_fresh [3; 3; 3; 3]%Z
    = Some (a', [(r1, l1); (r2, l2); (r3, l3); (r4, l4)])
    ∧ ¬ l1 == 25 ∧ ¬ r1 == 0.375 ∧ ¬ l4 == 100 ∧ ¬ r4 == 0.5.
Proof.
  eexists _, _, _, _, _, _, _, _, _. split; [vm_compute; reflexivity|].
  repeat split; intros H; vm_compute in H; discriminate H.
Qed.

(** ** Reset *)

(** A production device that is reset is the freshly constructed device of
    the same parameters. *)
Lemma production_reset_is_fresh
    (math_exp : Q → option Q) (k : EFlexAgent.kind) (a a' : EFlexAgent.t) (ob : list Q) :
  EFlexAgent.reset math_exp k a = Some (a', ob) →
  EFlexAgent.init math_exp k (EFlexAgent.p_min a) (EFlexAgent.p_max a)
    (EFlexAgent.p_slope a) (EFlexAgent.max_allowed_power a) = Some a'.
Proof.
  unfold EFlexAgent.init, EFlexAgent.reset. simpl.
  destruct (EFlexAgent._get_obs _ _ _) as [ob'|]; [|discriminate]. simpl.
  by intros [= <- <-].
Qed.

(** The other three classes leave their accumulator as it was. *)
Lemma storage_reset_level (a a' : EFlexEnergyStorageAgent.t) (ob : list Q) :
  EFlexEnergyStorageAgent.reset a = Some (a', ob) →
  EFlexEnergyStorageAgent.charging_level a' = EFlexEnergyStorageAgent.charging_level a.
Proof.
  unfold EFlexEnergyStorageAgent.reset.
  destruct (EFlexEnergyStorageAgent._get_obs _) as [ob'|]; [|discriminate]. simpl.
  by intros [= <- <-].
Qed.

Lemma generator_reset_last_power (a a' : EFLEXEnergyGeneratorAgent.t) (ob : list Q) :
  EFLEXEnergyGeneratorAgent.reset a = Some (a', ob) →
  EFLEXEnergyGeneratorAgent.last_power a' = EFLEXEnergyGeneratorAgent.last_power a.
Proof.
  unfold EFLEXEnergyGeneratorAgent.reset.
  destruct (EFLEXEnergyGeneratorAgent._get_obs _) as [ob'|]; [|discriminate]. simpl.
  by intros [= <- <-].
Qed.

Lemma grid_reset_last_power (a a' : EFLEXEnergyMainGridAgent.t) (ob : list Q) :
  EFLEXEnergyMainGridAgent.reset a = Some (a', ob) →
  EFLEXEnergyMainGridAgent.last_power a' = EFLEXEnergyMainGridAgent.last_power a.
Proof.
  unfold EFLEXEnergyMainGridAgent.reset.
  destruct (EFLEXEnergyMainGridAgent._get_obs _) as [ob'|]; [|discriminate]. simpl.
  by intros [= <- <-].
Qed.

(** C6, at the failing input. A fresh storage device takes Charge twice and
    is reset: it is Stopped again but its charging level is still 25, not
    the 0 of a fresh device, and the next two Charge actions return the
    rewards 0.1 and 0.21875 where the fresh device returned 0.1 and 0. *)
Theorem storage_reset_keeps_charging_level :
  ∃ a1 r1 r2 l1 l2 a2 ob a3 r3 r4 l3 l4,
    EFlexEnergyStorageAgent.run storage_fresh [3; 3]%Z = Some (a1, [(r1, l1); (r2, l2)])
    ∧ EFlexEnergyStorageAgent.reset a1 = Some (a2, ob)
    ∧ EFlexEnergyStorageAgent.current_state a2 = EFLEXEnergyStorageAgentState.Stopped
    ∧ EFlexEnergyStorageAgent.charging_level a2 == 25
    ∧ ¬ EFlexEnergyStorageAgent.charging_level a2
        == EFlexEnergyStorageAgent.charging_level storage_fresh
    ∧ a2 ≠ storage_fresh
    ∧ EFlexEnergyStorageAgent.run a2 [3; 3]%Z = Some (a3, [(r3, l3); (r4, l4)])
    ∧ r2 == 0 ∧ r4 == 0.21875 ∧ ¬ r4 == r2.
Proof.
  eexists _, _, _, _, _, _, _, _, _, _, _, _.
  split; [reflexivity|]. split; [reflexivity|]. split; [reflexivity|].
  split; [reflexivity|]. split; [intros H; discriminate H|].
  split; [intros H; discriminate H|].
  split; [reflexivity|]. split; [reflexivity|]. split; [reflexivity|].
  intros H; discriminate H.
Qed.

Example generator_fresh_is_init :
  EFLEXEnergyGeneratorAgent.init 0 50 10 100 = Some generator_fresh.
Proof. reflexivity. Qed.

(** A generator that ramps for two steps and is reset keeps its
    [last_power]: the first power it reports in the next episode is that of
    a ramp already under way. *)
Example generator_reset_keeps_last_power :
  ∃ a1 ob1 r1 d1 a2 ob2 r2 d2 a3 ob3,
    EFLEXEnergyGeneratorAgent.step generator_fresh 3 = Some (a1, ob1, r1, d1)
    ∧ EFLEXEnergyGeneratorAgent.step a1 3 = Some (a2, ob2, r2, d2)
    ∧ EFLEXEnergyGeneratorAgent.reset a2 = Some (a3, ob3)
    ∧ EFLEXEnergyGeneratorAgent.last_power a3 == 20
    ∧ EFLEXEnergyGeneratorAgent.last_power generator_fresh == 0.
Proof.
  eexists _, _, _, _, _, _, _, _, _, _. repeat split; reflexivity.
Qed.

(** ** Construction *)

(** A constructor returns only for a nonzero [max_allowed_power] (the
    observation built by its call of [reset] divides by it), and then
    yields the stopped device with zeroed counters. *)
Lemma production_init_inv (math_exp : Q → option Q) (k : EFlexAgent.kind)
    (pmin pmax pslope maxp : Q) (a : EFlexAgent.t) :
  EFlexAgent.init math_exp k pmin pmax pslope maxp = Some a →
  ¬ maxp == 0
  ∧ a = EFlexAgent.mk pmin pmax pslope EFLEXAgentState.Stopped 0.0 maxp 0 0 0.
Proof.
  unfold EFlexAgent.init, EFlexAgent.reset, EFlexAgent._get_obs.
  cbn [EFlexAgent.current_power EFlexAgent.current_state EFlexAgent.max_allowed_power
       mbind option_bind].
  destruct (py_div 0.0 maxp) as [x|] eqn:E; [|discriminate].
  apply py_div_inv in E as [Hmax _]. cbn. by intros [= <-].
Qed.

Lemma storage_init_inv (pmin pmax pslope maxp : Q) (a : EFlexEnergyStorageAgent.t) :
  EFlexEnergyStorageAgent.init pmin pmax pslope maxp = Some a →
  ¬ maxp == 0
  ∧ a = EFlexEnergyStorageAgent.mk pmin pmax pslope
          EFLEXEnergyStorageAgentState.Stopped 0.0 maxp 0 0 0.
Proof.
  unfold EFlexEnergyStorageAgent.init, EFlexEnergyStorageAgent.reset,
    EFlexEnergyStorageAgent._get_obs.
  cbn [EFlexEnergyStorageAgent.current_power EFlexEnergyStorageAgent.current_state
       EFlexEnergyStorageAgent.max_allowed_power].
  destruct (py_div 0.0 maxp) as [x|] eqn:E; [|discriminate].
  apply py_div_inv in E as [Hmax _]. cbn. by intros [= <-].
Qed.

Lemma generator_init_inv (pmin pmax pslope maxp : Q) (a : EFLEXEnergyGeneratorAgent.t) :
  EFLEXEnergyGeneratorAgent.init pmin pmax pslope maxp = Some a →
  ¬ maxp == 0
  ∧ a = EFLEXEnergyGeneratorAgent.mk pmin pmax pslope
          EFLEXEnergyGeneratorAgentState.Stopped 0.0 maxp 0 0 0.
Proof.
  unfold EFLEXEnergyGeneratorAgent.init, EFLEXEnergyGeneratorAgent.reset,
    EFLEXEnergyGeneratorAgent._get_obs.
  cbn [EFLEXEnergyGeneratorAgent.current_power EFLEXEnergyGeneratorAgent.current_state
       EFLEXEnergyGeneratorAgent.max_allowed_power].
  destruct (py_div 0.0 maxp) as [x|] eqn:E; [|discriminate].
  apply py_div_inv in E as [Hmax _]. cbn. by intros [= <-].
Qed.

Lemma grid_init_inv (pmin pmax pslope maxp : Q) (a : EFLEXEnergyMainGridAgent.t) :
  EFLEXEnergyMainGridAgent.init pmin pmax pslope maxp = Some a →
  ¬ maxp == 0
  ∧ a = EFLEXEnergyMainGridAgent.mk pmin pmax pslope
          EFLEXEnergyMainGridAgentState.Stopped 0.0 maxp 0 0 0.
Proof.
  unfold EFLEXEnergyMainGridAgent.init, EFLEXEnergyMainGridAgent.reset,
    EFLEXEnergyMainGridAgent._get_obs.
  cbn [EFLEXEnergyMainGridAgent.current_power EFLEXEnergyMainGridAgent.current_state
       EFLEXEnergyMainGridAgent.max_allowed_power].
  destruct (py_div 0.0 maxp) as [x|] eqn:E; [|discriminate].
  apply py_div_inv in E as [Hmax _]. cbn. by intros [= <-].
Qed.

(** ** Observations *)

(** The vector built by every [_get_obs]: zeros, a one at the ordinal, the
    power fraction in the last slot. *)
Lemma obs_layout (len v : nat) (x : Q) :
  (v < len - 1)%nat →
  let obs := <[(len - 1)%nat := x]> (<[v := 1.0]> (replicate len 0.0)) in
  length obs = len
  ∧ obs !! v = Some 1.0
  ∧ (∀ k, (k < len - 1)%nat → k ≠ v → obs !! k = Some 0.0)
  ∧ obs !! (len - 1)%nat = Some x.
Proof.
  intros Hv obs. unfold obs. repeat split.
  - by rewrite !length_insert, length_replicate.
  - rewrite list_lookup_insert_ne by lia.
    apply list_lookup_insert_eq. rewrite length_replicate. lia.
  - intros k Hk Hkv.
    rewrite !list_lookup_insert_ne by lia.
    apply lookup_replicate_2. lia.
  - apply list_lookup_insert_eq. rewrite length_insert, length_replicate. lia.
Qed.

(** The ordinal is below the number of states except for the main grid in
    Selling, where it equals it. *)
Lemma device_ordinal_range (d : Device) :
  if grid_selling d
  then device_ordinal d = device_states d
  else (device_ordinal d < device_states d)%nat.
Proof.
  destruct d as [k a|a|a|a]; simpl.
  - destruct (EFlexAgent.current_state a); simpl; lia.
  - destruct (EFlexEnergyStorageAgent.current_state a); simpl; lia.
  - destruct (EFLEXEnergyGeneratorAgent.current_state a); simpl; lia.
  - destruct (EFLEXEnergyMainGridAgent.current_state a); simpl; lia.
Qed.

Lemma device_obs_unfold (math_exp : Q → option Q) (d : Device) (p : Q) :
  device_power math_exp d = Some p →
  ¬ device_max_allowed_power d == 0 →
  device_obs math_exp d
  = Some (<[(device_states d + 2 - 1)%nat := p / device_max_allowed_power d]>
            (<[device_ordinal d := 1.0]> (replicate (device_states d + 2) 0.0))).
Proof.
  intros Hp Hmax. destruct d as [k a|a|a|a]; simpl in *.
  - unfold EFlexAgent._get_obs. rewrite Hp. simpl. by rewrite py_div_Some.
  - injection Hp as <-. unfold EFlexEnergyStorageAgent._get_obs. by rewrite py_div_Some.
  - injection Hp as <-. unfold EFLEXEnergyGeneratorAgent._get_obs. by rewrite py_div_Some.
  - injection Hp as <-. unfold EFLEXEnergyMainGridAgent._get_obs. by rewrite py_div_Some.
Qed.

(** C7 (amended). For every device whose power is defined and whose
    [max_allowed_power] is not zero, the observation has length (number of
    states) + 2, holds 1.0 at the index of the state's ordinal and 0.0 at
    every other index but the last, and holds [current_power /
    max_allowed_power] in the last slot.  The second-to-last slot holds 0.0
    except for the main grid in Selling, whose ordinal 4 is that slot: there
    it holds 1.0. *)
Theorem device_observation_layout (math_exp : Q → option Q) (d : Device) (p : Q) :
  device_power math_exp d = Some p →
  ¬ device_max_allowed_power d == 0 →
  ∃ obs,
    device_obs math_exp d = Some obs
    ∧ length obs = (device_states d + 2)%nat
    ∧ obs !! device_ordinal d = Some 1.0
    ∧ (∀ k, (k < device_states d + 1)%nat → k ≠ device_ordinal d → obs !! k = Some 0.0)
    ∧ obs !! (device_states d + 1)%nat = Some (p / device_max_allowed_power d)
    ∧ obs !! device_states d = Some (if grid_selling d then 1.0 else 0.0).
Proof.
  intros Hp Hmax. rewrite (device_obs_unfold math_exp d p Hp Hmax).
  pose proof (device_ordinal_range d) as Hrange.
  assert (Hv : (device_ordinal d < device_states d + 2 - 1)%nat).
  { destruct (grid_selling d); lia. }
  pose proof (obs_layout (device_states d + 2) (device_ordinal d)
                (p / device_max_allowed_power d) Hv) as Hlayout.
  cbv zeta in Hlayout.
  set (obs := <[(device_states d + 2 - 1)%nat := _]> _) in *. clearbody obs.
  destruct Hlayout as (Hlen & Hone & Hzero & Hlast).
  exists obs. split; [reflexivity|].
  split; [done|]. split; [done|].
  split.
  { intros k Hk Hne. apply Hzero; [lia|done]. }
  split.
  { by replace (device_states d + 1)%nat with (device_states d + 2 - 1)%nat by lia. }
  destruct (grid_selling d).
  - by rewrite <- Hrange.
  - apply Hzero; lia.
Qed.

Example grid_fresh_is_init :
  EFLEXEnergyMainGridAgent.init 0 30 0 100 = Some grid_fresh.
Proof. reflexivity. Qed.

(** Sell (action 5) takes the fresh grid to [grid_selling_30]. *)
Example grid_selling_30_reached :
  ∃ ob, EFLEXEnergyMainGridAgent.step grid_fresh 5 = Some (grid_selling_30, ob, 0.01, false).
Proof. eexists. reflexivity. Qed.

Lemma device_observation_layout_witness :
  ∃ obs,
    device_obs exp_any (MainGrid grid_selling_30) = Some obs
    ∧ length obs = 6%nat
    ∧ obs !! 4%nat = Some 1.0
    ∧ obs !! 5%nat = Some (30 / 100).
Proof.
  destruct (device_observation_layout exp_any (MainGrid grid_selling_30) 30)
    as (obs & Hobs & Hlen & Hone & _ & Hlast & _).
  - reflexivity.
  - discriminate.
  - by exists obs.
Defined.

(** C7 as stated fails for the main grid in Selling: the observation has
    six slots and the second-to-last one, index 4, holds 1.0. *)
Lemma grid_selling_observation_counterexample :
  ∃ obs,
    EFLEXEnergyMainGridAgent._get_obs grid_selling_30 = Some obs
    ∧ length obs = 6%nat
    ∧ obs !! (length obs - 2)%nat = Some 1.0
    ∧ ¬ 1.0 == 0.
Proof.
  eexists. split; [reflexivity|]. split; [reflexivity|]. split; [reflexivity|].
  intros H. discriminate H.
Qed.

(** ** Main grid *)

Section GridFacts.
Import EFLEXEnergyMainGridAgentState.
Import EFLEXEnergyMainGridAgent.

Lemma grid_of_value_clear (z : Z) (act : T.t) :
  T.of_value z = Some act → (z = 2%Z ↔ act = T.Clear).
Proof.
  intros H. split.
  - intros ->. simpl in H. congruence.
  - intros ->. unfold T.of_value in H.
    destruct z as [|p|p]; try discriminate.
    do 4 (try destruct p as [p|p|]; try discriminate). done.
Qed.

(** One step of an aborted grid. *)
Lemma grid_step_aborted (a : t) (z : Z) (act : T.t) :
  current_state a = Aborted →
  ¬ max_allowed_power a == 0 →
  T.of_value z = Some act →
  ∃ a' ob r,
    step a z = Some (a', ob, r, true)
    ∧ current_state a' = Aborted
    ∧ current_power a' = 0.0
    ∧ max_allowed_power a' = max_allowed_power a
    ∧ current_reward a' = r
    ∧ r = match act with T.Clear => current_reward a | _ => 0.0 end.
Proof.
  intros Hst Hmax Hact. unfold step. rewrite Hact. simpl.
  assert (Hst' : current_state (_take_action a act) = Aborted).
  { unfold _take_action. rewrite Hst. by destruct act. }
  assert (Hrw : current_reward (_take_action a act)
                = match act with T.Clear => current_reward a | _ => 0.0 end).
  { unfold _take_action. rewrite Hst. by destruct act. }
  assert (Hmp : max_allowed_power (_take_action a act) = max_allowed_power a).
  { unfold _take_action. rewrite Hst. by destruct act. }
  unfold _get_obs, _get_done, _get_reward, current_power. rewrite Hst', Hmp.
  rewrite py_div_Some by done. simpl.
  eexists _, _, _. split; [reflexivity|]. simpl.
  unfold current_power. simpl. rewrite Hst'. by repeat split.
Qed.
End GridFacts.

(** Once the main grid is Aborted it stays Aborted with power 0.0 through
    any run of actions of its alphabet, and every action other than Clear
    returns the reward 0.0. *)
Lemma grid_aborted_run (a : EFLEXEnergyMainGridAgent.t) (actions : list Z) :
  EFLEXEnergyMainGridAgent.current_state a = EFLEXEnergyMainGridAgentState.Aborted →
  ¬ EFLEXEnergyMainGridAgent.max_allowed_power a == 0 →
  Forall (λ z, is_Some (EFLEXEnergyMainGridAgentTransition.of_value z)) actions →
  ∃ a' trace,
    EFLEXEnergyMainGridAgent.run a actions = Some (a', trace)
    ∧ EFLEXEnergyMainGridAgent.current_state a' = EFLEXEnergyMainGridAgentState.Aborted
    ∧ EFLEXEnergyMainGridAgent.current_power a' = 0.0
    ∧ length trace = length actions
    ∧ ∀ i z r p,
        actions !! i = Some z → trace !! i = Some (r, p) →
        p = 0.0 ∧ (z ≠ 2%Z → r = 0.0).
Proof.
  intros Hst Hmax Hvalid. revert a Hst Hmax.
  induction Hvalid as [|z actions [act Hact] Hvalid IH]; intros a Hst Hmax.
  - exists a, []. simpl. repeat split; try done.
    unfold EFLEXEnergyMainGridAgent.current_power. by rewrite Hst.
  - destruct (grid_step_aborted a z act Hst Hmax Hact)
      as (a1 & ob & r1 & Hstep & Hst1 & Hp1 & Hmax1 & Hrw1 & Hr1).
    destruct (IH a1 Hst1) as (a' & trace & Hrun & Hst' & Hp' & Hlen & Htrace).
    { by rewrite Hmax1. }
    exists a', ((r1, EFLEXEnergyMainGridAgent.current_power a1) :: trace).
    split; [simpl; by rewrite Hstep; simpl; rewrite Hrun|].
    split; [done|]. split; [done|]. split; [simpl; by rewrite Hlen|].
    intros [|i] z' r p Hz Ht; simpl in Hz, Ht.
    + assert (z' = z) as -> by congruence.
      assert (r = r1) as -> by congruence.
      assert (p = EFLEXEnergyMainGridAgent.current_power a1) as -> by congruence.
      pose proof (grid_of_value_clear z act Hact) as Hclear.
      split; [done|].
      intros Hne. rewrite Hr1. destruct act; try done. tauto.
    + by apply (Htrace i z' r p).
Qed.

Example grid_aborted_reached :
  ∃ ob, EFLEXEnergyMainGridAgent.step grid_fresh 1 = Some (grid_aborted, ob, -0.1, true).
Proof. eexists. reflexivity. Qed.

(** C8, at the failing input. A fresh main grid takes Abort and then Clear.
    Both steps leave it Aborted with power 0.0, but the Clear step returns
    the reward -0.1 of the Abort before it where the claim says 0.0: the
    Clear branch of Aborted assigns nothing.  Each of the other five
    actions taken in the place of Clear returns 0.0, as the other branch of
    the same test assigns it. *)
Theorem grid_clear_returns_stale_reward :
  ∃ a1 ob1 a2 ob2 r2,
    EFLEXEnergyMainGridAgent.step grid_fresh 1 = Some (a1, ob1, -0.1, true)
    ∧ EFLEXEnergyMainGridAgent.current_state a1 = EFLEXEnergyMainGridAgentState.Aborted
    ∧ EFLEXEnergyMainGridAgent.current_power a1 = 0.0
    ∧ EFLEXEnergyMainGridAgent.step a1 2 = Some (a2, ob2, r2, true)
    ∧ EFLEXEnergyMainGridAgent.current_state a2 = EFLEXEnergyMainGridAgentState.Aborted
    ∧ EFLEXEnergyMainGridAgent.current_power a2 = 0.0
    ∧ r2 = -0.1 ∧ ¬ r2 == 0.0
    ∧ ∀ z, z ∈ [0; 1; 3; 4; 5]%Z →
        ∃ a3 ob3,
          EFLEXEnergyMainGridAgent.step a1 z = Some (a3, ob3, 0.0, true)
          ∧ EFLEXEnergyMainGridAgent.current_state a3
            = EFLEXEnergyMainGridAgentState.Aborted.
Proof.
  eexists _, _, _, _, _. split; [reflexivity|]. split; [reflexivity|].
  split; [reflexivity|]. split; [reflexivity|]. split; [reflexivity|].
  split; [reflexivity|]. split; [reflexivity|].
  split; [intros H; discriminate H|].
  intros z Hz. repeat (apply elem_of_cons in Hz as [-> | Hz]);
    [..|by apply elem_of_nil in Hz]; by eexists _, _.
Qed.

(** ** The coordinator *)

Section CoordinatorFacts.
Import Coordinator.
Variable math_exp : Q → option Q.

Lemma loop_extend_push (l : Loop) (i : nat) (r : AgentTick) (rs : list AgentTick) :
  loop_extend (loop_push l i r) (S i) rs = loop_extend l i (r :: rs).
Proof.
  unfold loop_extend, loop_push. simpl.
  rewrite <- !(assoc_L (++)). simpl. f_equal.
  - destruct (tick_produced r); lia.
  - destruct (tick_winner r); by rewrite <- ?(assoc_L (++)).
Qed.

Lemma loop_extend_nil (l : Loop) (i : nat) : loop_extend l i [] = l.
Proof.
  destruct l. unfold loop_extend. simpl. rewrite !(right_id_L [] (++)).
  f_equal. lia.
Qed.

(** The loop with its accumulators is the list of per-agent results
    appended to what was there. *)
Lemma agents_loop_ticks (i : nat) (ds : list Device) (action : list Z) (l : Loop) :
  agents_loop math_exp i ds action l
  = rs ← agent_ticks math_exp i ds action; Some (loop_extend l i rs).
Proof.
  revert i l. induction ds as [|d ds IH]; intros i l; simpl.
  - by rewrite loop_extend_nil.
  - destruct (action !! i) as [a|]; [|done]. simpl.
    destruct (agent_tick math_exp d a) as [r|]; [|done]. simpl.
    rewrite IH. destruct (agent_ticks math_exp (S i) ds action) as [rs|]; [|done].
    simpl. by rewrite loop_extend_push.
Qed.

Lemma agent_ticks_length (i : nat) (ds : list Device) (action : list Z)
    (rs : list AgentTick) :
  agent_ticks math_exp i ds action = Some rs → length rs = length ds.
Proof.
  revert i rs. induction ds as [|d ds IH]; intros i rs; simpl.
  - by intros [= <-].
  - destruct (action !! i) as [a|]; [|done]. simpl.
    destruct (agent_tick math_exp d a) as [r|]; [|done]. simpl.
    destruct (agent_ticks math_exp (S i) ds action) as [rs'|] eqn:E; [|done].
    simpl. intros [= <-]. simpl. f_equal. by eapply IH.
Qed.

(** Entry [j] of the results is the tick of agent [j] under its own
    action. *)
Lemma agent_ticks_lookup (i : nat) (ds : list Device) (action : list Z)
    (rs : list AgentTick) (j : nat) (r : AgentTick) :
  agent_ticks math_exp i ds action = Some rs → rs !! j = Some r →
  ∃ d a, ds !! j = Some d ∧ action !! (i + j)%nat = Some a
         ∧ agent_tick math_exp d a = Some r.
Proof.
  revert i rs j. induction ds as [|d ds IH]; intros i rs j; simpl.
  - by intros [= <-].
  - destruct (action !! i) as [a|] eqn:Ha; [|done]. simpl.
    destruct (agent_tick math_exp d a) as [r0|] eqn:Hr0; [|done]. simpl.
    destruct (agent_ticks math_exp (S i) ds action) as [rs'|] eqn:E; [|done].
    simpl. intros [= <-]. destruct j as [|j]; simpl.
    + intros [= <-]. exists d, a. by rewrite Nat.add_0_r.
    + intros Hj. destruct (IH _ _ _ E Hj) as (d' & a' & Hd & Haj & Ht).
      exists d', a'. by replace (i + S j)%nat with (S i + j)%nat by lia.
Qed.

(** A tick marks a winner exactly when the agent it leaves behind is a
    production device at the cap, and then the agent also reports done. *)
Lemma agent_tick_winner (d : Device) (a : Z) (r : AgentTick) :
  agent_tick math_exp d a = Some r →
  tick_winner r = device_at_cap (tick_agent r)
  ∧ (tick_winner r = true → tick_done r = true).
Proof.
  destruct d as [k p|s|g|m]; simpl.
  - destruct (EFlexAgent.step math_exp k p a) as [[[[p1 ob] sr] eo]|] eqn:Hstep; [|done].
    simpl. destruct (EFlexAgent.current_power math_exp k p1) as [pw|]; [|done].
    simpl. intros [= <-]. simpl. split; [done|].
    destruct (production_step_inv _ _ _ _ _ _ _ _ Hstep) as (act & _ & -> & _ & _ & ->).
    simpl. unfold EFlexAgent._get_done. intros ->. apply orb_true_r.
  - destruct (EFlexEnergyStorageAgent.step s a) as [[[[s1 ob] sr] eo]|]; [|done].
    simpl. by intros [= <-].
  - destruct (EFLEXEnergyGeneratorAgent.step g a) as [[[[g1 ob] sr] eo]|]; [|done].
    simpl. by intros [= <-].
  - destruct (EFLEXEnergyMainGridAgent.step m a) as [[[[m1 ob] sr] eo]|]; [|done].
    simpl. by intros [= <-].
Qed.
End CoordinatorFacts.

(** [np_sum] is the arithmetic sum. *)
Lemma fold_left_Qplus_acc (l : list Q) (x : Q) :
  fold_left Qplus l x == x + fold_left Qplus l 0.
Proof.
  revert x. induction l as [|y l IH]; intros x; simpl.
  - ring.
  - rewrite (IH (x + y)), (IH (0 + y)). ring.
Qed.

Lemma np_sum_cons (x : Q) (l : list Q) : np_sum (x :: l) == x + np_sum l.
Proof. unfold np_sum. simpl. rewrite fold_left_Qplus_acc. ring. Qed.

Lemma np_sum_foldr (l : list Q) : np_sum l == foldr Qplus 0 l.
Proof.
  induction l as [|x l IH]; [reflexivity|].
  rewrite np_sum_cons. simpl. by rewrite IH.
Qed.

Section CoordinatorStep.
Import Coordinator.
Variable math_exp : Q → option Q.

(** What a tick that returns has computed. *)
Lemma coordinator_step_inv (c c' : t) (action : list Z) (res : StepResult) :
  step math_exp c action = Some (c', res) →
  ∃ tou price lp load rs,
    TOUGenerator.step (tou_generator c) = Some (tou, price)
    ∧ LoadProfile.step (load_profile c) = Some (lp, load)
    ∧ agent_ticks math_exp 0 (agents c) action = Some rs
    ∧ let csp := np_sum (tick_power <$> rs) in
      let over := Qgtb (csp * price) (energy_cost_budget c) in
      let final := if over then (λ r, r - 0.5) <$> Coordinator.rewards_before_budget c (Coordinator.tick_reward <$> rs)
                   else Coordinator.rewards_before_budget c (Coordinator.tick_reward <$> rs) in
      c' = mk (tick_agent <$> rs) (shared_reward c) (max_allowed_power c)
              (energy_cost_budget c) csp (np_mean final)
              (current_winner c ++ new_winners 0 rs) tou lp
      ∧ res = mkResult (tick_ob <$> rs) final
                (if over then true else existsb (λ b, b) (tick_done <$> rs))
                (mkInfo price load csp (energy_cost_budget c) (count_produced rs)).
Proof.
  unfold step.
  destruct (TOUGenerator.step (tou_generator c)) as [[tou price]|]; [|done]. simpl.
  destruct (LoadProfile.step (load_profile c)) as [[lp load]|]; [|done]. simpl.
  rewrite agents_loop_ticks.
  destruct (agent_ticks math_exp 0 (agents c) action) as [rs|]; [|done]. simpl.
  intros [= <- <-]. exists tou, price, lp, load, rs.
  repeat split.
Qed.
(** A tick returns as soon as both generators and every agent's own step
    return. *)
Lemma coordinator_step_Some (c : t) (action : list Z) (tou : TOUGenerator.t)
    (lp : LoadProfile.t) (price load : Q) (rs : list AgentTick) :
  TOUGenerator.step (tou_generator c) = Some (tou, price) →
  LoadProfile.step (load_profile c) = Some (lp, load) →
  agent_ticks math_exp 0 (agents c) action = Some rs →
  is_Some (step math_exp c action).
Proof.
  intros Htou Hlp Hrs. unfold step. rewrite Htou. cbn [mbind option_bind].
  rewrite Hlp. cbn [mbind option_bind]. rewrite agents_loop_ticks, Hrs.
  cbn [mbind option_bind]. by eexists.
Qed.
End CoordinatorStep.



(** C2. In shared mode the reward vector at the budget check holds, in each
    of its [n] slots, the sum of the agents' own rewards of the tick (each
    the result of that agent's tick under its own action), so the returned
    vector holds that sum, less 0.5 on a budget violation; the mean is taken
    only of the returned vector and stored in [global_reward]. *)
Theorem shared_reward_broadcasts_sum
    (math_exp : Q → option Q) (c c' : Coordinator.t) (action : list Z)
    (res : Coordinator.StepResult) :
  Coordinator.shared_reward c = true →
  Coordinator.step math_exp c action = Some (c', res) →
  ∃ rs,
    Coordinator.agent_ticks math_exp 0 (Coordinator.agents c) action = Some rs
    ∧ length rs = Coordinator.n c
    ∧ (∀ i r, rs !! i = Some r →
         ∃ d a, Coordinator.agents c !! i = Some d ∧ action !! i = Some a
                ∧ Coordinator.agent_tick math_exp d a = Some r)
    ∧ Coordinator.rewards_before_budget c (Coordinator.tick_reward <$> rs)
      = replicate (Coordinator.n c) (np_sum (Coordinator.tick_reward <$> rs))
    ∧ np_sum (Coordinator.tick_reward <$> rs)
      == foldr Qplus 0 (Coordinator.tick_reward <$> rs)
    ∧ Coordinator.res_reward_n res
      = replicate (Coordinator.n c)
          (if Qgtb (Coordinator.current_system_power c'
                    * Coordinator.info_current_energy_price (Coordinator.res_info res))
                   (Coordinator.energy_cost_budget c)
           then np_sum (Coordinator.tick_reward <$> rs) - 0.5
           else np_sum (Coordinator.tick_reward <$> rs))
    ∧ Coordinator.global_reward c' = np_mean (Coordinator.res_reward_n res).
Proof.
  intros Hshared Hstep.
  destruct (coordinator_step_inv _ _ _ _ _ Hstep)
    as (tou & price & lp & load & rs & _ & _ & Hrs & Hc' & Hres).
  exists rs. split; [done|]. split; [by eapply agent_ticks_length|].
  split.
  { intros i r Hr. destruct (agent_ticks_lookup _ _ _ _ _ _ _ Hrs Hr) as (d & a & ?).
    by exists d, a. }
  unfold Coordinator.rewards_before_budget in *. rewrite Hshared in *.
  split; [done|]. split; [apply np_sum_foldr|].
  rewrite Hc', Hres. simpl. split; [|done].
  destruct (Qgtb _ _); [by rewrite fmap_replicate|done].
Qed.

Lemma shared_reward_broadcasts_sum_witness :
  ∃ c' res rs,
    Coordinator.step exp_any coordinator_shared [2; 1; 3]%Z = Some (c', res)
    ∧ Coordinator.agent_ticks exp_any 0 (Coordinator.agents coordinator_shared) [2; 1; 3]%Z
      = Some rs
    ∧ Coordinator.tick_reward <$> rs = [1.0; -0.1; 0.1]
    ∧ Forall2 Qeq (Coordinator.res_reward_n res) [1; 1; 1]
    ∧ Coordinator.global_reward c' = np_mean (Coordinator.res_reward_n res)
    ∧ Coordinator.global_reward c' == 1.
Proof.
  eexists _, _, _.
  match goal with |- ?E ∧ _ => assert (Hstep : E) by reflexivity end.
  split; [exact Hstep|].
  destruct (shared_reward_broadcasts_sum exp_any coordinator_shared _ _ _ eq_refl Hstep)
    as (rs & Hrs & _ & _ & _ & _ & _ & Hmean).
  split; [reflexivity|]. split; [reflexivity|].
  split; [repeat constructor|]. split; [exact Hmean|reflexivity].
Defined.

(** ** Winners *)

Section WinnerFacts.
Import Coordinator.
Variable math_exp : Q → option Q.

(** The indices appended by one pass of the loop. *)
Lemma new_winners_elem (s : nat) (rs : list AgentTick) (i : nat) :
  i ∈ new_winners s rs
  ↔ (s ≤ i)%nat ∧ ∃ r, rs !! (i - s)%nat = Some r ∧ tick_winner r = true.
Proof.
  revert s. induction rs as [|r rs IH]; intros s; simpl.
  - split; [by intros ?%elem_of_nil|]. by intros (_ & r & ? & _).
  - rewrite elem_of_app, IH. split.
    + intros [Hhd | (Hle & r' & Hr' & Hw)].
      * destruct (tick_winner r) eqn:Hw; [|by apply elem_of_nil in Hhd].
        apply list_elem_of_singleton in Hhd as ->. split; [lia|].
        exists r. by rewrite Nat.sub_diag.
      * split; [lia|]. exists r'. split; [|done].
        by replace (i - s)%nat with (S (i - S s)) by lia.
    + intros (Hle & r' & Hr' & Hw).
      destruct (decide (i = s)) as [->|Hne].
      * left. rewrite Nat.sub_diag in Hr'. simpl in Hr'. injection Hr' as ->.
        rewrite Hw. by apply list_elem_of_singleton.
      * right. split; [lia|]. exists r'. split; [|done].
        by replace (i - s)%nat with (S (i - S s)) in Hr' by lia.
Qed.

(** One pass appends no index twice. *)
Lemma new_winners_NoDup (s : nat) (rs : list AgentTick) : NoDup (new_winners s rs).
Proof.
  revert s. induction rs as [|r rs IH]; intros s; simpl.
  - constructor.
  - destruct (tick_winner r); simpl; [|apply IH].
    constructor; [|apply IH].
    rewrite new_winners_elem. intros [Hle _]. lia.
Qed.

Lemma agents_reset_below_cap (ds ds' : list Device) (obs : list (list Q)) :
  agents_reset math_exp ds = Some (ds', obs) →
  ∀ i d, ds' !! i = Some d → device_at_cap d = false.
Proof.
  revert ds' obs. induction ds as [|d0 ds IH]; intros ds' obs; simpl.
  - intros [= <- <-] i d Hd. by rewrite lookup_nil in Hd.
  - destruct (device_reset math_exp d0) as [[d1 ob1]|] eqn:Hd1; [|done]. simpl.
    destruct (agents_reset math_exp ds) as [[ds1 obs1]|] eqn:Hds1; [|done]. simpl.
    intros [= <- <-] [|i] d; simpl.
    + intros [= <-]. destruct d0 as [k a|a|a|a]; simpl in Hd1.
      * unfold EFlexAgent.reset in Hd1.
        destruct (EFlexAgent._get_obs _ _ _); [|done]. simpl in Hd1.
        by injection Hd1 as <- <-.
      * destruct (EFlexEnergyStorageAgent.reset a) as [[? ?]|]; [|done].
        simpl in Hd1. by injection Hd1 as <- <-.
      * destruct (EFLEXEnergyGeneratorAgent.reset a) as [[? ?]|]; [|done].
        simpl in Hd1. by injection Hd1 as <- <-.
      * destruct (EFLEXEnergyMainGridAgent.reset a) as [[? ?]|]; [|done].
        simpl in Hd1. by injection Hd1 as <- <-.
    + by eapply IH.
Qed.

Lemma reset_no_winner_yet (c0 c : t) (obs : list (list Q)) :
  reset math_exp c0 = Some (c, obs) → no_winner_yet c.
Proof.
  unfold reset.
  destruct (agents_reset math_exp (agents c0)) as [[ds obs']|] eqn:Hds; [|done].
  simpl. intros [= <- <-]. split; [done|]. simpl.
  by eapply agents_reset_below_cap.
Qed.

(** A tick that does not report done keeps the invariant. *)
Lemma step_not_done_no_winner (c c' : t) (action : list Z) (res : StepResult) :
  step math_exp c action = Some (c', res) →
  res_done res = false →
  no_winner_yet c → no_winner_yet c'.
Proof.
  intros Hstep Hdone [Hw _].
  destruct (coordinator_step_inv _ _ _ _ _ Hstep)
    as (tou & price & lp & load & rs & _ & _ & Hrs & Hc' & Hres).
  rewrite Hres in Hdone. simpl in Hdone.
  destruct (Qgtb _ _); [done|].
  assert (Hnone : ∀ j r, rs !! j = Some r → tick_winner r = false).
  { intros j r Hr.
    destruct (agent_ticks_lookup _ _ _ _ _ _ _ Hrs Hr) as (d & a & _ & _ & Ht).
    destruct (agent_tick_winner _ _ _ _ Ht) as [_ Himp].
    destruct (tick_winner r); [|done].
    assert (Hd : tick_done r = true) by by apply Himp.
    assert (Hex : existsb (λ b, b) (tick_done <$> rs) = true).
    { apply existsb_exists. exists true. split; [|done].
      apply list_elem_of_In. rewrite <- Hd.
      apply list_elem_of_fmap_2. by eapply list_elem_of_lookup_2. }
    congruence. }
  rewrite Hc'. split; simpl.
  - rewrite Hw. simpl.
    destruct (new_winners 0 rs) as [|i l] eqn:Hl; [done|].
    assert (Hi : i ∈ new_winners 0 rs) by (rewrite Hl; left).
    apply new_winners_elem in Hi as (_ & r & Hr & Hwin).
    rewrite (Hnone _ _ Hr) in Hwin. done.
  - intros i d Hd. rewrite list_lookup_fmap in Hd.
    destruct (rs !! i) as [r|] eqn:Hr; [|done]. simpl in Hd. injection Hd as <-.
    destruct (agent_ticks_lookup _ _ _ _ _ _ _ Hrs Hr) as (d & a & _ & _ & Ht).
    destruct (agent_tick_winner _ _ _ _ Ht) as [<- _]. by eapply Hnone.
Qed.

(** A tick started with no winner recorded leaves each index at most
    once, and exactly the indices of the production devices at the cap. *)
Lemma step_winners_from_empty (c c' : t) (action : list Z) (res : StepResult) :
  step math_exp c action = Some (c', res) →
  current_winner c = [] →
  NoDup (current_winner c')
  ∧ ∀ i, i ∈ current_winner c'
         ↔ ∃ d, agents c' !! i = Some d ∧ device_at_cap d = true.
Proof.
  intros Hstep Hw.
  destruct (coordinator_step_inv _ _ _ _ _ Hstep)
    as (tou & price & lp & load & rs & _ & _ & Hrs & Hc' & _).
  rewrite Hc'. simpl. rewrite Hw. simpl. split; [apply new_winners_NoDup|].
  intros i. rewrite new_winners_elem, Nat.sub_0_r. split.
  - intros (_ & r & Hr & Hwin).
    destruct (agent_ticks_lookup _ _ _ _ _ _ _ Hrs Hr) as (d & a & _ & _ & Ht).
    destruct (agent_tick_winner _ _ _ _ Ht) as [Heq _].
    exists (tick_agent r). rewrite list_lookup_fmap, Hr. split; [done|congruence].
  - intros (d & Hd & Hcap). split; [lia|].
    rewrite list_lookup_fmap in Hd.
    destruct (rs !! i) as [r|] eqn:Hr; [|done]. simpl in Hd. injection Hd as <-.
    destruct (agent_ticks_lookup _ _ _ _ _ _ _ Hrs Hr) as (d & a & _ & _ & Ht).
    destruct (agent_tick_winner _ _ _ _ Ht) as [Heq _].
    exists r. split; [done|congruence].
Qed.

(** Every tick appends, in order, the indices of the production devices
    that are at the cap when their turn in the loop ends. *)
Lemma step_appends_winners (c c' : t) (action : list Z) (res : StepResult) :
  step math_exp c action = Some (c', res) →
  ∃ added,
    current_winner c' = current_winner c ++ added
    ∧ NoDup added
    ∧ ∀ i, i ∈ added ↔ ∃ d, agents c' !! i = Some d ∧ device_at_cap d = true.
Proof.
  intros Hstep.
  destruct (coordinator_step_inv _ _ _ _ _ Hstep)
    as (tou & price & lp & load & rs & _ & _ & Hrs & Hc' & _).
  exists (new_winners 0 rs). rewrite Hc'. simpl.
  split; [done|]. split; [apply new_winners_NoDup|].
  intros i. rewrite new_winners_elem, Nat.sub_0_r. split.
  - intros (_ & r & Hr & Hwin).
    destruct (agent_ticks_lookup _ _ _ _ _ _ _ Hrs Hr) as (d & a & _ & _ & Ht).
    destruct (agent_tick_winner _ _ _ _ Ht) as [Heq _].
    exists (tick_agent r). rewrite list_lookup_fmap, Hr. split; [done|congruence].
  - intros (d & Hd & Hcap). split; [lia|].
    rewrite list_lookup_fmap in Hd.
    destruct (rs !! i) as [r|] eqn:Hr; [|done]. simpl in Hd. injection Hd as <-.
    destruct (agent_ticks_lookup _ _ _ _ _ _ _ Hrs Hr) as (d & a & _ & _ & Ht).
    destruct (agent_tick_winner _ _ _ _ Ht) as [Heq _].
    exists r. split; [done|congruence].
Qed.
End WinnerFacts.

Lemma run_length (math_exp : Q → option Q) (c c' : Coordinator.t)
    (actions : list (list Z)) (results : list Coordinator.StepResult) :
  Coordinator.run math_exp c actions = Some (c', results) →
  length results = length actions.
Proof.
  revert c results. induction actions as [|action actions IH]; intros c results; simpl.
  - by intros [= _ <-].
  - destruct (Coordinator.step math_exp c action) as [[c1 r1]|]; [|done]. simpl.
    destruct (Coordinator.run math_exp c1 actions) as [[c2 rs]|] eqn:Hrun; [|done].
    simpl. intros [= <- <-]. simpl. f_equal. by eapply IH.
Qed.

Lemma run_winners_until_done (math_exp : Q → option Q) (c c' : Coordinator.t)
    (actions : list (list Z)) (results : list Coordinator.StepResult) :
  Coordinator.no_winner_yet c →
  Coordinator.run math_exp c actions = Some (c', results) →
  (∀ j r, results !! j = Some r → (S j < length results)%nat →
          Coordinator.res_done r = false) →
  NoDup (Coordinator.current_winner c')
  ∧ ∀ i, i ∈ Coordinator.current_winner c'
         ↔ ∃ d, Coordinator.agents c' !! i = Some d ∧ device_at_cap d = true.
Proof.
  revert c results. induction actions as [|action actions IH]; intros c results Hinv; simpl.
  - intros [= <- <-] _. destruct Hinv as [Hw Hcap]. rewrite Hw.
    split; [constructor|]. intros i. split; [by intros ?%elem_of_nil|].
    intros (d & Hd & Hd'). rewrite (Hcap _ _ Hd) in Hd'. done.
  - destruct (Coordinator.step math_exp c action) as [[c1 r1]|] eqn:Hstep; [|done]. simpl.
    destruct (Coordinator.run math_exp c1 actions) as [[c2 rs]|] eqn:Hrun; [|done].
    simpl. intros [= <- <-] Hdone.
    destruct actions as [|action2 actions].
    + simpl in Hrun. injection Hrun as <- <-.
      eapply step_winners_from_empty; [done|]. by destruct Hinv.
    + pose proof (run_length _ _ _ _ _ Hrun) as Hlen. simpl in Hlen.
      apply (IH c1 rs); [|done|].
      * eapply step_not_done_no_winner; [done| |done].
        apply (Hdone 0%nat r1); [done|]. simpl. lia.
      * intros j r Hr Hj. apply (Hdone (S j) r); [done|]. simpl. lia.
Qed.

(** The premise on the results, as a computation. *)
Lemma all_but_last_not_done (results : list Coordinator.StepResult) :
  forallb (λ r, negb (Coordinator.res_done r)) (removelast results) = true →
  ∀ j r, results !! j = Some r → (S j < length results)%nat →
         Coordinator.res_done r = false.
Proof.
  induction results as [|r0 results IH]; intros Hall j r Hr Hj; simpl in *.
  - lia.
  - destruct results as [|r1 results]; simpl in *; [lia|].
    apply andb_prop in Hall as [H0 Hrest].
    destruct j as [|j]; simpl in Hr.
    + injection Hr as <-. by apply negb_true_iff in H0.
    + apply (IH Hrest j r Hr). lia.
Qed.

(** C9 (amended). In an episode started by [reset] in which no tick before
    the last one reported done, no index occurs more than once in the
    winners, and the winners are exactly the indices of the production
    devices whose [production_count] is at least 20. *)
Theorem winners_distinct_until_done
    (math_exp : Q → option Q) (c0 c c' : Coordinator.t) (obs0 : list (list Q))
    (actions : list (list Z)) (results : list Coordinator.StepResult) :
  Coordinator.reset math_exp c0 = Some (c, obs0) →
  Coordinator.run math_exp c actions = Some (c', results) →
  (∀ j r, results !! j = Some r → (S j < length results)%nat →
          Coordinator.res_done r = false) →
  NoDup (Coordinator.current_winner c')
  ∧ ∀ i, i ∈ Coordinator.current_winner c'
         ↔ ∃ d, Coordinator.agents c' !! i = Some d ∧ device_at_cap d = true.
Proof.
  intros Hreset Hrun Hdone.
  eapply run_winners_until_done; [|done..].
  by eapply reset_no_winner_yet.
Qed.

Lemma winners_distinct_until_done_witness :
  ∃ c obs0 c' results,
    Coordinator.reset exp_any coordinator_one_producer = Some (c, obs0)
    ∧ Coordinator.run exp_any c (take 60 production_rounds) = Some (c', results)
    ∧ Coordinator.current_winner c' = [0%nat]
    ∧ NoDup (Coordinator.current_winner c').
Proof.
  eexists _, _, _, _.
  match goal with |- ?E ∧ _ => assert (Hreset : E) by reflexivity end.
  split; [exact Hreset|].
  match goal with |- ?E ∧ _ => assert (Hrun : E) by (vm_compute; reflexivity) end.
  split; [exact Hrun|].
  split; [reflexivity|].
  eapply (winners_distinct_until_done exp_any _ _ _ _ _ _ Hreset Hrun).
  apply all_but_last_not_done. vm_compute. reflexivity.
Defined.

(** C9 as stated fails: the tick after the one that reached the cap appends
    the index again. *)
Lemma winners_duplicate_counterexample :
  ∃ c obs0 c' results,
    Coordinator.reset exp_any coordinator_one_producer = Some (c, obs0)
    ∧ Coordinator.run exp_any c (take 61 production_rounds) = Some (c', results)
    ∧ Coordinator.current_winner c' = [0%nat; 0%nat]
    ∧ ¬ NoDup (Coordinator.current_winner c').
Proof.
  eexists _, _, _, _.
  split; [reflexivity|].
  match goal with |- ?E ∧ _ => assert (Hrun : E) by (vm_compute; reflexivity) end.
  split; [exact Hrun|].
  split; [reflexivity|].
  intros Hnd. apply NoDup_cons in Hnd as [Hnotin _]. apply Hnotin. left.
Qed.

(** * Further properties *)

(** ** Time-series generators: missing values and the range of the value *)

(** The scan fails when it reaches a breakpoint below the tick whose value
    is missing. *)
Lemma scan_missing_value (f : Q → Q) (tick : Z) (steps : list Z) (values : list Q)
    (i k : nat) (cur : Q) :
  (k < length steps)%nat →
  (∀ j l, (j ≤ k)%nat → steps !! j = Some l → (l < tick)%Z) →
  values !! (i + k)%nat = None →
  scan f tick steps values i cur = None.
Proof.
  revert i k cur. induction steps as [|limit rest IH]; intros i k cur Hk Hbelow Hnone.
  - simpl in Hk. lia.
  - simpl. pose proof (Hbelow 0%nat limit ltac:(lia) eq_refl) as Hlt.
    destruct (Z.ltb_spec limit tick); [|lia].
    destruct (values !! i) as [x|] eqn:Hx; [|done]. simpl.
    destruct k as [|k].
    + rewrite Nat.add_0_r in Hnone. congruence.
    + apply (IH (S i) k).
      * simpl in Hk. lia.
      * intros j l Hj Hl. apply (Hbelow (S j) l); [lia|done].
      * by replace (S i + k)%nat with (i + S k)%nat by lia.
Qed.

(** The scan returns the value it started from or the image of a
    configured value. *)
Lemma scan_value_from (f : Q → Q) (tick : Z) (steps : list Z) (values : list Q)
    (i : nat) (cur v : Q) :
  scan f tick steps values i cur = Some v →
  v = cur ∨ v ∈ f <$> values.
Proof.
  revert i cur. induction steps as [|limit rest IH]; intros i cur; simpl.
  - intros [= <-]. by left.
  - destruct (limit <? tick)%Z; [|intros [= <-]; by left].
    destruct (values !! i) as [x|] eqn:Hx; [|done]. simpl. intros Hscan.
    right. destruct (IH _ _ Hscan) as [-> | Hin]; [|done].
    apply list_elem_of_fmap_2. by eapply list_elem_of_lookup_2.
Qed.

(** The scan fails exactly when it reaches such a breakpoint. *)
Lemma scan_fails_iff (f : Q → Q) (tick : Z) (steps : list Z) (values : list Q)
    (i : nat) (cur : Q) :
  scan f tick steps values i cur = None
  ↔ ∃ k, (k < length steps)%nat ∧ (length values ≤ i + k)%nat
         ∧ ∀ j l, (j ≤ k)%nat → steps !! j = Some l → (l < tick)%Z.
Proof.
  split.
  - revert i cur. induction steps as [|limit rest IH]; intros i cur; simpl; [done|].
    destruct (Z.ltb_spec limit tick) as [Hlt|Hge]; [|done].
    destruct (values !! i) as [x|] eqn:Hx; simpl.
    + intros Hscan. destruct (IH _ _ Hscan) as (k & Hk & Hlen & Hbelow).
      exists (S k). split; [lia|]. split; [lia|].
      intros [|j] l Hj Hl; simpl in Hl.
      * by injection Hl as <-.
      * apply (Hbelow j l); [lia|done].
    + intros _. exists 0%nat. apply lookup_ge_None in Hx.
      split; [lia|]. split; [lia|].
      intros [|j] l Hj Hl; [|lia]. simpl in Hl. by injection Hl as <-.
  - intros (k & Hk & Hlen & Hbelow).
    apply (scan_missing_value f tick steps values i k cur Hk Hbelow).
    apply lookup_ge_None. lia.
Qed.

Lemma ts_step_fails_iff (ts : TimeSeries) :
  ts_step ts = None
  ↔ ∃ i, (length (ts_values ts) ≤ i < length (ts_steps ts))%nat
         ∧ ∀ j l, (j ≤ i)%nat → ts_steps ts !! j = Some l → (l < ts_tick ts + 1)%Z.
Proof.
  transitivity
    (∃ i, (i < length (ts_steps ts))%nat ∧ (length (ts_values ts) ≤ 0 + i)%nat
          ∧ ∀ j l, (j ≤ i)%nat → ts_steps ts !! j = Some l → (l < ts_tick ts + 1)%Z);
    [|split; intros (i & H1 & H2); exists i; (split; [lia|tauto])].
  destruct ts as [g|p]; simpl.
  - unfold TOUGenerator.step. cbv zeta.
    rewrite <- (scan_fails_iff (λ x, x) _ _ _ 0 (TOUGenerator.current_tou_value g)).
    destruct (scan _ _ _ _ _ _); simpl; split; congruence.
  - unfold LoadProfile.step. cbv zeta. rewrite length_fmap.
    rewrite <- (scan_fails_iff (LoadProfile.scaled (LoadProfile.tolerance_factor p))
                  _ _ _ 0 (LoadProfile.current_max_load p)).
    destruct (scan _ _ _ _ _ _); simpl; split; congruence.
Qed.

(** [step] raises IndexError exactly when the new tick counter has passed a
    breakpoint, together with all breakpoints before it, for which the
    value list has no entry.  Until then the shorter value list goes
    unnoticed: as long as every breakpoint without a value is at or above
    the tick counter the calls return, each advancing the tick counter by
    one and leaving the lists as they are. *)
Theorem timeseries_step_raises_without_value (ts : TimeSeries) (n : nat) :
  (ts_step ts = None
   ↔ ∃ i, (length (ts_values ts) ≤ i < length (ts_steps ts))%nat
          ∧ ∀ j l, (j ≤ i)%nat → ts_steps ts !! j = Some l → (l < ts_tick ts + 1)%Z)
  ∧ ((∀ i l, (length (ts_values ts) ≤ i)%nat → ts_steps ts !! i = Some l →
             (ts_tick ts + Z.of_nat n ≤ l)%Z) →
     ∃ ts', ts_run n ts = Some ts'
            ∧ ts_tick ts' = (ts_tick ts + Z.of_nat n)%Z
            ∧ ts_steps ts' = ts_steps ts ∧ ts_values ts' = ts_values ts).
Proof.
  split; [apply ts_step_fails_iff|].
  revert ts. induction n as [|n IH]; intros ts Hlate.
  - exists ts. simpl. repeat split; try done. lia.
  - destruct (ts_step ts) as [[ts1 v]|] eqn:Hstep.
    + destruct (ts_step_inv _ _ _ Hstep) as (Htick & _ & Hsteps & Hvals & _).
      destruct (IH ts1) as (ts2 & Hrun & Htick2 & Hsteps2 & Hvals2).
      { rewrite Htick, Hsteps, Hvals. intros i l Hi Hl.
        specialize (Hlate i l Hi Hl). lia. }
      exists ts2. simpl. rewrite Hstep. simpl.
      repeat split; try congruence. lia.
    + apply ts_step_fails_iff in Hstep as (i & [Hlen Hi] & Hbelow).
      destruct (lookup_lt_is_Some_2 (ts_steps ts) i Hi) as [l Hl].
      specialize (Hlate i l Hlen Hl). specialize (Hbelow i l ltac:(lia) Hl). lia.
Qed.

(** Ten steps go through; the eleventh passes breakpoint 10, which has no
    value. *)
Lemma timeseries_step_raises_without_value_witness :
  ∃ ts, ts_run 10 price_short_values = Some ts ∧ ts_tick ts = 10%Z
        ∧ ts_values ts = ts_values price_short_values
        ∧ ts_step ts = None.
Proof.
  destruct (timeseries_step_raises_without_value price_short_values 10)
    as [_ (ts & Hrun & Htick & Hsteps & Hvals)].
  { intros [|[|[|i]]] l Hi Hl; cbn in Hi, Hl; try lia; try discriminate Hl.
    injection Hl as <-. cbn. lia. }
  exists ts. split; [exact Hrun|]. split; [exact Htick|]. split; [exact Hvals|].
  apply (timeseries_step_raises_without_value ts 0). exists 1%nat.
  rewrite Hvals, Hsteps, Htick. split; [cbn; lia|].
  intros [|[|j]] l Hj Hl; cbn in Hl; try lia; injection Hl as <-; cbn; lia.
Defined.

(** Once the current value is one of the configured values (as it is after
    construction), it is one of them after any number of steps; the
    breakpoints and values are never changed and the tick counter counts the
    calls. *)
Theorem timeseries_value_is_configured (ts ts' : TimeSeries) (n : nat) :
  ts_value ts ∈ ts_values ts →
  ts_run n ts = Some ts' →
  ts_value ts' ∈ ts_values ts'
  ∧ ts_values ts' = ts_values ts ∧ ts_steps ts' = ts_steps ts
  ∧ ts_tick ts' = (ts_tick ts + Z.of_nat n)%Z.
Proof.
  revert ts. induction n as [|n IH]; intros ts Hin; simpl.
  - intros [= <-]. repeat split; try done. lia.
  - destruct (ts_step ts) as [[ts1 v]|] eqn:Hstep; [|done]. simpl. intros Hrun.
    destruct (ts_step_inv _ _ _ Hstep)
      as (Htick & Hval & Hsteps & Hvals & f & values & Hmap & Hscan).
    destruct (IH ts1) as (Hin' & Hvals' & Hsteps' & Htick'); [|done|].
    { rewrite Hval, Hvals. destruct (scan_value_from _ _ _ _ _ _ _ Hscan) as [-> | Hv].
      - done.
      - by rewrite Hmap. }
    repeat split; try congruence. lia.
Qed.

Lemma timeseries_init_value_configured :
  (∀ steps values g, TOUGenerator.init steps values = Some g →
                     ts_value (Price g) ∈ ts_values (Price g))
  ∧ (∀ steps values tol p, LoadProfile.init steps values tol = Some p →
                           ts_value (LoadLimit p) ∈ ts_values (LoadLimit p)).
Proof.
  split.
  - intros steps values g. unfold TOUGenerator.init.
    destruct (values !! 0%nat) as [v0|] eqn:E; [|done]. simpl. intros [= <-]. simpl.
    by eapply list_elem_of_lookup_2.
  - intros steps values tol p. unfold LoadProfile.init.
    destruct (values !! 0%nat) as [v0|] eqn:E; [|done]. simpl. intros [= <-]. simpl.
    apply list_elem_of_fmap_2. by eapply list_elem_of_lookup_2.
Qed.

Lemma timeseries_value_is_configured_witness :
  ∃ ts, ts_run 25 load_5_10 = Some ts
        ∧ ts_value ts ∈ ts_values ts ∧ ts_tick ts = 25%Z.
Proof.
  eexists.
  match goal with |- ?E ∧ _ => assert (Hrun : E) by (vm_compute; reflexivity) end.
  split; [exact Hrun|].
  assert (Hin0 : ts_value load_5_10 ∈ ts_values load_5_10) by (cbn; left).
  destruct (timeseries_value_is_configured load_5_10 _ 25 Hin0 Hrun)
    as (Hin & _ & _ & Ht).
  split; [exact Hin|exact Ht].
Defined.

(** ** Production devices: rewards, the production counter, the ramp *)

Section ProductionMore.
Import EFLEXAgentState.
Import EFlexAgent.
Variable math_exp : Q → option Q.

Lemma take_action_reward_values (a : t) (act : T.t) :
  current_state a ≠ LoadChange →
  let r := current_reward (_take_action a act) in
  r = -0.1 ∨ r = 0.0 ∨ r = 0.1 ∨ r = 0.3 ∨ r = 1.0.
Proof.
  intros Hs. unfold _take_action.
  destruct (current_state a), act; simpl; try done; tauto.
Qed.

Lemma take_action_steps (a : t) (act : T.t) :
  currentStep (_take_action a act) = currentStep a
  ∧ (startStep (_take_action a act) = startStep a
     ∨ startStep (_take_action a act) = currentStep a).
Proof. unfold _take_action. destruct (current_state a), act; simpl; tauto. Qed.

Lemma take_action_params (a : t) (act : T.t) :
  p_min (_take_action a act) = p_min a ∧ p_max (_take_action a act) = p_max a
  ∧ p_slope (_take_action a act) = p_slope a
  ∧ max_allowed_power (_take_action a act) = max_allowed_power a.
Proof. unfold _take_action. by destruct (current_state a), act. Qed.

(** The counter moves exactly on the transition from Execute to
    Completed. *)
Lemma take_action_count (a : t) (act : T.t) :
  production_count (_take_action a act)
  = if eqb (current_state a) Execute
       && eqb (current_state (_take_action a act)) Completed
    then (production_count a + 1)%Z else production_count a.
Proof. unfold _take_action. by destruct (current_state a), act. Qed.

Lemma power_defined (k : kind) (a : t) :
  k ≠ PLogistic → is_Some (current_power math_exp k a).
Proof.
  intros Hk. unfold current_power.
  destruct (current_state a), k; try done; by eexists.
Qed.
End ProductionMore.

(** A step of a production device taken in a state other than LoadChange
    returns one of the five rewards -0.1, 0.0, 0.1, 0.3, 1.0, so a value
    inside the declared reward range from -1.0 to 1.0. *)
Theorem production_step_reward_values
    (math_exp : Q → option Q) (k : EFlexAgent.kind) (a a' : EFlexAgent.t)
    (action : Z) (ob : list Q) (r : Q) (d : bool) :
  EFlexAgent.current_state a ≠ EFLEXAgentState.LoadChange →
  EFlexAgent.step math_exp k a action = Some (a', ob, r, d) →
  (r = -0.1 ∨ r = 0.0 ∨ r = 0.1 ∨ r = 0.3 ∨ r = 1.0)
  ∧ -1.0 < r ∧ r <= 1.0.
Proof.
  intros Hs Hstep.
  destruct (production_step_inv _ _ _ _ _ _ _ _ Hstep) as (act & _ & _ & _ & -> & _).
  pose proof (take_action_reward_values a act Hs) as Hr. simpl in Hr.
  split; [done|].
  destruct Hr as [-> | [-> | [-> | [-> | ->]]]]; split; reflexivity || discriminate.
Qed.

Lemma production_step_reward_values_witness :
  ∃ a' ob r d,
    EFlexAgent.step exp_any EFlexAgent.PConstant producer_fresh 3 = Some (a', ob, r, d)
    ∧ r = 0.1 ∧ -1.0 < r ∧ r <= 1.0.
Proof.
  eexists _, _, _, _.
  match goal with |- ?E ∧ _ => assert (Hstep : E) by reflexivity end.
  split; [exact Hstep|]. split; [reflexivity|].
  eapply (production_step_reward_values exp_any _ producer_fresh _ _ _ _ _ _ Hstep).
  Unshelve. discriminate.
Defined.

(** A step changes [production_count] only by adding one, and does so
    exactly when it takes the device from Execute to Completed; the step
    counter advances by one. *)
Theorem production_count_moves_on_completion
    (math_exp : Q → option Q) (k : EFlexAgent.kind) (a a' : EFlexAgent.t)
    (action : Z) (ob : list Q) (r : Q) (d : bool) :
  EFlexAgent.step math_exp k a action = Some (a', ob, r, d) →
  EFlexAgent.production_count a'
  = (if EFLEXAgentState.eqb (EFlexAgent.current_state a) EFLEXAgentState.Execute
        && EFLEXAgentState.eqb (EFlexAgent.current_state a') EFLEXAgentState.Completed
     then EFlexAgent.production_count a + 1
     else EFlexAgent.production_count a)%Z
  ∧ EFlexAgent.currentStep a' = (EFlexAgent.currentStep a + 1)%Z
  ∧ d = EFLEXAgentState.eqb (EFlexAgent.current_state a') EFLEXAgentState.Aborted
        || (20 <=? EFlexAgent.production_count a')%Z.
Proof.
  intros Hstep.
  destruct (production_step_inv _ _ _ _ _ _ _ _ Hstep) as (act & _ & -> & _ & _ & ->).
  cbn [EFlexAgent.tick EFlexAgent.production_count EFlexAgent.current_state
       EFlexAgent.currentStep].
  destruct (take_action_steps a act) as [-> _].
  split; [apply take_action_count|]. split; reflexivity.
Qed.

Lemma production_count_moves_on_completion_witness :
  ∃ a' ob r d,
    EFlexAgent.step exp_any EFlexAgent.PConstant
      (EFlexAgent.mk 2 10 1 EFLEXAgentState.Execute 1.0 100 1 2 0) 0
    = Some (a', ob, r, d)
    ∧ EFlexAgent.current_state a' = EFLEXAgentState.Completed
    ∧ EFlexAgent.production_count a' = 1%Z.
Proof.
  eexists _, _, _, _.
  match goal with |- ?E ∧ _ => assert (Hstep : E) by (vm_compute; reflexivity) end.
  split; [exact Hstep|]. split; [reflexivity|].
  destruct (production_count_moves_on_completion _ _ _ _ _ _ _ _ Hstep) as (Hc & _).
  exact Hc.
Defined.

Section ProductionCycle.
Import EFLEXAgentState.
Import EFlexAgent.
Variable math_exp : Q → option Q.

Lemma producer_run_app (k : kind) (a : t) (l1 l2 : list Z) :
  producer_run math_exp k a (l1 ++ l2)
  = '(a1, r1) ← producer_run math_exp k a l1;
    '(a2, r2) ← producer_run math_exp k a1 l2;
    Some (a2, r1 ++ r2).
Proof.
  revert a. induction l1 as [|x l1 IH]; intros a; simpl.
  - by destruct (producer_run math_exp k a l2) as [[a2 r2]|].
  - destruct (step math_exp k a x) as [[[[a1 ob] r] d]|]; [|done]. simpl.
    rewrite IH. destruct (producer_run math_exp k a1 l1) as [[a2 r1]|]; [|done].
    simpl. by destruct (producer_run math_exp k a2 l2) as [[a3 r2]|].
Qed.

(** A step of a device whose power is defined, by state and action. *)
Lemma production_step_from (k : kind) (a : t) (act : T.t) :
  k ≠ PLogistic →
  ¬ max_allowed_power a == 0 →
  ∃ ob, step math_exp k a (T.value act)
        = Some (tick (_take_action a act), ob,
                current_reward (_take_action a act),
                _get_done (_take_action a act)).
Proof.
  intros Hk Hmax.
  destruct (power_defined math_exp k (_take_action a act) Hk) as [p Hp].
  eapply production_step_Some; [apply transition_of_value|done..].
Qed.

(** Start, SC, SC from Idle: one product, three rewards of 1.0, Idle
    again. *)
Lemma producer_cycle (k : kind) (a : t) :
  k ≠ PLogistic →
  current_state a = Idle →
  ¬ max_allowed_power a == 0 →
  ∃ a', producer_run math_exp k a [10; 0; 0]%Z = Some (a', [1.0; 1.0; 1.0])
        ∧ current_state a' = Idle
        ∧ production_count a' = (production_count a + 1)%Z
        ∧ max_allowed_power a' = max_allowed_power a
        ∧ currentStep a' = (currentStep a + 3)%Z.
Proof.
  intros Hk Hst Hmax.
  destruct (production_step_from k a T.Start Hk Hmax) as [ob1 H1].
  assert (E1 : _take_action a T.Start = set_state (restart a) Execute 1.0).
  { unfold _take_action. by rewrite Hst. }
  rewrite E1 in H1. set (a1 := tick (set_state (restart a) Execute 1.0)) in *.
  assert (Hmax1 : ¬ max_allowed_power a1 == 0) by done.
  destruct (production_step_from k a1 T.SC Hk Hmax1) as [ob2 H2].
  assert (E2 : _take_action a1 T.SC = count_production (set_state a1 Completed 1.0)).
  { reflexivity. }
  rewrite E2 in H2. set (a2 := tick (count_production (set_state a1 Completed 1.0))) in *.
  assert (Hmax2 : ¬ max_allowed_power a2 == 0) by done.
  destruct (production_step_from k a2 T.SC Hk Hmax2) as [ob3 H3].
  assert (E3 : _take_action a2 T.SC = set_state a2 Idle 1.0) by reflexivity.
  rewrite E3 in H3. set (a3 := tick (set_state a2 Idle 1.0)) in *.
  exists a3. split.
  - cbn [producer_run]. change 10%Z with (T.value T.Start). rewrite H1.
    cbn [mbind option_bind]. change 0%Z with (T.value T.SC). rewrite H2.
    cbn [mbind option_bind]. rewrite H3. reflexivity.
  - cbn. repeat split; try done; lia.
Qed.
End ProductionCycle.

(** From Idle, [n] rounds of Start, SC, SC return [3 n] rewards of 1.0,
    end in Idle and raise [production_count] by [n] (constant and linear
    producers, whose power is always defined). *)
Theorem producer_cycles_count
    (math_exp : Q → option Q) (k : EFlexAgent.kind) (a : EFlexAgent.t) (n : nat) :
  k ≠ EFlexAgent.PLogistic →
  EFlexAgent.current_state a = EFLEXAgentState.Idle →
  ¬ EFlexAgent.max_allowed_power a == 0 →
  ∃ a',
    producer_run math_exp k a (concat (replicate n [10; 0; 0]%Z))
    = Some (a', replicate (3 * n) 1.0)
    ∧ EFlexAgent.current_state a' = EFLEXAgentState.Idle
    ∧ EFlexAgent.production_count a' = (EFlexAgent.production_count a + Z.of_nat n)%Z
    ∧ EFlexAgent.currentStep a' = (EFlexAgent.currentStep a + 3 * Z.of_nat n)%Z.
Proof.
  intros Hk. revert a. induction n as [|n IH]; intros a Hst Hmax.
  - exists a. cbn. repeat split; try done; lia.
  - destruct (producer_cycle math_exp k a Hk Hst Hmax)
      as (a1 & Hrun1 & Hst1 & Hc1 & Hmax1 & Hs1).
    destruct (IH a1 Hst1) as (a' & Hrun & Hst' & Hc & Hs); [by rewrite Hmax1|].
    exists a'. split.
    + change (concat (replicate (S n) [10; 0; 0]%Z))
        with ([10; 0; 0]%Z ++ concat (replicate n [10; 0; 0]%Z)).
      rewrite producer_run_app, Hrun1. cbn [mbind option_bind]. rewrite Hrun.
      cbn [mbind option_bind]. do 2 f_equal.
      replace (3 * S n)%nat with (3 + 3 * n)%nat by lia. reflexivity.
    + repeat split; try done; lia.
Qed.

(** The idle producer reached from a fresh one by Reset. *)
Lemma producer_cycles_count_witness :
  ∃ a',
    producer_run exp_any EFlexAgent.PLinear
      (EFlexAgent.mk 2 10 1 EFLEXAgentState.Idle 0.1 100 0 1 0)
      (concat (replicate 20 [10; 0; 0]%Z))
    = Some (a', replicate 60 1.0)
    ∧ EFlexAgent.production_count a' = 20%Z.
Proof.
  destruct (producer_cycles_count exp_any EFlexAgent.PLinear
              (EFlexAgent.mk 2 10 1 EFLEXAgentState.Idle 0.1 100 0 1 0) 20)
    as (a' & Hrun & _ & Hc & _); [discriminate|reflexivity|discriminate|].
  exists a'. split; [exact Hrun|exact Hc].
Defined.

(** A step leaves the configured parameters alone, advances [currentStep]
    by one and keeps [startStep] at or before [currentStep], so the age of
    a ramp is never negative. *)
Theorem production_step_keeps_ramp_clock
    (math_exp : Q → option Q) (k : EFlexAgent.kind) (a a' : EFlexAgent.t)
    (action : Z) (ob : list Q) (r : Q) (d : bool) :
  (EFlexAgent.startStep a ≤ EFlexAgent.currentStep a)%Z →
  EFlexAgent.step math_exp k a action = Some (a', ob, r, d) →
  (EFlexAgent.startStep a' ≤ EFlexAgent.currentStep a')%Z
  ∧ EFlexAgent.currentStep a' = (EFlexAgent.currentStep a + 1)%Z
  ∧ EFlexAgent.p_min a' = EFlexAgent.p_min a
  ∧ EFlexAgent.p_max a' = EFlexAgent.p_max a
  ∧ EFlexAgent.p_slope a' = EFlexAgent.p_slope a
  ∧ EFlexAgent.max_allowed_power a' = EFlexAgent.max_allowed_power a.
Proof.
  intros Hle Hstep.
  destruct (production_step_inv _ _ _ _ _ _ _ _ Hstep) as (act & _ & -> & _ & _ & _).
  destruct (take_action_steps a act) as [Hc Hs].
  destruct (take_action_params a act) as (H1 & H2 & H3 & H4).
  cbn [EFlexAgent.tick EFlexAgent.startStep EFlexAgent.currentStep EFlexAgent.p_min
       EFlexAgent.p_max EFlexAgent.p_slope EFlexAgent.max_allowed_power].
  repeat split; try done; destruct Hs; lia.
Qed.

Lemma production_step_keeps_ramp_clock_witness :
  ∃ a' ob r d,
    EFlexAgent.step exp_any EFlexAgent.PLinear
      (EFlexAgent.mk 2 10 1 EFLEXAgentState.Execute 1.0 100 1 4 0) 6
    = Some (a', ob, r, d)
    ∧ (EFlexAgent.startStep a' ≤ EFlexAgent.currentStep a')%Z
    ∧ EFlexAgent.currentStep a' = 5%Z.
Proof.
  eexists _, _, _, _.
  match goal with |- ?E ∧ _ => assert (Hstep : E) by (vm_compute; reflexivity) end.
  split; [exact Hstep|].
  assert (Hle0 : (EFlexAgent.startStep
                    (EFlexAgent.mk 2 10 1 EFLEXAgentState.Execute 1.0 100 1 4 0)
                  ≤ EFlexAgent.currentStep
                      (EFlexAgent.mk 2 10 1 EFLEXAgentState.Execute 1.0 100 1 4 0))%Z).
  { cbn. lia. }
  destruct (production_step_keeps_ramp_clock _ _ _ _ _ _ _ _ Hle0 Hstep)
    as (Hle & Hc & _).
  split; [exact Hle|exact Hc].
Defined.

(** With [0 <= p_min <= p_max] the power of a production device never
    exceeds [p_max]; for the constant and linear curves, with a
    non-negative slope and a non-negative ramp age, it is never negative,
    and in Execute and Completed it is at least [p_min]. *)
Theorem production_power_within_limits
    (math_exp : Q → option Q) (k : EFlexAgent.kind) (a : EFlexAgent.t) (p : Q) :
  0 <= EFlexAgent.p_min a →
  EFlexAgent.p_min a <= EFlexAgent.p_max a →
  EFlexAgent.current_power math_exp k a = Some p →
  p <= EFlexAgent.p_max a
  ∧ (k ≠ EFlexAgent.PLogistic →
     0 <= EFlexAgent.p_slope a →
     (EFlexAgent.startStep a ≤ EFlexAgent.currentStep a)%Z →
     0 <= p
     ∧ (EFlexAgent.current_state a = EFLEXAgentState.Execute
        ∨ EFlexAgent.current_state a = EFLEXAgentState.Completed →
        EFlexAgent.p_min a <= p)).
Proof.
  intros Hmin Hmm Hp.
  assert (Hdelta : (EFlexAgent.startStep a ≤ EFlexAgent.currentStep a)%Z →
                   0 <= EFlexAgent.p_slope a →
                   0 <= inject_Z (EFlexAgent.currentStep a - EFlexAgent.startStep a)
                        * EFlexAgent.p_slope a).
  { intros Hle Hs. apply Qmult_le_0_compat; [|done].
    change 0 with (inject_Z 0). rewrite <- Zle_Qle. lia. }
  assert (Hramp : ∀ q,
            Some (if Qgtb q (EFlexAgent.p_max a) then EFlexAgent.p_max a else q) = Some p →
            p <= EFlexAgent.p_max a ∧ (EFlexAgent.p_min a <= q → EFlexAgent.p_min a <= p)).
  { intros q Hq. destruct (Qgtb q (EFlexAgent.p_max a)) eqn:E; injection Hq as <-.
    - split; [lra|intros _; lra].
    - apply Qgtb_le in E. split; [lra|done]. }
  assert (Hactive : EFlexAgent.current_state a = EFLEXAgentState.Execute
                    ∨ EFlexAgent.current_state a = EFLEXAgentState.Completed →
            match k with
            | EFlexAgent.PConstant => Some (EFlexAgent.p_max a)
            | EFlexAgent.PLinear =>
                let c := EFlexAgent.p_min a
                         + inject_Z (EFlexAgent.currentStep a - EFlexAgent.startStep a)
                           * EFlexAgent.p_slope a in
                Some (if Qgtb c (EFlexAgent.p_max a) then EFlexAgent.p_max a else c)
            | EFlexAgent.PLogistic =>
                s ← EFlexAgent.sigmoid math_exp
                      (inject_Z (EFlexAgent.currentStep a - EFlexAgent.startStep a))
                      (EFlexAgent.p_slope a) (EFlexAgent.p_max a);
                Some (if Qgtb (EFlexAgent.p_min a + s) (EFlexAgent.p_max a)
                      then EFlexAgent.p_max a else EFlexAgent.p_min a + s)
            end = Some p →
            p <= EFlexAgent.p_max a
            ∧ (k ≠ EFlexAgent.PLogistic → 0 <= EFlexAgent.p_slope a →
               (EFlexAgent.startStep a ≤ EFlexAgent.currentStep a)%Z →
               0 <= p ∧ EFlexAgent.p_min a <= p)).
  { intros _ Hk. destruct k.
    - injection Hk as <-. split; [lra|]. intros _ _ _. split; lra.
    - cbv zeta in Hk. destruct (Hramp _ Hk) as [Hup Hlow]. split; [done|].
      intros _ Hs Hle. specialize (Hdelta Hle Hs).
      assert (EFlexAgent.p_min a <= p) by (apply Hlow; lra). split; lra.
    - destruct (EFlexAgent.sigmoid _ _ _ _) as [s|]; [|discriminate].
      cbn [mbind option_bind] in Hk. destruct (Hramp _ Hk) as [Hup _].
      split; [done|]. intros Hne. by destruct Hne. }
  unfold EFlexAgent.current_power in Hp.
  destruct (EFlexAgent.current_state a) eqn:Hst.
  all: try (destruct (Hactive ltac:(tauto) Hp) as [Hup Hlow]; split; [done|];
            intros Hk Hs Hle; destruct (Hlow Hk Hs Hle); by split).
  all: injection Hp as <-; split; [lra|];
    intros _ _ _; split; [lra|]; intros [?|?]; congruence.
Qed.

(** A linear producer four ticks into Execute: 2 + 4 * 1 = 6, between
    [p_min = 2] and [p_max = 10]. *)
Lemma production_power_within_limits_witness :
  ∃ p,
    EFlexAgent.current_power exp_any EFlexAgent.PLinear
      (EFlexAgent.mk 2 10 1 EFLEXAgentState.Execute 1.0 100 1 5 0) = Some p
    ∧ p == 6 ∧ p <= 10 ∧ 0 <= p.
Proof.
  eexists.
  match goal with |- ?E ∧ _ => assert (Hp : E) by (vm_compute; reflexivity) end.
  split; [exact Hp|]. split; [reflexivity|].
  assert (H1 : 0 <= EFlexAgent.p_min
                     (EFlexAgent.mk 2 10 1 EFLEXAgentState.Execute 1.0 100 1 5 0))
    by (cbn; lra).
  assert (H2 : EFlexAgent.p_min
                 (EFlexAgent.mk 2 10 1 EFLEXAgentState.Execute 1.0 100 1 5 0)
               <= EFlexAgent.p_max
                    (EFlexAgent.mk 2 10 1 EFLEXAgentState.Execute 1.0 100 1 5 0))
    by (cbn; lra).
  destruct (production_power_within_limits _ _ _ _ H1 H2 Hp) as [Hmax Hlow].
  split; [exact Hmax|].
  destruct Hlow as [Hpos _]; [discriminate|cbn; lra|cbn; lia|exact Hpos].
Defined.

(** From every state but Aborted and LoadChange, Stop takes a production
    device to Stopped with reward 0.0, where it draws no power. *)
Theorem production_stop_table
    (math_exp : Q → option Q) (k : EFlexAgent.kind) (a : EFlexAgent.t) :
  EFlexAgent.current_state a ≠ EFLEXAgentState.Aborted →
  EFlexAgent.current_state a ≠ EFLEXAgentState.LoadChange →
  ¬ EFlexAgent.max_allowed_power a == 0 →
  ∃ a' ob d,
    EFlexAgent.step math_exp k a (EFLEXAgentTransition.value EFLEXAgentTransition.Stop)
    = Some (a', ob, 0.0, d)
    ∧ EFlexAgent.current_state a' = EFLEXAgentState.Stopped
    ∧ EFlexAgent.current_power math_exp k a' = Some 0.0
    ∧ ob !! (EFlexAgent.obs_len - 1)%nat = Some (0.0 / EFlexAgent.max_allowed_power a).
Proof.
  intros Hna Hnl Hmax.
  assert (Hst : EFlexAgent.current_state (EFlexAgent._take_action a EFLEXAgentTransition.Stop)
                = EFLEXAgentState.Stopped
                ∧ EFlexAgent.current_reward (EFlexAgent._take_action a EFLEXAgentTransition.Stop)
                  = 0.0).
  { unfold EFlexAgent._take_action. by destruct (EFlexAgent.current_state a). }
  destruct Hst as [Hst Hrw].
  assert (Hpow : EFlexAgent.current_power math_exp k
                   (EFlexAgent._take_action a EFLEXAgentTransition.Stop) = Some 0.0).
  { apply power_when_off. by right. }
  unfold EFlexAgent.step. rewrite transition_of_value. cbn [mbind option_bind].
  unfold EFlexAgent._get_obs. rewrite Hpow. cbn [mbind option_bind].
  destruct (take_action_params a EFLEXAgentTransition.Stop) as (_ & _ & _ & ->).
  rewrite py_div_Some by done. cbn [mbind option_bind].
  unfold EFlexAgent._get_reward. rewrite Hrw.
  eexists _, _, _. split; [reflexivity|]. split; [done|]. split.
  - apply power_when_off. by right.
  - apply list_lookup_insert_eq. rewrite length_insert, length_replicate.
    unfold EFlexAgent.obs_len. simpl. lia.
Qed.

Lemma production_stop_table_witness :
  ∃ a' ob d,
    EFlexAgent.step exp_any EFlexAgent.PLinear
      (EFlexAgent.mk 2 10 1 EFLEXAgentState.Execute 1.0 100 1 5 0) 4
    = Some (a', ob, 0.0, d)
    ∧ EFlexAgent.current_state a' = EFLEXAgentState.Stopped.
Proof.
  destruct (production_stop_table exp_any EFlexAgent.PLinear
              (EFlexAgent.mk 2 10 1 EFLEXAgentState.Execute 1.0 100 1 5 0))
    as (a' & ob & d & Hstep & Hst & _); [discriminate..|].
  by exists a', ob, d.
Defined.

(** ** Energy storage: the range of the level and of the reward *)

Section StorageRange.
Import EFLEXEnergyStorageAgentState.
Import EFlexEnergyStorageAgent.

Lemma charge_in_range (a : t) :
  p_min a <= p_max a → 0 <= p_slope a →
  p_min a <= charging_level a →
  p_min a <= charging_level (charge a) ∧ charging_level (charge a) <= p_max a.
Proof.
  intros Hmm Hs Hlo. unfold charge. cbn [set_level charging_level p_max].
  destruct (Qgtb _ _) eqn:E; cbn [set_level charging_level].
  - split; lra.
  - apply Qgtb_le in E. split; lra.
Qed.

Lemma discharge_in_range (a : t) :
  p_min a <= p_max a → 0 <= p_slope a →
  charging_level a <= p_max a →
  p_min a <= charging_level (discharge a) ∧ charging_level (discharge a) <= p_max a.
Proof.
  intros Hmm Hs Hhi. unfold discharge. cbn [set_level charging_level p_min].
  destruct (Qltb _ _) eqn:E; cbn [set_level charging_level].
  - split; lra.
  - apply Qltb_le in E. split; lra.
Qed.

Lemma storage_step_in_range (a a' : t) (action : Z) (ob : list Q) (r : Q) (d : bool) :
  p_min a <= p_max a → 0 <= p_slope a →
  p_min a <= charging_level a → charging_level a <= p_max a →
  step a action = Some (a', ob, r, d) →
  p_min a' = p_min a ∧ p_max a' = p_max a ∧ p_slope a' = p_slope a
  ∧ p_min a <= charging_level a' ∧ charging_level a' <= p_max a.
Proof.
  intros Hmm Hs Hlo Hhi Hstep.
  destruct (storage_step_inv _ _ _ _ _ _ Hstep) as (act & a1 & _ & Ha1 & -> & _).
  destruct (storage_take_action_params _ _ _ Ha1) as (H1 & H2 & H3 & _).
  pose proof (storage_take_action_level _ _ _ Ha1) as Hlevel.
  cbn [tick p_min p_max p_slope charging_level]. rewrite Hlevel.
  split; [done|]. split; [done|]. split; [done|].
  destruct (current_state a).
  - done.
  - done.
  - by apply charge_in_range.
  - by apply discharge_in_range.
Qed.

(** The quadratic reward lies between 0 and 0.5 while the level lies
    between 0 and a positive [p_max]. *)
Lemma efficiency_range (a : t) (val : Q) :
  0 < p_max a → 0 <= charging_level a → charging_level a <= p_max a →
  efficiency a = Some val →
  0 <= val ∧ val <= 0.5
  ∧ val == 0.5 * (1 - ((p_max a - charging_level a) ^ 2 / p_max a ^ 2)).
Proof.
  intros Hp Hlo Hhi. unfold efficiency.
  destruct (py_div _ _) as [q|] eqn:E; [|discriminate].
  apply py_div_inv in E as [_ ->]. cbn [mbind option_bind]. intros [= <-].
  set (x := (p_max a - charging_level a) ^ 2).
  set (y := p_max a ^ 2).
  assert (Hy : 0 < y) by (unfold y; simpl; nra).
  assert (Hx0 : 0 <= x) by (unfold x; simpl; nra).
  assert (Hxy : x <= y) by (unfold x, y; simpl; nra).
  assert (H0 : 0 <= x / y).
  { apply Qle_shift_div_l; [done|]. lra. }
  assert (H1 : x / y <= 1).
  { apply Qle_shift_div_r; [done|]. lra. }
  set (z := x / y) in *.
  change (0 <= 0.5 * (1 - z) ∧ 0.5 * (1 - z) <= 0.5 ∧ 0.5 * (1 - z) == 0.5 * (1 - z)).
  clearbody z. split; [lra|]. split; [lra|reflexivity].
Qed.

Lemma discharge_keeps (a : t) :
  current_state (discharge a) = current_state a
  ∧ current_reward (discharge a) = current_reward a.
Proof. unfold discharge. by destruct (Qltb _ _). Qed.

(** The reward and the state after a transition: a constant of the table,
    or the quadratic reward when the device stays in, or switches between,
    Charging and Discharging. *)
Lemma storage_take_action_reward (a a1 : t) (act : T.t) :
  _take_action a act = Some a1 →
  (current_reward a1 = -0.1 ∨ current_reward a1 = 0.0 ∨ current_reward a1 = 0.1
   ∨ current_reward a1 = 1.0
   ∨ efficiency a = Some (current_reward a1))
  ∧ ((current_state a = Charging ∨ current_state a = Discharging) →
     (current_state a1 = Charging ∨ current_state a1 = Discharging) →
     efficiency a = Some (current_reward a1)).
Proof.
  unfold _take_action.
  destruct (current_state a) eqn:Hst, act; cbn [mbind option_bind];
    try (destruct (efficiency a) as [val|] eqn:Heff; cbn [mbind option_bind]);
    try discriminate; intros [= <-];
    try (destruct (charge_keeps (set_state a Charging val)) as [-> ->]);
    try (destruct (charge_keeps (set_state a Discharging val)) as [-> ->]);
    try (destruct (discharge_keeps (set_state a Charging val)) as [-> ->]);
    try (destruct (discharge_keeps (set_state a Discharging val)) as [-> ->]);
    try (destruct (charge_keeps (set_state a Aborted (-0.1))) as [-> ->]);
    try (destruct (charge_keeps (set_state a Stopped 0.0)) as [-> ->]);
    try (destruct (discharge_keeps (set_state a Aborted (-0.1))) as [-> ->]);
    try (destruct (discharge_keeps (set_state a Stopped 0.0)) as [-> ->]);
    cbn [set_state restart current_reward current_state];
    (split; [tauto | intros [?|?] [?|?]; congruence]).
Qed.
End StorageRange.

(** Starting with the charging level between [p_min] and [p_max] and a
    non-negative [p_slope], every level met in a run of storage steps lies
    between [p_min] and [p_max]. *)
Theorem storage_level_stays_in_range
    (a a' : EFlexEnergyStorageAgent.t) (actions : list Z) (trace : list (Q * Q)) :
  EFlexEnergyStorageAgent.p_min a <= EFlexEnergyStorageAgent.p_max a →
  0 <= EFlexEnergyStorageAgent.p_slope a →
  EFlexEnergyStorageAgent.p_min a <= EFlexEnergyStorageAgent.charging_level a →
  EFlexEnergyStorageAgent.charging_level a <= EFlexEnergyStorageAgent.p_max a →
  EFlexEnergyStorageAgent.run a actions = Some (a', trace) →
  EFlexEnergyStorageAgent.p_min a <= EFlexEnergyStorageAgent.charging_level a'
  ∧ EFlexEnergyStorageAgent.charging_level a' <= EFlexEnergyStorageAgent.p_max a
  ∧ Forall (λ x, EFlexEnergyStorageAgent.p_min a <= x.2
                 ∧ x.2 <= EFlexEnergyStorageAgent.p_max a) trace.
Proof.
  revert a trace. induction actions as [|action actions IH];
    intros a trace Hmm Hs Hlo Hhi; simpl.
  - intros [= <- <-]. by repeat split.
  - destruct (EFlexEnergyStorageAgent.step a action) as [[[[a1 ob] r] d]|] eqn:Hstep;
      [|done]. cbn [mbind option_bind].
    destruct (EFlexEnergyStorageAgent.run a1 actions) as [[a2 tr]|] eqn:Hrun; [|done].
    cbn [mbind option_bind]. intros [= <- <-].
    destruct (storage_step_in_range _ _ _ _ _ _ Hmm Hs Hlo Hhi Hstep)
      as (E1 & E2 & E3 & Hlo1 & Hhi1).
    destruct (IH a1 tr) as (Hlo' & Hhi' & Hall); rewrite ?E1, ?E2, ?E3; try done.
    rewrite E1, E2 in *. split; [done|]. split; [done|].
    constructor; [by split|done].
Qed.

Lemma storage_level_stays_in_range_witness :
  ∃ a' trace,
    EFlexEnergyStorageAgent.run storage_fresh [3; 3; 3; 3; 3; 3; 5; 5; 4; 5; 5; 5; 5; 5]%Z
    = Some (a', trace)
    ∧ 0 <= EFlexEnergyStorageAgent.charging_level a'
    ∧ EFlexEnergyStorageAgent.charging_level a' <= 100
    ∧ length trace = 14%nat.
Proof.
  eexists _, _.
  match goal with |- ?E ∧ _ => assert (Hrun : E) by (vm_compute; reflexivity) end.
  split; [exact Hrun|].
  assert (H1 : EFlexEnergyStorageAgent.p_min storage_fresh
               <= EFlexEnergyStorageAgent.p_max storage_fresh) by (cbn; lra).
  assert (H2 : 0 <= EFlexEnergyStorageAgent.p_slope storage_fresh) by (cbn; lra).
  assert (H3 : EFlexEnergyStorageAgent.p_min storage_fresh
               <= EFlexEnergyStorageAgent.charging_level storage_fresh) by (cbn; lra).
  assert (H4 : EFlexEnergyStorageAgent.charging_level storage_fresh
               <= EFlexEnergyStorageAgent.p_max storage_fresh) by (cbn; lra).
  destruct (storage_level_stays_in_range _ _ _ _ H1 H2 H3 H4 Hrun) as (Hlo & Hhi & _).
  split; [exact Hlo|]. split; [exact Hhi|reflexivity].
Defined.

(** With a positive [p_max] and the level between 0 and [p_max], every
    storage step that returns has its reward between -0.1 and 1.0, and a
    step from Charging or Discharging that ends in one of those two states
    returns the quadratic reward at the level before the step, a value
    between 0 and 0.5. *)
Theorem storage_step_reward_range
    (a a' : EFlexEnergyStorageAgent.t) (action : Z) (ob : list Q) (r : Q) (d : bool) :
  0 < EFlexEnergyStorageAgent.p_max a →
  0 <= EFlexEnergyStorageAgent.charging_level a →
  EFlexEnergyStorageAgent.charging_level a <= EFlexEnergyStorageAgent.p_max a →
  EFlexEnergyStorageAgent.step a action = Some (a', ob, r, d) →
  -0.1 <= r ∧ r <= 1.0
  ∧ (EFlexEnergyStorageAgent.current_state a = EFLEXEnergyStorageAgentState.Charging ∨
     EFlexEnergyStorageAgent.current_state a = EFLEXEnergyStorageAgentState.Discharging →
     EFlexEnergyStorageAgent.current_state a' = EFLEXEnergyStorageAgentState.Charging ∨
     EFlexEnergyStorageAgent.current_state a' = EFLEXEnergyStorageAgentState.Discharging →
     0 <= r ∧ r <= 0.5
     ∧ r == 0.5 * (1 - ((EFlexEnergyStorageAgent.p_max a
                         - EFlexEnergyStorageAgent.charging_level a) ^ 2
                        / EFlexEnergyStorageAgent.p_max a ^ 2))).
Proof.
  intros Hp Hlo Hhi Hstep.
  destruct (storage_step_inv _ _ _ _ _ _ Hstep) as (act & a1 & _ & Ha1 & -> & _ & -> & _).
  destruct (storage_take_action_reward _ _ _ Ha1) as [Hvals Hquad].
  cbn [EFlexEnergyStorageAgent.tick EFlexEnergyStorageAgent.current_state].
  assert (Heff : EFlexEnergyStorageAgent.efficiency a
                 = Some (EFlexEnergyStorageAgent.current_reward a1) →
                 0 <= EFlexEnergyStorageAgent.current_reward a1
                 ∧ EFlexEnergyStorageAgent.current_reward a1 <= 0.5
                 ∧ EFlexEnergyStorageAgent.current_reward a1
                   == 0.5 * (1 - ((EFlexEnergyStorageAgent.p_max a
                                   - EFlexEnergyStorageAgent.charging_level a) ^ 2
                                  / EFlexEnergyStorageAgent.p_max a ^ 2))).
  { by apply efficiency_range. }
  split; [|split].
  - destruct Hvals as [-> | [-> | [-> | [-> | He]]]]; try lra.
    destruct (Heff He) as (? & ? & _). lra.
  - destruct Hvals as [-> | [-> | [-> | [-> | He]]]]; try lra.
    destruct (Heff He) as (? & ? & _). lra.
  - intros Hfrom Hto. apply Heff. by apply Hquad.
Qed.

Lemma storage_step_reward_range_witness :
  ∃ a' ob r d,
    EFlexEnergyStorageAgent.step storage_charging_90 5 = Some (a', ob, r, d)
    ∧ EFlexEnergyStorageAgent.current_state a' = EFLEXEnergyStorageAgentState.Discharging
    ∧ 0 <= r ∧ r <= 0.5 ∧ r == 0.495.
Proof.
  eexists _, _, _, _.
  match goal with |- ?E ∧ _ => assert (Hstep : E) by (vm_compute; reflexivity) end.
  split; [exact Hstep|]. split; [reflexivity|].
  assert (H1 : 0 < EFlexEnergyStorageAgent.p_max storage_charging_90) by (cbn; lra).
  assert (H2 : 0 <= EFlexEnergyStorageAgent.charging_level storage_charging_90)
    by (cbn; lra).
  assert (H3 : EFlexEnergyStorageAgent.charging_level storage_charging_90
               <= EFlexEnergyStorageAgent.p_max storage_charging_90) by (cbn; lra).
  destruct (storage_step_reward_range _ _ _ _ _ _ H1 H2 H3 Hstep) as (_ & _ & Hq).
  destruct Hq as (Hlo & Hhi & _); [by left|by right|].
  split; [exact Hlo|]. split; [exact Hhi|reflexivity].
Defined.

(** ** Generator: the ramp *)

Section GeneratorFacts.
Import EFLEXEnergyGeneratorAgentState.
Import EFLEXEnergyGeneratorAgent.

Lemma generator_step_inv (a a' : t) (action : Z) (ob : list Q) (r : Q) (d : bool) :
  step a action = Some (a', ob, r, d) →
  ∃ act a1, T.of_value action = Some act ∧ _take_action a act = Some a1 ∧
            a' = tick a1 ∧ _get_obs a1 = Some ob ∧
            r = current_reward a1 ∧ d = _get_done a1.
Proof.
  unfold step. destruct (T.of_value action) as [act|]; [|discriminate].
  cbn [mbind option_bind].
  destruct (_take_action a act) as [a1|] eqn:Ha1; [|discriminate].
  cbn [mbind option_bind].
  destruct (_get_obs a1) as [ob'|] eqn:Hob; [|discriminate].
  cbn [mbind option_bind].
  intros [= Ha' Hob' Hr Hd]. subst. by exists act, a1.
Qed.

(** A transition changes the state and the reward only. *)
Lemma generator_take_action_fields (a a1 : t) (act : T.t) :
  _take_action a act = Some a1 →
  p_min a1 = p_min a ∧ p_max a1 = p_max a ∧ p_slope a1 = p_slope a
  ∧ max_allowed_power a1 = max_allowed_power a ∧ last_power a1 = last_power a.
Proof.
  unfold _take_action.
  destruct (current_state a), act; cbn [mbind option_bind];
    try (destruct (py_div _ _); cbn [mbind option_bind]);
    try discriminate; by intros [= <-].
Qed.

(** The rewards of the table: a constant, or [0.2 * |power / p_max|] when
    a generating device keeps generating. *)
Lemma generator_take_action_reward (a a1 : t) (act : T.t) :
  _take_action a act = Some a1 →
  (current_reward a1 = -0.1 ∨ current_reward a1 = 0.0 ∨ current_reward a1 = 0.1
   ∨ current_reward a1 = 1.0
   ∨ (current_state a = Generating
      ∧ current_reward a1 = 0.2 * Qabs (current_power a / p_max a)))
  ∧ (current_state a = Generating → current_state a1 = Generating →
     current_reward a1 = 0.2 * Qabs (current_power a / p_max a)).
Proof.
  unfold _take_action.
  destruct (current_state a) eqn:Hst, act; cbn [mbind option_bind];
    try (destruct (py_div _ _) as [q|] eqn:Hq; cbn [mbind option_bind];
         [apply py_div_inv in Hq as [Hne ->]|]);
    try discriminate; intros [= <-]; cbn [set_state current_reward current_state];
    (split; [tauto | intros ? ?; first [congruence | reflexivity]]).
Qed.

(** The power as one expression: minus the smaller of
    [last_power + p_slope] and [p_max] in Generating, zero elsewhere. *)
Lemma generator_power_formula (a : t) :
  (current_state a = Generating →
   current_power a == - Qmin (last_power a + p_slope a) (p_max a))
  ∧ (current_state a ≠ Generating → current_power a = 0.0).
Proof.
  unfold current_power. destruct (current_state a); try (split; [done|done]).
  cbv zeta. split; [|done]. intros _. destruct (Qgtb _ _) eqn:E.
  - apply Qgtb_lt in E. rewrite Q.min_r; [reflexivity|lra].
  - apply Qgtb_le in E. rewrite Q.min_l; [reflexivity|lra].
Qed.

(** The power of a device whose [last_power] is not negative. *)
Lemma generator_power_range (a : t) :
  0 <= p_max a → 0 <= p_slope a → 0 <= last_power a →
  current_power a <= 0 ∧ - p_max a <= current_power a
  ∧ (current_state a = Generating →
     current_power a == - Qmin (last_power a + p_slope a) (p_max a))
  ∧ (current_state a ≠ Generating → current_power a = 0.0).
Proof.
  intros Hp Hs Hl. unfold current_power.
  destruct (current_state a).
  - repeat split; try lra; done.
  - repeat split; try lra; done.
  - cbv zeta. destruct (Qgtb _ _) eqn:E.
    + apply Qgtb_lt in E. repeat split; try lra; try done.
      intros _. rewrite Q.min_r; [reflexivity|lra].
    + apply Qgtb_le in E. repeat split; try lra; try done.
      intros _. rewrite Q.min_l; [reflexivity|lra].
Qed.
End GeneratorFacts.

(** The ramp after one step: with [0 <= p_max], [0 <= p_slope] and
    [0 <= last_power], [last_power] ends between 0 and [p_max], at the
    smaller of [last_power + p_slope] and [p_max] in Generating and at 0
    elsewhere. *)
Lemma generator_step_ramp
    (a a' : EFLEXEnergyGeneratorAgent.t) (action : Z) (ob : list Q) (r : Q) (d : bool) :
  0 <= EFLEXEnergyGeneratorAgent.p_max a →
  0 <= EFLEXEnergyGeneratorAgent.p_slope a →
  0 <= EFLEXEnergyGeneratorAgent.last_power a →
  EFLEXEnergyGeneratorAgent.step a action = Some (a', ob, r, d) →
  EFLEXEnergyGeneratorAgent.p_max a' = EFLEXEnergyGeneratorAgent.p_max a
  ∧ EFLEXEnergyGeneratorAgent.p_slope a' = EFLEXEnergyGeneratorAgent.p_slope a
  ∧ 0 <= EFLEXEnergyGeneratorAgent.last_power a'
  ∧ EFLEXEnergyGeneratorAgent.last_power a' <= EFLEXEnergyGeneratorAgent.p_max a
  ∧ (EFLEXEnergyGeneratorAgent.current_state a' = EFLEXEnergyGeneratorAgentState.Generating →
     EFLEXEnergyGeneratorAgent.last_power a'
     == Qmin (EFLEXEnergyGeneratorAgent.last_power a + EFLEXEnergyGeneratorAgent.p_slope a)
             (EFLEXEnergyGeneratorAgent.p_max a))
  ∧ (EFLEXEnergyGeneratorAgent.current_state a' ≠ EFLEXEnergyGeneratorAgentState.Generating →
     EFLEXEnergyGeneratorAgent.last_power a' == 0)
  ∧ EFLEXEnergyGeneratorAgent.current_power a' <= 0
  ∧ - EFLEXEnergyGeneratorAgent.p_max a <= EFLEXEnergyGeneratorAgent.current_power a'.
Proof.
  intros Hp Hs Hl Hstep.
  destruct (generator_step_inv _ _ _ _ _ _ Hstep) as (act & a1 & _ & Ha1 & -> & _).
  destruct (generator_take_action_fields _ _ _ Ha1) as (_ & E2 & E3 & _ & E5).
  destruct (generator_power_range a1) as (Hneg & Hlow & Hgen & Hoff);
    rewrite ?E2, ?E3, ?E5; try done.
  rewrite E2, E3, E5 in *.
  assert (Hlast : EFLEXEnergyGeneratorAgent.last_power (EFLEXEnergyGeneratorAgent.tick a1)
                  == - EFLEXEnergyGeneratorAgent.current_power a1).
  { cbn [EFLEXEnergyGeneratorAgent.tick EFLEXEnergyGeneratorAgent.last_power].
    rewrite <- Qabs_opp. apply Qabs_pos. lra. }
  assert (Hstate : EFLEXEnergyGeneratorAgent.current_state (EFLEXEnergyGeneratorAgent.tick a1)
                   = EFLEXEnergyGeneratorAgent.current_state a1) by done.
  assert (Hlast0 : 0 <= EFLEXEnergyGeneratorAgent.last_power (EFLEXEnergyGeneratorAgent.tick a1))
    by (rewrite Hlast; lra).
  assert (Hlast1 : EFLEXEnergyGeneratorAgent.last_power (EFLEXEnergyGeneratorAgent.tick a1)
                   <= EFLEXEnergyGeneratorAgent.p_max a) by (rewrite Hlast; lra).
  destruct (generator_power_range (EFLEXEnergyGeneratorAgent.tick a1))
    as (Hneg' & Hlow' & _ & _); try done.
  { cbn [EFLEXEnergyGeneratorAgent.tick EFLEXEnergyGeneratorAgent.p_max]. by rewrite E2. }
  { cbn [EFLEXEnergyGeneratorAgent.tick EFLEXEnergyGeneratorAgent.p_slope]. by rewrite E3. }
  split; [done|]. split; [done|]. split; [done|]. split; [done|].
  split; [|split; [|split]].
  - rewrite Hstate, Hlast. intros Hg. rewrite (Hgen Hg). ring.
  - rewrite Hstate, Hlast. intros Hg. rewrite (Hoff Hg). reflexivity.
  - done.
  - cbn [EFLEXEnergyGeneratorAgent.tick EFLEXEnergyGeneratorAgent.p_max] in Hlow'.
    by rewrite E2 in Hlow'.
Qed.

(** With [0 <= p_slope] and [0 <= last_power <= p_max], throughout a run
    of generator steps [last_power] stays between 0 and [p_max] and the
    power is never positive and never below [-p_max]; after a step that
    ends in Stopped or Aborted [last_power] is 0 again, so the next ramp
    starts from zero. *)
Theorem generator_run_keeps_ramp_range
    (a a' : EFLEXEnergyGeneratorAgent.t) (actions : list Z) (rewards : list Q) :
  0 <= EFLEXEnergyGeneratorAgent.p_slope a →
  0 <= EFLEXEnergyGeneratorAgent.last_power a →
  EFLEXEnergyGeneratorAgent.last_power a <= EFLEXEnergyGeneratorAgent.p_max a →
  generator_run a actions = Some (a', rewards) →
  EFLEXEnergyGeneratorAgent.p_max a' = EFLEXEnergyGeneratorAgent.p_max a
  ∧ 0 <= EFLEXEnergyGeneratorAgent.last_power a'
  ∧ EFLEXEnergyGeneratorAgent.last_power a' <= EFLEXEnergyGeneratorAgent.p_max a
  ∧ EFLEXEnergyGeneratorAgent.current_power a' <= 0
  ∧ - EFLEXEnergyGeneratorAgent.p_max a <= EFLEXEnergyGeneratorAgent.current_power a'
  ∧ (actions ≠ [] →
     EFLEXEnergyGeneratorAgent.current_state a' ≠ EFLEXEnergyGeneratorAgentState.Generating →
     EFLEXEnergyGeneratorAgent.last_power a' == 0)
  ∧ length rewards = length actions.
Proof.
  revert a rewards. induction actions as [|action actions IH];
    intros a rewards Hs Hl0 Hl1; simpl.
  - intros [= <- <-].
    destruct (generator_power_range a) as (Hneg & Hlow & _ & _); try lra.
    repeat split; try done.
  - destruct (EFLEXEnergyGeneratorAgent.step a action) as [[[[a1 ob] r] d]|] eqn:Hstep;
      [|done]. cbn [mbind option_bind].
    destruct (generator_run a1 actions) as [[a2 rs]|] eqn:Hrun; [|done].
    cbn [mbind option_bind]. intros [= <- <-].
    assert (Hp : 0 <= EFLEXEnergyGeneratorAgent.p_max a) by lra.
    destruct (generator_step_ramp _ _ _ _ _ _ Hp Hs Hl0 Hstep)
      as (E2 & E3 & H0 & H1 & _ & Hzero & Hneg & Hlow).
    destruct (IH a1 rs) as (F2 & G0 & G1 & Gneg & Glow & Gzero & Glen);
      rewrite ?E2, ?E3; try done.
    rewrite E2 in *. split; [done|]. split; [done|]. split; [done|].
    split; [done|]. split; [done|]. split; [|simpl; by rewrite Glen].
    intros _ Hng. destruct actions as [|action2 actions].
    + simpl in Hrun. injection Hrun as <- <-. by apply Hzero.
    + by apply Gzero.
Qed.

Lemma generator_run_keeps_ramp_range_witness :
  ∃ a' rewards,
    generator_run generator_fresh [3; 3; 3; 3; 3; 3; 3; 4]%Z = Some (a', rewards)
    ∧ EFLEXEnergyGeneratorAgent.last_power a' == 0
    ∧ EFLEXEnergyGeneratorAgent.current_power a' <= 0.
Proof.
  eexists _, _.
  match goal with |- ?E ∧ _ => assert (Hrun : E) by (vm_compute; reflexivity) end.
  split; [exact Hrun|].
  assert (H2 : 0 <= EFLEXEnergyGeneratorAgent.p_slope generator_fresh) by (cbn; lra).
  assert (H3 : 0 <= EFLEXEnergyGeneratorAgent.last_power generator_fresh) by (cbn; lra).
  assert (H4 : EFLEXEnergyGeneratorAgent.last_power generator_fresh
               <= EFLEXEnergyGeneratorAgent.p_max generator_fresh) by (cbn; lra).
  destruct (generator_run_keeps_ramp_range _ _ _ _ H2 H3 H4 Hrun)
    as (_ & _ & _ & Hneg & _ & Hzero & _).
  split; [|exact Hneg]. apply Hzero; discriminate.
Defined.

(** With a positive [p_max], a non-negative [p_slope] and a non-negative
    [last_power], every generator step that returns has its reward between
    -0.1 and 1.0; a step from Generating that stays in Generating returns
    0.2 times the ramped power over [p_max], a value between 0 and 0.2. *)
Theorem generator_step_reward_range
    (a a' : EFLEXEnergyGeneratorAgent.t) (action : Z) (ob : list Q) (r : Q) (d : bool) :
  0 < EFLEXEnergyGeneratorAgent.p_max a →
  0 <= EFLEXEnergyGeneratorAgent.p_slope a →
  0 <= EFLEXEnergyGeneratorAgent.last_power a →
  EFLEXEnergyGeneratorAgent.step a action = Some (a', ob, r, d) →
  -0.1 <= r ∧ r <= 1.0
  ∧ (EFLEXEnergyGeneratorAgent.current_state a = EFLEXEnergyGeneratorAgentState.Generating →
     EFLEXEnergyGeneratorAgent.current_state a' = EFLEXEnergyGeneratorAgentState.Generating →
     0 <= r ∧ r <= 0.2
     ∧ r == 0.2 * (Qmin (EFLEXEnergyGeneratorAgent.last_power a
                         + EFLEXEnergyGeneratorAgent.p_slope a)
                        (EFLEXEnergyGeneratorAgent.p_max a)
                   / EFLEXEnergyGeneratorAgent.p_max a)).
Proof.
  intros Hp Hs Hl Hstep.
  destruct (generator_step_inv _ _ _ _ _ _ Hstep) as (act & a1 & _ & Ha1 & -> & _ & -> & _).
  destruct (generator_take_action_reward _ _ _ Ha1) as [Hvals Hquad].
  cbn [EFLEXEnergyGeneratorAgent.tick EFLEXEnergyGeneratorAgent.current_state].
  assert (Hgen : EFLEXEnergyGeneratorAgent.current_state a
                 = EFLEXEnergyGeneratorAgentState.Generating →
                 EFLEXEnergyGeneratorAgent.current_reward a1
                 = 0.2 * Qabs (EFLEXEnergyGeneratorAgent.current_power a
                               / EFLEXEnergyGeneratorAgent.p_max a) →
                 0 <= EFLEXEnergyGeneratorAgent.current_reward a1
                 ∧ EFLEXEnergyGeneratorAgent.current_reward a1 <= 0.2
                 ∧ EFLEXEnergyGeneratorAgent.current_reward a1
                   == 0.2 * (Qmin (EFLEXEnergyGeneratorAgent.last_power a
                                   + EFLEXEnergyGeneratorAgent.p_slope a)
                                  (EFLEXEnergyGeneratorAgent.p_max a)
                             / EFLEXEnergyGeneratorAgent.p_max a)).
  { intros Hst ->.
    destruct (generator_power_range a) as (Hneg & Hlow & Hmin & _); try lra.
    specialize (Hmin Hst).
    set (m := Qmin _ _) in *. set (cp := EFLEXEnergyGeneratorAgent.current_power a) in *.
    set (pm := EFLEXEnergyGeneratorAgent.p_max a) in *.
    assert (Hq : cp / pm == - (m / pm)).
    { rewrite Hmin. unfold Qdiv. ring. }
    assert (Hm0 : 0 <= m / pm).
    { apply Qle_shift_div_l; [done|]. lra. }
    assert (Hm1 : m / pm <= 1).
    { apply Qle_shift_div_r; [done|]. lra. }
    assert (Habs : Qabs (cp / pm) == m / pm).
    { rewrite Hq, Qabs_opp. by apply Qabs_pos. }
    rewrite Habs. set (z := m / pm) in *. clearbody z. split; [lra|]. split; [lra|reflexivity]. }
  split; [|split].
  - destruct Hvals as [-> | [-> | [-> | [-> | [Hst Hv]]]]]; try lra.
    destruct (Hgen Hst Hv) as (? & ? & _). lra.
  - destruct Hvals as [-> | [-> | [-> | [-> | [Hst Hv]]]]]; try lra.
    destruct (Hgen Hst Hv) as (? & ? & _). lra.
  - intros Hg Hg1. apply (Hgen Hg). by apply Hquad.
Qed.

(** A generator that has ramped to 30 of its 50 and generates on: the
    reward is 0.2 * 40 / 50. *)
Lemma generator_step_reward_range_witness :
  ∃ a' ob r d,
    EFLEXEnergyGeneratorAgent.step
      (EFLEXEnergyGeneratorAgent.mk 0 50 10 EFLEXEnergyGeneratorAgentState.Generating
         0.12 100 0 3 30) 3
    = Some (a', ob, r, d)
    ∧ 0 <= r ∧ r <= 0.2 ∧ r == 0.16.
Proof.
  eexists _, _, _, _.
  match goal with |- ?E ∧ _ => assert (Hstep : E) by (vm_compute; reflexivity) end.
  split; [exact Hstep|].
  match type of Hstep with EFLEXEnergyGeneratorAgent.step ?a _ = _ =>
    assert (H1 : 0 < EFLEXEnergyGeneratorAgent.p_max a) by (cbn; lra);
    assert (H2 : 0 <= EFLEXEnergyGeneratorAgent.p_slope a) by (cbn; lra);
    assert (H3 : 0 <= EFLEXEnergyGeneratorAgent.last_power a) by (cbn; lra)
  end.
  destruct (generator_step_reward_range _ _ _ _ _ _ H1 H2 H3 Hstep) as (_ & _ & Hq).
  destruct Hq as (Hlo & Hhi & _); [reflexivity|reflexivity|].
  split; [exact Hlo|]. split; [exact Hhi|reflexivity].
Defined.

(** The power an agent's turn in the coordinator loop records for a
    generator is read after the step has replaced [last_power] by
    [abs(current_power)].  For a device left in Generating the observation
    returned by the step shows [-min(last_power + p_slope, p_max)], while
    the recorded power is [-min(abs(shown) + p_slope, p_max)]; with
    [0 <= p_max] and [0 <= last_power + p_slope] that is
    [-min(min(last_power + p_slope, p_max) + p_slope, p_max)], one ramp step
    ahead of the observation.  For a device left Stopped or Aborted both
    are 0. *)
Theorem generator_recorded_power_is_ahead
    (math_exp : Q → option Q) (a : EFLEXEnergyGeneratorAgent.t) (action : Z)
    (t : Coordinator.AgentTick) :
  Coordinator.agent_tick math_exp (Generator a) action = Some t →
  ∃ a' p_obs,
    Coordinator.tick_agent t = Generator a'
    ∧ Coordinator.tick_ob t !! 4%nat
      = Some (p_obs / EFLEXEnergyGeneratorAgent.max_allowed_power a)
    ∧ EFLEXEnergyGeneratorAgent.last_power a' = Qabs p_obs
    ∧ (EFLEXEnergyGeneratorAgent.current_state a' = EFLEXEnergyGeneratorAgentState.Generating →
       let ramp := Qmin (EFLEXEnergyGeneratorAgent.last_power a
                         + EFLEXEnergyGeneratorAgent.p_slope a)
                        (EFLEXEnergyGeneratorAgent.p_max a) in
       p_obs == - ramp
       ∧ Coordinator.tick_power t
         == - Qmin (Qabs p_obs + EFLEXEnergyGeneratorAgent.p_slope a)
                   (EFLEXEnergyGeneratorAgent.p_max a)
       ∧ (0 <= EFLEXEnergyGeneratorAgent.p_max a →
          0 <= EFLEXEnergyGeneratorAgent.last_power a
               + EFLEXEnergyGeneratorAgent.p_slope a →
          Coordinator.tick_power t
          == - Qmin (ramp + EFLEXEnergyGeneratorAgent.p_slope a)
                    (EFLEXEnergyGeneratorAgent.p_max a)))
    ∧ (EFLEXEnergyGeneratorAgent.current_state a' ≠ EFLEXEnergyGeneratorAgentState.Generating →
       p_obs = 0.0 ∧ Coordinator.tick_power t = 0.0).
Proof.
  unfold Coordinator.agent_tick.
  destruct (EFLEXEnergyGeneratorAgent.step a action) as [[[[a' ob] r] d]|] eqn:Hstep;
    [|discriminate].
  cbn [mbind option_bind]. intros [= <-].
  cbn [Coordinator.tick_agent Coordinator.tick_ob Coordinator.tick_power].
  destruct (generator_step_inv _ _ _ _ _ _ Hstep) as (act & a1 & _ & Ha1 & -> & Hob & _).
  destruct (generator_take_action_fields _ _ _ Ha1) as (_ & F2 & F3 & F4 & F5).
  unfold EFLEXEnergyGeneratorAgent._get_obs in Hob.
  destruct (py_div _ _) as [x|] eqn:Hx; [|discriminate].
  apply py_div_inv in Hx as [_ ->]. cbn [mbind option_bind] in Hob.
  injection Hob as <-.
  exists (EFLEXEnergyGeneratorAgent.tick a1), (EFLEXEnergyGeneratorAgent.current_power a1).
  split; [done|]. split.
  { rewrite F4. apply list_lookup_insert_eq. rewrite length_insert. simpl. lia. }
  split; [done|].
  destruct (generator_power_formula a1) as [Hg1 Ho1].
  destruct (generator_power_formula (EFLEXEnergyGeneratorAgent.tick a1)) as [Hg2 Ho2].
  cbn [EFLEXEnergyGeneratorAgent.tick EFLEXEnergyGeneratorAgent.current_state
       EFLEXEnergyGeneratorAgent.last_power EFLEXEnergyGeneratorAgent.p_slope
       EFLEXEnergyGeneratorAgent.p_max] in Hg2, Ho2 |- *.
  rewrite F2, F3, F5 in Hg1. rewrite F2, F3 in Hg2.
  split.
  - intros Hg. cbv zeta. split; [by apply Hg1|]. split; [by apply Hg2|].
    intros Hp Hls. rewrite (Hg2 Hg).
    assert (Habs : Qabs (EFLEXEnergyGeneratorAgent.current_power a1)
                   == Qmin (EFLEXEnergyGeneratorAgent.last_power a
                            + EFLEXEnergyGeneratorAgent.p_slope a)
                           (EFLEXEnergyGeneratorAgent.p_max a)).
    { rewrite (Hg1 Hg), Qabs_opp. apply Qabs_pos. by apply Q.min_glb. }
    by rewrite Habs.
  - intros Hg. split; [by apply Ho1|by apply Ho2].
Qed.

(** From rest the observation shows -10 and the loop records -20; with a
    negative slope the recorded power is not the ramp formula but the one
    through [abs]. *)
Lemma generator_recorded_power_is_ahead_witness :
  (∃ t a' p_obs,
     Coordinator.agent_tick exp_any (Generator generator_fresh) 3 = Some t
     ∧ Coordinator.tick_agent t = Generator a'
     ∧ Coordinator.tick_ob t !! 4%nat = Some (p_obs / 100)
     ∧ p_obs == -10 ∧ Coordinator.tick_power t == -20)
  ∧ (∃ t p_obs,
       Coordinator.agent_tick exp_any
         (Generator (EFLEXEnergyGeneratorAgent.mk 0 50 (-10)
                       EFLEXEnergyGeneratorAgentState.Generating 0.0 100 0 1 5)) 0
       = Some t
       ∧ Coordinator.tick_ob t !! 4%nat = Some (p_obs / 100)
       ∧ p_obs == 5 ∧ Coordinator.tick_power t == 5).
Proof.
  split.
  - eexists _.
    match goal with |- ∃ a' p, ?E ∧ _ => assert (Htick : E) by (vm_compute; reflexivity) end.
    destruct (generator_recorded_power_is_ahead exp_any _ _ _ Htick)
      as (a' & p_obs & Hagent & Hob & _ & Hgen & _).
    exists a', p_obs. split; [exact Htick|]. split; [exact Hagent|]. split; [exact Hob|].
    destruct Hgen as (Hp & _ & Hpow).
    { cbn in Hagent. injection Hagent as <-. reflexivity. }
    split.
    + rewrite Hp. reflexivity.
    + rewrite Hpow; [reflexivity|cbn; lra|cbn; lra].
  - eexists _.
    match goal with |- ∃ p, ?E ∧ _ => assert (Htick : E) by (vm_compute; reflexivity) end.
    destruct (generator_recorded_power_is_ahead exp_any _ _ _ Htick)
      as (a' & p_obs & Hagent & Hob & _ & Hgen & _).
    exists p_obs. split; [exact Htick|]. split; [exact Hob|].
    destruct Hgen as (Hp & Hpow & _).
    { cbn in Hagent. injection Hagent as <-. reflexivity. }
    split.
    + rewrite Hp. reflexivity.
    + rewrite Hpow, Hp. reflexivity.
Defined.

(** ** The coordinator: what one agent's turn leaves behind *)

Section GridMore.
Import EFLEXEnergyMainGridAgentState.
Import EFLEXEnergyMainGridAgent.

Lemma grid_step_inv (a a' : t) (action : Z) (ob : list Q) (r : Q) (d : bool) :
  step a action = Some (a', ob, r, d) →
  ∃ act, T.of_value action = Some act ∧ a' = tick (_take_action a act) ∧
         _get_obs (_take_action a act) = Some ob ∧
         r = current_reward (_take_action a act) ∧
         d = _get_done (_take_action a act).
Proof.
  unfold step. destruct (T.of_value action) as [act|]; [|discriminate].
  cbn [mbind option_bind].
  destruct (_get_obs _) as [ob'|] eqn:Hob; [|discriminate].
  cbn [mbind option_bind].
  intros [= Ha' Hob' Hr Hd]. subst. by exists act.
Qed.

Lemma grid_take_action_params (a : t) (act : T.t) :
  p_min (_take_action a act) = p_min a ∧ p_max (_take_action a act) = p_max a
  ∧ p_slope (_take_action a act) = p_slope a
  ∧ max_allowed_power (_take_action a act) = max_allowed_power a.
Proof. unfold _take_action. by destruct (current_state a), act. Qed.
End GridMore.

(** An index outside the alphabet is no member of the enum. *)
Lemma of_value_range :
  (∀ z act, EFLEXAgentTransition.of_value z = Some act → (0 ≤ z < 14)%Z)
  ∧ (∀ z act, EFLEXEnergyStorageAgentTransition.of_value z = Some act → (0 ≤ z < 6)%Z)
  ∧ (∀ z act, EFLEXEnergyGeneratorAgentTransition.of_value z = Some act → (0 ≤ z < 5)%Z)
  ∧ (∀ z act, EFLEXEnergyMainGridAgentTransition.of_value z = Some act → (0 ≤ z < 6)%Z).
Proof.
  split; [|split; [|split]]; intros [|p|p] act;
    try (intros _; lia); try discriminate;
    do 4 (try (destruct p as [p|p|])); try discriminate; intros _; lia.
Qed.

Section AgentTurn.
Import Coordinator.
Variable math_exp : Q → option Q.

Lemma power_set_reward (k : EFlexAgent.kind) (a : EFlexAgent.t) (r : Q) :
  EFlexAgent.current_power math_exp k (EFlexAgent.set_reward a r)
  = EFlexAgent.current_power math_exp k a.
Proof. reflexivity. Qed.

(** The agent left behind by a turn: same class and parameters, its power
    and done flag are the ones recorded, its production count has moved by
    the recorded product, and the action was inside the alphabet. *)
Lemma agent_tick_facts (d : Device) (z : Z) (r : AgentTick) :
  agent_tick math_exp d z = Some r →
  device_class (tick_agent r) = device_class d
  ∧ device_params (tick_agent r) = device_params d
  ∧ device_power math_exp (tick_agent r) = Some (tick_power r)
  ∧ tick_done r = device_done (tick_agent r)
  ∧ device_production_count (tick_agent r)
    = (device_production_count d + (if tick_produced r then 1 else 0))%Z
  ∧ (0 ≤ z < device_actions d)%Z.
Proof.
  destruct of_value_range as (R1 & R2 & R3 & R4).
  destruct d as [k a|a|a|a]; cbn [agent_tick].
  - destruct (EFlexAgent.step math_exp k a z) as [[[[a' ob] sr] eo]|] eqn:Hstep;
      [|discriminate]. cbn [mbind option_bind].
    destruct (EFlexAgent.current_power math_exp k a') as [pw|] eqn:Hpw; [|discriminate].
    cbn [mbind option_bind]. intros [= <-].
    cbn [tick_agent tick_power tick_done tick_produced].
    destruct (production_step_inv _ _ _ _ _ _ _ _ Hstep) as (act & Hact & -> & _ & _ & ->).
    destruct (take_action_params a act) as (P1 & P2 & P3 & P4).
    split; [by destruct k|]. split; [cbn; by rewrite P1, P2, P3, P4|].
    split; [by rewrite <- Hpw|]. split; [done|]. split; [|by eapply R1].
    cbn [device_production_count EFlexAgent.set_reward EFlexAgent.set_state
         EFlexAgent.tick EFlexAgent.production_count EFlexAgent.current_state].
    rewrite take_action_count. unfold EFLEXAgentState.eqb.
    destruct (Nat.eqb (EFLEXAgentState.value (EFlexAgent.current_state a)) _),
      (Nat.eqb (EFLEXAgentState.value
                  (EFlexAgent.current_state (EFlexAgent._take_action a act))) _);
      simpl; lia.
  - destruct (EFlexEnergyStorageAgent.step a z) as [[[[a' ob] sr] eo]|] eqn:Hstep;
      [|discriminate]. cbn [mbind option_bind]. intros [= <-].
    cbn [tick_agent tick_power tick_done tick_produced].
    destruct (storage_step_inv _ _ _ _ _ _ Hstep) as (act & a1 & Hact & Ha1 & -> & _ & _ & ->).
    destruct (storage_take_action_params _ _ _ Ha1) as (P1 & P2 & P3 & P4).
    split; [done|]. split; [cbn; by rewrite P1, P2, P3, P4|].
    split; [done|]. split; [done|]. split; [cbn; lia|by eapply R2].
  - destruct (EFLEXEnergyGeneratorAgent.step a z) as [[[[a' ob] sr] eo]|] eqn:Hstep;
      [|discriminate]. cbn [mbind option_bind]. intros [= <-].
    cbn [tick_agent tick_power tick_done tick_produced].
    destruct (generator_step_inv _ _ _ _ _ _ Hstep) as (act & a1 & Hact & Ha1 & -> & _ & _ & ->).
    destruct (generator_take_action_fields _ _ _ Ha1) as (P1 & P2 & P3 & P4 & _).
    split; [done|]. split; [cbn; by rewrite P1, P2, P3, P4|].
    split; [done|]. split; [done|]. split; [cbn; lia|by eapply R3].
  - destruct (EFLEXEnergyMainGridAgent.step a z) as [[[[a' ob] sr] eo]|] eqn:Hstep;
      [|discriminate]. cbn [mbind option_bind]. intros [= <-].
    cbn [tick_agent tick_power tick_done tick_produced].
    destruct (grid_step_inv _ _ _ _ _ _ Hstep) as (act & Hact & -> & _ & _ & ->).
    destruct (grid_take_action_params a act) as (P1 & P2 & P3 & P4).
    split; [done|]. split; [cbn; by rewrite P1, P2, P3, P4|].
    split; [done|]. split; [done|]. split; [cbn; lia|by eapply R4].
Qed.

(** The agents' turns fail as a whole when the action vector is too short
    for some agent. *)
Lemma agent_ticks_short (i : nat) (ds : list Device) (action : list Z) :
  (i ≤ length action)%nat →
  (length action < i + length ds)%nat →
  agent_ticks math_exp i ds action = None.
Proof.
  revert i. induction ds as [|d ds IH]; intros i Hi Hlen; simpl in *.
  - lia.
  - destruct (action !! i) as [z|] eqn:Hz; [|done]. cbn [mbind option_bind].
    apply lookup_lt_Some in Hz.
    destruct (agent_tick math_exp d z); [|done]. cbn [mbind option_bind].
    rewrite IH; [done|lia|lia].
Qed.

(** They fail when some agent's own turn fails. *)
Lemma agent_ticks_fails_at (i : nat) (ds : list Device) (action : list Z)
    (j : nat) (d : Device) (z : Z) :
  ds !! j = Some d → action !! (i + j)%nat = Some z →
  agent_tick math_exp d z = None →
  agent_ticks math_exp i ds action = None.
Proof.
  revert i j. induction ds as [|d0 ds IH]; intros i j Hd Hz Hnone.
  - by rewrite lookup_nil in Hd.
  - simpl. destruct j as [|j]; simpl in Hd.
    + injection Hd as ->. rewrite Nat.add_0_r in Hz. rewrite Hz.
      cbn [mbind option_bind]. by rewrite Hnone.
    + destruct (action !! i) as [z0|]; [|done]. cbn [mbind option_bind].
      destruct (agent_tick math_exp d0 z0); [|done]. cbn [mbind option_bind].
      rewrite (IH (S i) j); [done|done| |done].
      by replace (S i + j)%nat with (i + S j)%nat by lia.
Qed.

(** Entries of the action vector beyond the last agent are not read. *)
Lemma agent_ticks_take (i : nat) (ds : list Device) (action : list Z) :
  agent_ticks math_exp i ds (take (i + length ds) action)
  = agent_ticks math_exp i ds action.
Proof.
  revert i. induction ds as [|d ds IH]; intros i; simpl.
  - done.
  - rewrite lookup_take_lt by lia.
    destruct (action !! i) as [z|]; [|done]. cbn [mbind option_bind].
    destruct (agent_tick math_exp d z); [|done]. cbn [mbind option_bind].
    replace (i + S (length ds))%nat with (S i + length ds)%nat by lia.
    by rewrite IH.
Qed.

Lemma total_production_ticks (i : nat) (ds : list Device) (action : list Z)
    (rs : list AgentTick) :
  agent_ticks math_exp i ds action = Some rs →
  total_production (tick_agent <$> rs) = (total_production ds + count_produced rs)%Z.
Proof.
  revert i rs. induction ds as [|d ds IH]; intros i rs; simpl.
  - by intros [= <-].
  - destruct (action !! i) as [z|]; [|done]. cbn [mbind option_bind].
    destruct (agent_tick math_exp d z) as [r|] eqn:Hr; [|done]. cbn [mbind option_bind].
    destruct (agent_ticks math_exp (S i) ds action) as [rs'|] eqn:Hrs; [|done].
    cbn [mbind option_bind]. intros [= <-].
    destruct (agent_tick_facts _ _ _ Hr) as (_ & _ & _ & _ & Hc & _).
    pose proof (IH _ _ Hrs) as Hrest.
    change (device_production_count (tick_agent r) + total_production (tick_agent <$> rs')
            = device_production_count d + total_production ds
              + ((if tick_produced r then 1 else 0) + count_produced rs'))%Z.
    rewrite Hc, Hrest. lia.
Qed.
End AgentTurn.

(** ** The coordinator: power, termination, production, errors *)

Lemma device_off_power (math_exp : Q → option Q) (d : Device) :
  device_off d = true → device_power math_exp d = Some 0.0.
Proof.
  destruct d as [k a|a|a|a]; simpl.
  - unfold EFlexAgent.current_power. by destruct (EFlexAgent.current_state a).
  - unfold EFlexEnergyStorageAgent.current_power.
    by destruct (EFlexEnergyStorageAgent.current_state a).
  - unfold EFLEXEnergyGeneratorAgent.current_power.
    by destruct (EFLEXEnergyGeneratorAgent.current_state a).
  - unfold EFLEXEnergyMainGridAgent.current_power.
    by destruct (EFLEXEnergyMainGridAgent.current_state a).
Qed.

Lemma np_sum_zeros (l : list Q) : Forall (λ x, x == 0) l → np_sum l == 0.
Proof.
  induction 1 as [|x l Hx _ IH]; [reflexivity|].
  rewrite np_sum_cons, Hx, IH. reflexivity.
Qed.

Lemma agent_ticks_Forall (math_exp : Q → option Q) (i : nat) (ds : list Device)
    (action : list Z) (rs : list Coordinator.AgentTick) :
  Coordinator.agent_ticks math_exp i ds action = Some rs →
  Forall (λ r, ∃ d z, Coordinator.agent_tick math_exp d z = Some r) rs.
Proof.
  intros Hrs. apply Forall_lookup. intros j r Hr.
  destruct (agent_ticks_lookup _ _ _ _ _ _ _ Hrs Hr) as (d & z & _ & _ & Ht).
  by exists d, z.
Qed.

(** Wrap-around addition is addition modulo [2 ^ 64]: wrapping after every
    addition yields the wrapped exact sum, which is the exact sum when that
    lies within the int64 range. *)
Lemma int64_wrap_add (a x : Z) : int64_wrap (int64_wrap a + x) = int64_wrap (a + x).
Proof.
  unfold int64_wrap. f_equal.
  replace (((a + 2 ^ 63) mod 2 ^ 64 - 2 ^ 63 + x + 2 ^ 63))%Z
    with (((a + 2 ^ 63) mod 2 ^ 64 + x))%Z by lia.
  rewrite Zplus_mod_idemp_l. f_equal. lia.
Qed.

Lemma int64_wrap_small (z : Z) : (- 2 ^ 63 ≤ z < 2 ^ 63)%Z → int64_wrap z = z.
Proof. intros Hz. unfold int64_wrap. rewrite Z.mod_small; lia. Qed.

Lemma np_sum_int64_wrap (zs : list Z) :
  np_sum_int64 zs = int64_wrap (foldr Z.add 0%Z zs).
Proof.
  unfold np_sum_int64.
  assert (Hgen : ∀ s, fold_left (λ acc x, int64_wrap (acc + x)) zs (int64_wrap s)
                      = int64_wrap (s + foldr Z.add 0%Z zs)).
  { induction zs as [|x zs IH]; intros s; simpl.
    - by rewrite Z.add_0_r.
    - rewrite int64_wrap_add, IH. f_equal. lia. }
  rewrite <- (int64_wrap_small 0) at 1 by lia. apply Hgen.
Qed.

Lemma foldr_Qplus_inject_Z (zs : list Z) :
  foldr Qplus 0 (inject_Z <$> zs) == inject_Z (foldr Z.add 0%Z zs).
Proof.
  induction zs as [|x zs IH]; simpl; [reflexivity|].
  by rewrite IH, inject_Z_plus.
Qed.

Lemma foldr_Qplus_Forall2 (l1 l2 : list Q) :
  Forall2 Qeq l1 l2 → foldr Qplus 0 l1 == foldr Qplus 0 l2.
Proof.
  induction 1 as [|x y l1 l2 Hxy _ IH]; simpl; [reflexivity|].
  by rewrite Hxy, IH.
Qed.

(** After a tick the diagnostics report the stored [current_system_power].
    That number is the sum of the powers of the agents as the tick left
    them provided the sum lies within the int64 range, where the wrapped
    sum of an all-int list and the exact sum of a float list agree; when
    every agent is left Stopped or Aborted it is zero. *)
Theorem coordinator_system_power_is_sum
    (math_exp : Q → option Q) (c c' : Coordinator.t) (action : list Z)
    (res : Coordinator.StepResult) :
  Coordinator.step math_exp c action = Some (c', res) →
  ∃ powers,
    Forall2 (λ d p, device_power math_exp d = Some p) (Coordinator.agents c') powers
    ∧ Coordinator.info_current_system_power (Coordinator.res_info res)
      = Coordinator.current_system_power c'
    ∧ (in_int64 (foldr Qplus 0 powers) →
       Coordinator.current_system_power c' == foldr Qplus 0 powers
       ∧ ∀ zs, Forall2 Qeq powers (inject_Z <$> zs) →
               Coordinator.current_system_power c' == inject_Z (np_sum_int64 zs))
    ∧ ((∀ d, d ∈ Coordinator.agents c' → device_off d = true) →
       Coordinator.current_system_power c' == 0).
Proof.
  intros Hstep.
  destruct (coordinator_step_inv _ _ _ _ _ Hstep)
    as (tou & price & lp & load & rs & _ & _ & Hrs & -> & ->).
  pose proof (agent_ticks_Forall _ _ _ _ _ Hrs) as Hall.
  exists (Coordinator.tick_power <$> rs). cbn.
  assert (Hpow : Forall (λ r, device_power math_exp (Coordinator.tick_agent r)
                              = Some (Coordinator.tick_power r)) rs).
  { eapply Forall_impl; [exact Hall|]. intros r (d & z & Ht).
    by destruct (agent_tick_facts _ _ _ _ Ht) as (_ & _ & Hp & _). }
  split; [|split; [done|split]].
  - apply Forall2_fmap. by apply Forall_Forall2_diag.
  - intros [Hlo Hhi]. split; [apply np_sum_foldr|].
    intros zs Hzs. apply foldr_Qplus_Forall2 in Hzs.
    rewrite np_sum_foldr, Hzs, foldr_Qplus_inject_Z.
    rewrite Hzs, foldr_Qplus_inject_Z in Hlo, Hhi.
    rewrite <- Zle_Qle in Hlo. rewrite <- Zlt_Qlt in Hhi.
    rewrite np_sum_int64_wrap, int64_wrap_small; [reflexivity|lia].
  - intros Hoff. apply np_sum_zeros. apply Forall_fmap. apply Forall_forall.
    intros r Hin. cbn. rewrite Forall_forall in Hpow. specialize (Hpow r Hin).
    assert (Hd : device_off (Coordinator.tick_agent r) = true).
    { apply Hoff. by apply list_elem_of_fmap_2. }
    rewrite (device_off_power math_exp _ Hd) in Hpow. by injection Hpow as <-.
Qed.

(** Two grid connections that keep selling 30 each: the powers are the
    integers 30 and 30, and the stored power is 60 by either sum. *)
Lemma coordinator_system_power_is_sum_witness :
  ∃ c' res,
    Coordinator.step exp_any coordinator_over_budget [5; 5]%Z = Some (c', res)
    ∧ Coordinator.current_system_power c' == inject_Z (np_sum_int64 [30; 30]%Z)
    ∧ Coordinator.current_system_power c' == 60
    ∧ Coordinator.info_current_system_power (Coordinator.res_info res)
      = Coordinator.current_system_power c'.
Proof.
  eexists _, _.
  match goal with |- ?E ∧ _ => assert (Hstep : E) by (vm_compute; reflexivity) end.
  split; [exact Hstep|].
  destruct (coordinator_system_power_is_sum exp_any _ _ _ _ Hstep)
    as (powers & Hall & Hinfo & Hsum & _).
  assert (Hp : powers = [30; 30]).
  { cbn [Coordinator.agents] in Hall.
    apply Forall2_cons_inv_l in Hall as (p1 & l1 & H1 & Hall & ->).
    apply Forall2_cons_inv_l in Hall as (p2 & l2 & H2 & Hall & ->).
    apply Forall2_nil_inv_l in Hall as ->.
    cbn in H1, H2. congruence. }
  subst powers. destruct Hsum as [Hs Hz].
  { split; [discriminate|reflexivity]. }
  split; [|split; [|exact Hinfo]].
  - apply Hz. by repeat constructor.
  - rewrite Hs. reflexivity.
Defined.



(** The production reported by a tick is the amount by which the
    production counts of all agents together have grown. *)
Theorem coordinator_production_is_count_growth
    (math_exp : Q → option Q) (c c' : Coordinator.t) (action : list Z)
    (res : Coordinator.StepResult) :
  Coordinator.step math_exp c action = Some (c', res) →
  Coordinator.info_production (Coordinator.res_info res)
  = (total_production (Coordinator.agents c')
     - total_production (Coordinator.agents c))%Z
  ∧ (0 ≤ Coordinator.info_production (Coordinator.res_info res)
     ≤ Z.of_nat (Coordinator.n c))%Z.
Proof.
  intros Hstep.
  destruct (coordinator_step_inv _ _ _ _ _ Hstep)
    as (tou & price & lp & load & rs & _ & _ & Hrs & -> & ->).
  cbn [Coordinator.info_production Coordinator.res_info Coordinator.agents].
  rewrite (total_production_ticks _ _ _ _ _ Hrs). split; [lia|].
  unfold Coordinator.n. rewrite <- (agent_ticks_length _ _ _ _ _ Hrs).
  clear. induction rs as [|r rs IH]; simpl; [lia|].
  destruct (Coordinator.tick_produced r); lia.
Qed.

Lemma coordinator_production_is_count_growth_witness :
  ∃ c obs0 c' results r,
    Coordinator.reset exp_any coordinator_one_producer = Some (c, obs0)
    ∧ Coordinator.run exp_any c [[3]; [10]; [0]]%Z = Some (c', results)
    ∧ last results = Some r
    ∧ Coordinator.info_production (Coordinator.res_info r) = 1%Z
    ∧ total_production (Coordinator.agents c') = 1%Z.
Proof.
  eexists _, _, _, _, _.
  split; [vm_compute; reflexivity|]. split; [vm_compute; reflexivity|].
  split; [reflexivity|]. split; [|reflexivity].
  match goal with |- Coordinator.info_production (Coordinator.res_info ?r) = _ =>
    set (res := r) end.
  set (c2 := Coordinator.mk
               [Producer EFlexAgent.PConstant
                  (EFlexAgent.mk 2 10 1 EFLEXAgentState.Execute (0.5 * 1.0 + 0.5 * 0.0)
                     100 1 2 0)]
               false 100 1000 10 (0.5 * 1.0 + 0.5 * 0.0) []
               (TOUGenerator.mk [0%Z] [1.0] 2 1.0)
               (LoadProfile.mk [0%Z] [100] 0 2 (100 * (1 + 0)))).
  assert (Hstep : ∃ c3, Coordinator.step exp_any c2 [0%Z] = Some (c3, res)
                        ∧ total_production (Coordinator.agents c3) = 1%Z).
  { eexists. split; [vm_compute; reflexivity|reflexivity]. }
  destruct Hstep as (c3 & Hstep & Htot).
  destruct (coordinator_production_is_count_growth exp_any _ _ _ _ Hstep) as [Heq _].
  rewrite Heq, Htot. reflexivity.
Defined.

(** [step] raises when the action vector has fewer entries than there are
    agents (IndexError) and when some agent's entry is outside that agent's
    alphabet (ValueError); entries beyond the last agent are never read. *)
Theorem coordinator_step_action_errors
    (math_exp : Q → option Q) (c : Coordinator.t) (action : list Z) :
  ((length action < Coordinator.n c)%nat → Coordinator.step math_exp c action = None)
  ∧ (∀ i d z, Coordinator.agents c !! i = Some d → action !! i = Some z →
              ¬ (0 ≤ z < device_actions d)%Z →
              Coordinator.step math_exp c action = None)
  ∧ Coordinator.step math_exp c (take (Coordinator.n c) action)
    = Coordinator.step math_exp c action.
Proof.
  assert (Hnone : Coordinator.agent_ticks math_exp 0 (Coordinator.agents c) action = None →
                  Coordinator.step math_exp c action = None).
  { intros Hticks. unfold Coordinator.step.
    destruct (TOUGenerator.step _) as [[tou price]|]; [|done]. cbn [mbind option_bind].
    destruct (LoadProfile.step _) as [[lp load]|]; [|done]. cbn [mbind option_bind].
    by rewrite agents_loop_ticks, Hticks. }
  split; [|split].
  - intros Hlen. apply Hnone. apply agent_ticks_short; [lia|]. unfold Coordinator.n in Hlen.
    lia.
  - intros i d z Hd Hz Hrange. apply Hnone.
    apply (agent_ticks_fails_at math_exp 0 _ _ i d z); [done|done|].
    destruct (Coordinator.agent_tick math_exp d z) as [r|] eqn:Ht; [|done].
    destruct (agent_tick_facts _ _ _ _ Ht) as (_ & _ & _ & _ & _ & Hin). contradiction.
  - unfold Coordinator.step.
    destruct (TOUGenerator.step _) as [[tou price]|]; [|done]. cbn [mbind option_bind].
    destruct (LoadProfile.step _) as [[lp load]|]; [|done]. cbn [mbind option_bind].
    rewrite !agents_loop_ticks. unfold Coordinator.n.
    by rewrite (agent_ticks_take math_exp 0).
Qed.

(** One entry for three agents; an index 6 for a storage unit; a fourth
    entry that is not read. *)
Lemma coordinator_step_action_errors_witness :
  Coordinator.step exp_any coordinator_shared [2]%Z = None
  ∧ Coordinator.step exp_any coordinator_shared [2; 1; 6]%Z = None
  ∧ Coordinator.step exp_any coordinator_shared [2; 1; 3; 99]%Z
    = Coordinator.step exp_any coordinator_shared [2; 1; 3]%Z.
Proof.
  destruct (coordinator_step_action_errors exp_any coordinator_shared [2]%Z)
    as (Hshort & _ & _).
  destruct (coordinator_step_action_errors exp_any coordinator_shared [2; 1; 6]%Z)
    as (_ & Hrange & _).
  destruct (coordinator_step_action_errors exp_any coordinator_shared [2; 1; 3; 99]%Z)
    as (_ & _ & Htake).
  split; [apply Hshort; cbn; lia|]. split.
  - apply (Hrange 2%nat (Storage storage_fresh) 6%Z); [reflexivity|reflexivity|cbn; lia].
  - symmetry. exact Htake.
Defined.

(** ** The coordinator: reset *)

(** What [reset] of one agent yields: the same class and parameters, the
    state Stopped, and the observation of a stopped agent. *)
Lemma device_reset_facts (math_exp : Q → option Q) (d d' : Device) (ob : list Q) :
  Coordinator.device_reset math_exp d = Some (d', ob) →
  device_class d' = device_class d
  ∧ device_params d' = device_params d
  ∧ device_off d' = true
  ∧ device_ordinal d' = device_stopped_ordinal d
  ∧ device_production_count d' = 0%Z
  ∧ ¬ device_max_allowed_power d == 0
  ∧ ob = <[(device_states d + 1)%nat := 0.0 / device_max_allowed_power d]>
           (<[device_stopped_ordinal d := 1.0]> (replicate (device_states d + 2) 0.0)).
Proof.
  destruct d as [k a|a|a|a]; cbn [Coordinator.device_reset].
  - unfold EFlexAgent.reset, EFlexAgent._get_obs.
    cbn [EFlexAgent.current_power EFlexAgent.current_state EFlexAgent.max_allowed_power
         mbind option_bind].
    destruct (py_div 0.0 _) as [x|] eqn:E; [|discriminate].
    apply py_div_inv in E as [Hmax ->]. cbn [mbind option_bind].
    intros [= <- <-]. by repeat split.
  - unfold EFlexEnergyStorageAgent.reset, EFlexEnergyStorageAgent._get_obs.
    cbn [EFlexEnergyStorageAgent.current_power EFlexEnergyStorageAgent.current_state
         EFlexEnergyStorageAgent.max_allowed_power mbind option_bind].
    destruct (py_div 0.0 _) as [x|] eqn:E; [|discriminate].
    apply py_div_inv in E as [Hmax ->]. cbn [mbind option_bind].
    intros [= <- <-]. by repeat split.
  - unfold EFLEXEnergyGeneratorAgent.reset, EFLEXEnergyGeneratorAgent._get_obs.
    cbn [EFLEXEnergyGeneratorAgent.current_power EFLEXEnergyGeneratorAgent.current_state
         EFLEXEnergyGeneratorAgent.max_allowed_power mbind option_bind].
    destruct (py_div 0.0 _) as [x|] eqn:E; [|discriminate].
    apply py_div_inv in E as [Hmax ->]. cbn [mbind option_bind].
    intros [= <- <-]. by repeat split.
  - unfold EFLEXEnergyMainGridAgent.reset, EFLEXEnergyMainGridAgent._get_obs.
    cbn [EFLEXEnergyMainGridAgent.current_power EFLEXEnergyMainGridAgent.current_state
         EFLEXEnergyMainGridAgent.max_allowed_power mbind option_bind].
    destruct (py_div 0.0 _) as [x|] eqn:E; [|discriminate].
    apply py_div_inv in E as [Hmax ->]. cbn [mbind option_bind].
    intros [= <- <-]. by repeat split.
Qed.

Lemma agents_reset_lookup (math_exp : Q → option Q) (ds ds' : list Device)
    (obs : list (list Q)) :
  Coordinator.agents_reset math_exp ds = Some (ds', obs) →
  length ds' = length ds ∧ length obs = length ds
  ∧ ∀ i d, ds !! i = Some d →
           ∃ d' ob, ds' !! i = Some d' ∧ obs !! i = Some ob
                    ∧ Coordinator.device_reset math_exp d = Some (d', ob).
Proof.
  revert ds' obs. induction ds as [|d0 ds IH]; intros ds' obs; simpl.
  - intros [= <- <-]. by repeat split.
  - destruct (Coordinator.device_reset math_exp d0) as [[d1 ob1]|] eqn:Hd1; [|done].
    cbn [mbind option_bind].
    destruct (Coordinator.agents_reset math_exp ds) as [[ds1 obs1]|] eqn:Hds1; [|done].
    cbn [mbind option_bind]. intros [= <- <-].
    destruct (IH _ _ eq_refl) as (L1 & L2 & Hall).
    split; [simpl; by rewrite L1|]. split; [simpl; by rewrite L2|].
    intros [|i] d Hd; simpl in Hd |- *.
    + injection Hd as <-. by exists d1, ob1.
    + by apply Hall.
Qed.

(** [reset] empties the winners, zeroes [global_reward] and
    [current_system_power], leaves both generators (their tick counters and
    current values) as they were, and puts every agent in Stopped with its
    class and parameters unchanged; the observation it returns for an agent
    has 1.0 at the ordinal of Stopped, the power fraction
    [0.0 / max_allowed_power] in the last slot and 0.0 elsewhere.  It raises
    when some agent has [max_allowed_power] zero. *)
Theorem coordinator_reset_state
    (math_exp : Q → option Q) (c c' : Coordinator.t) (obs : list (list Q)) :
  Coordinator.reset math_exp c = Some (c', obs) →
  Coordinator.current_winner c' = []
  ∧ Coordinator.global_reward c' = 0.0
  ∧ Coordinator.current_system_power c' = 0.0
  ∧ Coordinator.tou_generator c' = Coordinator.tou_generator c
  ∧ Coordinator.load_profile c' = Coordinator.load_profile c
  ∧ length (Coordinator.agents c') = Coordinator.n c
  ∧ length obs = Coordinator.n c
  ∧ ∀ i d, Coordinator.agents c !! i = Some d →
      ¬ device_max_allowed_power d == 0
      ∧ ∃ d', Coordinator.agents c' !! i = Some d'
              ∧ device_class d' = device_class d
              ∧ device_params d' = device_params d
              ∧ device_ordinal d' = device_stopped_ordinal d
              ∧ device_off d' = true
              ∧ device_production_count d' = 0%Z
              ∧ obs !! i
                = Some (<[(device_states d + 1)%nat := 0.0 / device_max_allowed_power d]>
                          (<[device_stopped_ordinal d := 1.0]>
                             (replicate (device_states d + 2) 0.0))).
Proof.
  unfold Coordinator.reset.
  destruct (Coordinator.agents_reset math_exp (Coordinator.agents c))
    as [[ds obs']|] eqn:Hds; [|discriminate].
  cbn [mbind option_bind]. intros [= <- <-]. cbn.
  destruct (agents_reset_lookup _ _ _ _ Hds) as (L1 & L2 & Hall).
  repeat (split; [done|]).
  intros i d Hd. destruct (Hall i d Hd) as (d' & ob & Hd' & Hob & Hreset).
  destruct (device_reset_facts _ _ _ _ Hreset) as (F1 & F2 & F3 & F4 & F5 & F6 & ->).
  split; [done|]. by exists d'.
Qed.

Lemma coordinator_reset_state_witness :
  ∃ c1 res c2 obs,
    Coordinator.step exp_any coordinator_over_budget [5; 5]%Z = Some (c1, res)
    ∧ Coordinator.reset exp_any c1 = Some (c2, obs)
    ∧ Coordinator.current_system_power c2 = 0.0
    ∧ TOUGenerator.current_step (Coordinator.tou_generator c2) = 1%Z
    ∧ (∀ d, d ∈ Coordinator.agents c2 → device_ordinal d = 1%nat)
    ∧ obs = [[0.0; 1.0; 0.0; 0.0; 0.0; 0.0 / 100]; [0.0; 1.0; 0.0; 0.0; 0.0; 0.0 / 100]].
Proof.
  eexists _, _, _, _.
  split; [vm_compute; reflexivity|].
  match goal with |- ?E ∧ _ => assert (Hreset : E) by (vm_compute; reflexivity) end.
  split; [exact Hreset|].
  destruct (coordinator_reset_state exp_any _ _ _ Hreset)
    as (_ & _ & Hcsp & Htou & _ & _ & _ & Hagents).
  split; [exact Hcsp|]. split; [by rewrite Htou|]. split; [|reflexivity].
  intros d Hd. apply list_elem_of_lookup_1 in Hd as [i Hi].
  destruct i as [|[|i]]; cbn in Hi; try discriminate Hi; injection Hi as <-.
  - destruct (Hagents 0%nat _ eq_refl) as (_ & d' & Hd' & _ & _ & Hord & _).
    cbn in Hd'. injection Hd' as <-. exact Hord.
  - destruct (Hagents 1%nat _ eq_refl) as (_ & d' & Hd' & _ & _ & Hord & _).
    cbn in Hd'. injection Hd' as <-. exact Hord.
Defined.

(** ** The coordinator: what a tick leaves unchanged *)

(** A tick keeps the coordinator's settings and the number, order, class
    and parameters of the agents; it returns one observation and one reward
    per agent; it advances both generators by one tick and reports their new
    values. *)
Theorem coordinator_step_preserves_configuration
    (math_exp : Q → option Q) (c c' : Coordinator.t) (action : list Z)
    (res : Coordinator.StepResult) :
  Coordinator.step math_exp c action = Some (c', res) →
  Coordinator.shared_reward c' = Coordinator.shared_reward c
  ∧ Coordinator.max_allowed_power c' = Coordinator.max_allowed_power c
  ∧ Coordinator.energy_cost_budget c' = Coordinator.energy_cost_budget c
  ∧ Coordinator.n c' = Coordinator.n c
  ∧ length (Coordinator.res_obs_n res) = Coordinator.n c
  ∧ length (Coordinator.res_reward_n res) = Coordinator.n c
  ∧ (∀ i d', Coordinator.agents c' !! i = Some d' →
       ∃ d ob, Coordinator.agents c !! i = Some d
               ∧ device_class d' = device_class d
               ∧ device_params d' = device_params d
               ∧ Coordinator.res_obs_n res !! i = Some ob
               ∧ length ob = (device_states d + 2)%nat)
  ∧ TOUGenerator.current_step (Coordinator.tou_generator c')
    = (TOUGenerator.current_step (Coordinator.tou_generator c) + 1)%Z
  ∧ LoadProfile.current_step (Coordinator.load_profile c')
    = (LoadProfile.current_step (Coordinator.load_profile c) + 1)%Z
  ∧ Coordinator.info_current_energy_price (Coordinator.res_info res)
    = TOUGenerator.current_tou_value (Coordinator.tou_generator c')
  ∧ Coordinator.info_max_load_pofile (Coordinator.res_info res)
    = LoadProfile.current_max_load (Coordinator.load_profile c').
Proof.
  intros Hstep.
  destruct (coordinator_step_inv _ _ _ _ _ Hstep)
    as (tou & price & lp & load & rs & Htou & Hlp & Hrs & -> & ->).
  pose proof (agent_ticks_length _ _ _ _ _ Hrs) as Hlen.
  destruct (ts_step_inv (Price (Coordinator.tou_generator c)) (Price tou) price)
    as (Ht1 & Hv1 & _); [simpl; by rewrite Htou|].
  destruct (ts_step_inv (LoadLimit (Coordinator.load_profile c)) (LoadLimit lp) load)
    as (Ht2 & Hv2 & _); [simpl; by rewrite Hlp|].
  simpl in Ht1, Hv1, Ht2, Hv2. unfold Coordinator.n. cbn.
  split; [done|]. split; [done|]. split; [done|].
  split; [by rewrite length_fmap|]. split; [by rewrite length_fmap|].
  split.
  { unfold Coordinator.rewards_before_budget, Coordinator.n.
    destruct (Qgtb _ _), (Coordinator.shared_reward c);
      rewrite ?length_fmap, ?length_replicate; done. }
  split; [|by repeat split].
  intros i d' Hd'. rewrite list_lookup_fmap in Hd'.
  destruct (rs !! i) as [r|] eqn:Hr; [|done]. cbn in Hd'. injection Hd' as <-.
  destruct (agent_ticks_lookup _ _ _ _ _ _ _ Hrs Hr) as (d & z & Hd & _ & Ht).
  destruct (agent_tick_facts _ _ _ _ Ht) as (F1 & F2 & _).
  exists d, (Coordinator.tick_ob r). rewrite list_lookup_fmap, Hr.
  split; [done|]. split; [done|]. split; [done|]. split; [done|].
  clear -Ht. destruct d as [k a|a|a|a]; cbn [Coordinator.agent_tick] in Ht.
  - destruct (EFlexAgent.step math_exp k a z) as [[[[a' ob] sr] eo]|] eqn:Hstep;
      [|discriminate]. cbn [mbind option_bind] in Ht.
    destruct (EFlexAgent.current_power math_exp k a'); [|discriminate].
    cbn [mbind option_bind] in Ht. injection Ht as <-. cbn.
    destruct (production_step_inv _ _ _ _ _ _ _ _ Hstep) as (act & _ & _ & Hob & _).
    unfold EFlexAgent._get_obs in Hob.
    destruct (EFlexAgent.current_power _ _ _); [|discriminate].
    cbn [mbind option_bind] in Hob. destruct (py_div _ _); [|discriminate].
    cbn [mbind option_bind] in Hob. injection Hob as <-.
    rewrite !length_insert. reflexivity.
  - destruct (EFlexEnergyStorageAgent.step a z) as [[[[a' ob] sr] eo]|] eqn:Hstep;
      [|discriminate]. cbn [mbind option_bind] in Ht. injection Ht as <-. cbn.
    destruct (storage_step_inv _ _ _ _ _ _ Hstep) as (act & a1 & _ & _ & _ & Hob & _).
    unfold EFlexEnergyStorageAgent._get_obs in Hob.
    destruct (py_div _ _); [|discriminate].
    cbn [mbind option_bind] in Hob. injection Hob as <-.
    rewrite !length_insert. reflexivity.
  - destruct (EFLEXEnergyGeneratorAgent.step a z) as [[[[a' ob] sr] eo]|] eqn:Hstep;
      [|discriminate]. cbn [mbind option_bind] in Ht. injection Ht as <-. cbn.
    destruct (generator_step_inv _ _ _ _ _ _ Hstep) as (act & a1 & _ & _ & _ & Hob & _).
    unfold EFLEXEnergyGeneratorAgent._get_obs in Hob.
    destruct (py_div _ _); [|discriminate].
    cbn [mbind option_bind] in Hob. injection Hob as <-.
    rewrite !length_insert. reflexivity.
  - destruct (EFLEXEnergyMainGridAgent.step a z) as [[[[a' ob] sr] eo]|] eqn:Hstep;
      [|discriminate]. cbn [mbind option_bind] in Ht. injection Ht as <-. cbn.
    destruct (grid_step_inv _ _ _ _ _ _ Hstep) as (act & _ & _ & Hob & _).
    unfold EFLEXEnergyMainGridAgent._get_obs in Hob.
    destruct (py_div _ _); [|discriminate].
    cbn [mbind option_bind] in Hob. injection Hob as <-.
    rewrite !length_insert. reflexivity.
Qed.

Lemma coordinator_step_preserves_configuration_witness :
  ∃ c' res,
    Coordinator.step exp_any coordinator_shared [2; 1; 3]%Z = Some (c', res)
    ∧ Coordinator.n c' = 3%nat
    ∧ length (Coordinator.res_obs_n res) = 3%nat
    ∧ TOUGenerator.current_step (Coordinator.tou_generator c') = 1%Z.
Proof.
  eexists _, _.
  match goal with |- ?E ∧ _ => assert (Hstep : E) by (vm_compute; reflexivity) end.
  split; [exact Hstep|].
  destruct (coordinator_step_preserves_configuration exp_any _ _ _ _ Hstep)
    as (_ & _ & _ & Hn & Hobs & _ & _ & Htick & _).
  split; [exact Hn|]. split; [exact Hobs|exact Htick].
Defined.

(** ** The coordinator: the blended reward of a production device *)

Lemma take_action_completion_reward (a : EFlexAgent.t) (act : EFlexAgent.T.t) :
  EFlexAgent.current_state a = EFLEXAgentState.Execute →
  EFlexAgent.current_state (EFlexAgent._take_action a act) = EFLEXAgentState.Completed →
  EFlexAgent.current_reward (EFlexAgent._take_action a act) = 1.0.
Proof.
  intros Hst. unfold EFlexAgent._take_action. rewrite Hst. by destruct act.
Qed.

(** In the coordinator loop a production device that is not in LoadChange
    gets the reward [0.5 * state_reward + 0.5 * production_reward]; this is
    1.0 exactly on the tick that takes it from Execute to Completed and at
    most 0.5 on every other tick, and the agent's [current_reward] is
    overwritten with it. *)
Theorem producer_blended_reward
    (math_exp : Q → option Q) (k : EFlexAgent.kind) (a : EFlexAgent.t) (z : Z)
    (t : Coordinator.AgentTick) :
  EFlexAgent.current_state a ≠ EFLEXAgentState.LoadChange →
  Coordinator.agent_tick math_exp (Producer k a) z = Some t →
  ∃ a1 ob state_reward eo a',
    EFlexAgent.step math_exp k a z = Some (a1, ob, state_reward, eo)
    ∧ Coordinator.tick_reward t
      = 0.5 * state_reward
        + 0.5 * (if Coordinator.tick_produced t then 1.0 else 0.0)
    ∧ Coordinator.tick_ob t = ob ∧ Coordinator.tick_done t = eo
    ∧ Coordinator.tick_agent t = Producer k a'
    ∧ a' = EFlexAgent.set_reward a1 (Coordinator.tick_reward t)
    ∧ EFlexAgent.current_reward a' = Coordinator.tick_reward t
    ∧ (Coordinator.tick_produced t = true → Coordinator.tick_reward t == 1)
    ∧ (Coordinator.tick_produced t = false →
       -0.05 <= Coordinator.tick_reward t ∧ Coordinator.tick_reward t <= 0.5)
    ∧ (Coordinator.tick_produced t = true
       ↔ EFlexAgent.current_state a = EFLEXAgentState.Execute
         ∧ EFlexAgent.current_state a' = EFLEXAgentState.Completed).
Proof.
  intros Hnl. cbn [Coordinator.agent_tick].
  destruct (EFlexAgent.step math_exp k a z) as [[[[a1 ob] sr] eo]|] eqn:Hstep;
    [|discriminate]. cbn [mbind option_bind].
  destruct (EFlexAgent.current_power math_exp k a1) as [pw|]; [|discriminate].
  cbn [mbind option_bind]. intros [= <-].
  cbn [Coordinator.tick_agent Coordinator.tick_reward Coordinator.tick_produced
       Coordinator.tick_ob Coordinator.tick_done].
  destruct (production_step_inv _ _ _ _ _ _ _ _ Hstep) as (act & _ & -> & _ & -> & _).
  eexists _, ob, _, eo, _. split; [reflexivity|]. split; [reflexivity|].
  split; [reflexivity|]. split; [reflexivity|]. split; [reflexivity|].
  split; [reflexivity|]. split; [reflexivity|].
  cbn [EFlexAgent.set_reward EFlexAgent.set_state EFlexAgent.tick EFlexAgent.current_state].
  pose proof (take_action_reward_values a act Hnl) as Hvals. cbv zeta in Hvals.
  assert (Hiff : Nat.eqb (EFLEXAgentState.value
                            (EFlexAgent.current_state (EFlexAgent._take_action a act)))
                         (EFLEXAgentState.value EFLEXAgentState.Completed)
                 && Nat.eqb (EFLEXAgentState.value (EFlexAgent.current_state a))
                            (EFLEXAgentState.value EFLEXAgentState.Execute) = true
                 ↔ EFlexAgent.current_state a = EFLEXAgentState.Execute
                   ∧ EFlexAgent.current_state (EFlexAgent._take_action a act)
                     = EFLEXAgentState.Completed).
  { rewrite andb_true_iff, !Nat.eqb_eq. split.
    - intros [H1 H2]. split.
      + by destruct (EFlexAgent.current_state a).
      + by destruct (EFlexAgent.current_state (EFlexAgent._take_action a act)).
    - by intros [-> ->]. }
  split; [|split; [|done]].
  - intros Hp. rewrite Hp. apply Hiff in Hp as [H1 H2].
    rewrite (take_action_completion_reward a act H1 H2). reflexivity.
  - intros Hp. rewrite Hp.
    destruct Hvals as [-> | [-> | [-> | [-> | Hone]]]]; try (split; lra).
    rewrite Hone. split; lra.
Qed.

Lemma producer_blended_reward_witness :
  ∃ t a',
    Coordinator.agent_tick exp_any
      (Producer EFlexAgent.PConstant
         (EFlexAgent.mk 2 10 1 EFLEXAgentState.Execute 1.0 100 1 2 0)) 0 = Some t
    ∧ Coordinator.tick_agent t = Producer EFlexAgent.PConstant a'
    ∧ Coordinator.tick_produced t = true
    ∧ Coordinator.tick_reward t == 1
    ∧ Coordinator.tick_reward t = 0.5 * 1.0 + 0.5 * 1.0
    ∧ EFlexAgent.current_reward a' = Coordinator.tick_reward t.
Proof.
  eexists _.
  match goal with |- ∃ a', ?E ∧ _ => assert (Htick : E) by (vm_compute; reflexivity) end.
  assert (Hnl : EFlexAgent.current_state
                  (EFlexAgent.mk 2 10 1 EFLEXAgentState.Execute 1.0 100 1 2 0)
                ≠ EFLEXAgentState.LoadChange) by discriminate.
  destruct (producer_blended_reward exp_any _ _ _ _ Hnl Htick)
    as (a1 & ob & sr & eo & a' & Hstep & Hblend & _ & _ & Hagent & _ & Hrw & Hone & _).
  exists a'. split; [exact Htick|]. split; [exact Hagent|].
  split; [reflexivity|]. split; [apply Hone; reflexivity|]. split; [|exact Hrw].
  vm_compute in Hstep. injection Hstep as _ _ <- _. exact Hblend.
Defined.
